(** * hass-lovelace-kindle-screensaver: a shallow embedding of [index.js]
      and [config.js], and the properties of the service checked on it.

    The embedding follows the JavaScript sources function by function:
    - JavaScript integers are [Z]; [%] on them is [Z.rem] (the sign of the
      result is that of the dividend);
    - strings are the byte sequences of their UTF-8 encoding;
    - fractional settings (contrast, saturation, scaling) are rationals [Q];
    - the level arithmetic of the post-processor divides and rounds, and is
      done in IEEE 754 doubles ([Double]);
    - [parseInt] results are [option Z], [None] standing for [NaN];
    - the file system and the battery store are finite maps ([gmap]);
    - [async] functions that can throw live in a small state-and-exception
      monad [M];
    - the browser (puppeteer), the image library (sharp), [new URL] and
      [decodeURIComponent] are black boxes: their outcomes are supplied by
      oracles, everything the program does around them is modelled;
    - a request or a render cycle is run from its first statement to its
      last; that the program may serve a request while a cycle awaits is
      taken up where the cycle reads what requests write, at the battery
      relay. *)

From Stdlib Require Import ZArith QArith Qround Qabs Ascii List Lia.
From Stdlib Require Import Floats.SpecFloat.
From Stdlib Require String.
From stdpp Require Import gmap strings list fin_maps pretty.

Local Open Scope Z_scope.

(** ** The numbers of JavaScript: IEEE 754 binary64

    Where the sources compute with fractions whose rounding matters (the
    level arithmetic of the post-processor), numbers are [spec_float]s of
    the Standard Library with 53 bits of precision, and the operations are
    its correctly rounded ones. *)

Module Double.

Definition prec : Z := 53.
Definition emax : Z := 1024.

(** The double nearest to an integer; [Infinity] from [2^1024 - 2^970] on. *)
Definition ofZ (z : Z) : spec_float := binary_normalize prec emax z 0 false.

Definition zero : spec_float := S754_zero false.
Definition one : spec_float := ofZ 1.

Definition mul : spec_float -> spec_float -> spec_float := SFmul prec emax.
Definition div : spec_float -> spec_float -> spec_float := SFdiv prec emax.
Definition sub : spec_float -> spec_float -> spec_float := SFsub prec emax.
Definition opp : spec_float -> spec_float := SFopp.

(** [x < y]; false when either is [NaN]. *)
Definition ltb : spec_float -> spec_float -> bool := SFltb.

(** The value of a number that is finite. *)
Definition value (x : spec_float) : option Q :=
  match x with
  | S754_zero _ => Some 0%Q
  | S754_finite s m e =>
      Some (inject_Z (if s then Z.neg m else Z.pos m) * Qpower 2 e)%Q
  | S754_infinity _ | S754_nan => None
  end.

(** [Math.round]: the nearest integer, halves going up; a result of zero
    keeps the sign of the argument. *)
Definition round (x : spec_float) : spec_float :=
  match x with
  | S754_finite s m e =>
      let n := if s then Z.neg m else Z.pos m in
      let r := if 0 <=? e then n * 2 ^ e else (2 * n + 2 ^ (- e)) / 2 ^ (1 - e) in
      if r =? 0 then S754_zero s else ofZ r
  | _ => x
  end.

End Double.

(** ** JavaScript primitives used by the sources *)

Module JS.

(** White space skipped by [parseInt]: StrWhiteSpaceChar, that is
    WhiteSpace and LineTerminator.  A string is the sequence of bytes of the
    UTF-8 encoding of the JavaScript string, so a white-space character takes
    one, two or three bytes:
    - U+0009 to U+000D and U+0020, one byte each;
    - U+00A0 (C2 A0);
    - U+1680 (E1 9A 80), U+2000 to U+200A (E2 80 80 to E2 80 8A),
      U+2028, U+2029 and U+202F (E2 80 A8, E2 80 A9, E2 80 AF),
      U+205F (E2 81 9F), U+3000 (E3 80 80) and U+FEFF (EF BB BF). *)
Definition isWhiteSpace (c : ascii) : bool :=
  let n := nat_of_ascii c in
  (n =? 32)%nat || ((9 <=? n)%nat && (n <=? 13)%nat).

Definition isWhiteSpace2 (c d : ascii) : bool :=
  (N_of_ascii d =? 160)%N && (N_of_ascii c =? 194)%N.

Definition isWhiteSpace3 (c d e : ascii) : bool :=
  let c := N_of_ascii c in
  let d := N_of_ascii d in
  let e := N_of_ascii e in
  ((e =? 128)%N && ((d =? 154)%N && (c =? 225)%N)) ||
  ((((128 <=? e)%N && (e <=? 138)%N) || (e =? 168)%N || (e =? 169)%N || (e =? 175)%N) &&
   ((d =? 128)%N && (c =? 226)%N)) ||
  ((e =? 159)%N && ((d =? 129)%N && (c =? 226)%N)) ||
  ((e =? 128)%N && ((d =? 128)%N && (c =? 227)%N)) ||
  ((e =? 191)%N && ((d =? 187)%N && (c =? 239)%N)).

Fixpoint trimStart (s : string) : string :=
  match s with
  | String c r =>
      if isWhiteSpace c then trimStart r
      else
        match r with
        | String d r2 =>
            if isWhiteSpace2 c d then trimStart r2
            else
              match r2 with
              | String e r3 => if isWhiteSpace3 c d e then trimStart r3 else s
              | EmptyString => s
              end
        | EmptyString => s
        end
  | EmptyString => s
  end.

(** Value of a digit in radix up to 36. *)
Definition digitValue (c : ascii) : option Z :=
  let n := Z.of_nat (nat_of_ascii c) in
  if (48 <=? n) && (n <=? 57) then Some (n - 48)
  else if (97 <=? n) && (n <=? 122) then Some (n - 87)
  else if (65 <=? n) && (n <=? 90) then Some (n - 55)
  else None.

(** The longest prefix of digits of the radix; [acc] is [None] as long as
    no digit has been read. *)
Fixpoint digitsPrefix (radix : Z) (s : string) (acc : option Z) : option Z :=
  match s with
  | String c r =>
      match digitValue c with
      | Some d =>
          if d <? radix
          then digitsPrefix radix r
                 (Some (match acc with Some a => a * radix + d | None => d end))
          else acc
      | None => acc
      end
  | EmptyString => acc
  end.

(** [parseInt(x)] with no radix.  A missing query parameter is [null],
    which [parseInt] first turns into the string "null".  The result is the
    exact integer; [None] is [NaN]. *)
Definition parseInt (input : option string) : option Z :=
  let s := trimStart (match input with Some s => s | None => "null" end) in
  let '(sign, s1) :=
    match s with
    | String "-" r => (-1, r)
    | String "+" r => (1, r)
    | _ => (1, s)
    end in
  let '(radix, s2) :=
    match s1 with
    | String "0" (String "x" r) => (16, r)
    | String "0" (String "X" r) => (16, r)
    | _ => (10, s1)
    end in
  option_map (Z.mul sign) (digitsPrefix radix s2 None).

(** Whether the digits are preceded by a minus sign. *)
Definition hasMinusSign (input : option string) : bool :=
  match trimStart (match input with Some s => s | None => "null" end) with
  | String "-" _ => true
  | _ => false
  end.

(** The Number that [parseInt] returns: [NaN], or the double nearest to the
    integer, which is [-0] when a minus sign precedes digits that read
    zero. *)
Definition parseIntNumber (input : option string) : spec_float :=
  match parseInt input with
  | None => S754_nan
  | Some z => if z =? 0 then S754_zero (hasMinusSign input) else Double.ofZ z
  end.

Definition isNaN (v : option Z) : bool :=
  match v with None => true | Some _ => false end.

(** [isFinite]: neither [NaN] nor an integer so large that its double is
    [Infinity]. *)
Definition isFinite (v : option Z) : bool :=
  match v with
  | None => false
  | Some z => Z.abs z <? 2 ^ 1024 - 2 ^ 970
  end.

(** [Math.round] on a rational: the nearest integer, halves going up. *)
Definition round (q : Q) : Z := Qfloor (q + (1 # 2))%Q.

(** [s.substring(n)]. *)
Fixpoint substringFrom (n : nat) (s : string) : string :=
  match n, s with
  | O, _ => s
  | S n', String _ r => substringFrom n' r
  | S _, EmptyString => EmptyString
  end.

(** [s.startsWith(p)]. *)
Fixpoint startsWith (p s : string) : bool :=
  match p, s with
  | EmptyString, _ => true
  | String a p', String b s' => if Ascii.eqb a b then startsWith p' s' else false
  | String _ _, EmptyString => false
  end.

(** [s.includes(p)]. *)
Fixpoint includes (p s : string) : bool :=
  startsWith p s ||
  match s with
  | String _ s' => includes p s'
  | EmptyString => false
  end.

Definition lowerChar (c : ascii) : ascii :=
  let n := nat_of_ascii c in
  if ((65 <=? n)%nat && (n <=? 90)%nat) then ascii_of_nat (n + 32) else c.

(** [s.toLowerCase()] on ASCII. *)
Fixpoint toLowerCase (s : string) : string :=
  match s with
  | String c r => String (lowerChar c) (toLowerCase r)
  | EmptyString => EmptyString
  end.

End JS.

(** ** Configuration ([config.js]) *)

Record ScreenSize := { width : Z; height : Z }.

Record PageConfig := {
  screenShotUrl : string;
  imageFormat : string;
  outputPath : string;
  renderingDelay : Z;
  renderingScreenSize : ScreenSize;
  grayscaleDepth : Z;
  removeGamma : bool;
  blackLevel : string;
  whiteLevel : string;
  dither : bool;
  colorMode : string;
  prefersColorScheme : string;
  rotation : Z;
  scaling : Q;
  batteryWebHook : option string;
  saturation : Q;
  contrast : Q
}.

(** A port as the program holds it: the number 5000 of the defaults, or
    the string of the environment. *)
Inductive Port := PortNumber (n : Z) | PortText (s : string).

Coercion PortNumber : Z >-> Port.

Record Config := {
  baseUrl : string;
  cronJob : string;
  pages : list PageConfig;
  port : Port;
  language : string;
  timezone : string;
  debug : bool
}.

(** [getEnvironmentVariable(key, suffix, fallbackValue)]: the suffixed
    variable, else a non-empty fallback, else the unsuffixed variable. *)
Definition getEnvironmentVariable (env : gmap string string)
    (key suffix : string) (fallbackValue : option string) : option string :=
  match env !! (key +:+ suffix) with
  | Some value => Some value
  | None =>
      match fallbackValue with
      | Some f => if String.eqb f EmptyString then env !! key else Some f
      | None => env !! key
      end
  end.

(** The [imageFormat] field built by [getPagesConfig]:
    [getEnvironmentVariable("IMAGE_FORMAT", suffix) || "png"]. *)
Definition configuredImageFormat (env : gmap string string) (suffix : string) : string :=
  match getEnvironmentVariable env "IMAGE_FORMAT" suffix None with
  | Some v => if String.eqb v EmptyString then "png" else v
  | None => "png"
  end.

(** ** [launchBrowserAndLogin], step by step

    The function is followed call by call.  Which calls throw is given by an
    oracle; the attempts of the retry loop are told apart by their number.
    The function closes the page it opened but never the browser: when it
    throws after the launch, the browser it launched stays open. *)

(** An exception: [e.code] and [e.message]. *)
Record Exn := { code : option string; message : string }.

Module Login.

Inductive Step :=
| Launch (language : string) (headless : bool)
| NewPage
| Goto (url : string)
| Evaluate (attempt : nat)
| Settle (ms : Z)
| WaitForNavigation (attempt : nat)
| ClosePage.

Inductive Message :=
| StartingBrowser
| Visiting (url : string)
| AddingAuthentication
| Interrupted (attempt : nat).

(** What has been done so far: the calls that returned, and the console. *)
Record Session := { steps : list Step; output : list Message }.

Definition Faults := Step -> option Exn.

Definition L (A : Type) : Type := Session -> Session * (Exn + A).

#[export] Instance L_ret : MRet L := fun A (a : A) s => (s, inr a).

#[export] Instance L_bind : MBind L := fun A B (f : A -> L B) (m : L A) s =>
  match m s with
  | (s', inr a) => f a s'
  | (s', inl e) => (s', inl e)
  end.

#[export] Instance L_throw : MThrow Exn L := fun A (e : Exn) s => (s, inl e).

(** [promise.catch(() => {})]. *)
Definition swallow (m : L unit) : L unit := fun s =>
  match m s with
  | (s', inr _) => (s', inr tt)
  | (s', inl _) => (s', inr tt)
  end.

Definition say (m : Message) : L unit := fun s =>
  ({| steps := steps s; output := output s ++ [m] |}, inr tt).

(** A call into puppeteer: it throws when the oracle says so and is
    recorded when it returns. *)
Definition perform (faults : Faults) (step : Step) : L unit := fun s =>
  match faults step with
  | Some e => (s, inl e)
  | None => ({| steps := steps s ++ [step]; output := output s |}, inr tt)
  end.

(** [await new Promise(resolve => setTimeout(resolve, ms))]. *)
Definition settle (ms : Z) : L unit := fun s =>
  ({| steps := steps s ++ [Settle ms]; output := output s |}, inr tt).

Section Login.

Variable config : Config.
Variable faults : Faults.

(** [for (let attempt = 1; attempt <= 3; attempt++)], entered at [attempt]
    with [remaining] iterations to go: a successful [evaluate] leaves the
    loop, a failed one is retried after a pause unless it was the third. *)
Fixpoint storeTokens (remaining attempt : nat) : L unit :=
  match remaining with
  | O => mret tt
  | S remaining' =>
      fun s =>
        match perform faults (Evaluate attempt) s with
        | (s', inr _) => (s', inr tt)
        | (s', inl e) =>
            (if (attempt <? 3)%nat
             then
               say (Interrupted attempt);;
               settle 3000;;
               swallow (perform faults (WaitForNavigation attempt));;
               storeTokens remaining' (S attempt)
             else mthrow e) s'
        end
  end.

Definition launchBrowserAndLogin : L unit :=
  say StartingBrowser;;
  perform faults (Launch (language config) (negb (debug config)));;
  say (Visiting (baseUrl config));;
  perform faults NewPage;;
  perform faults (Goto (baseUrl config));;
  say AddingAuthentication;;
  storeTokens 3 1;;
  perform faults ClosePage.

End Login.

Definition start : Session := {| steps := []; output := [] |}.


(** The number of the first attempt, of the three, that does not throw. *)
Definition firstGoodAttempt (faults : Faults) : option nat :=
  match faults (Evaluate 1), faults (Evaluate 2), faults (Evaluate 3) with
  | None, _, _ => Some 1%nat
  | Some _, None, _ => Some 2%nat
  | Some _, Some _, None => Some 3%nat
  | Some _, Some _, Some _ => None
  end.

(** An oracle under which the first [failing] attempts are interrupted by a
    navigation, and so is every wait for the navigation to end. *)
Definition contextDestroyed : Exn :=
  {| code := None; message := "Execution context was destroyed" |}.

Definition redirecting (failing : nat) : Faults := fun step =>
  match step with
  | Evaluate attempt => if (attempt <=? failing)%nat then Some contextDestroyed else None
  | WaitForNavigation _ => Some contextDestroyed
  | _ => None
  end.

End Login.

(** ** Console output *)

Inductive LogEvent :=
| LogCheckConfiguration
| LogInvalidRotation (entry : nat) (rotation : Z)
| LogDebugMode
| LogFirstRender
| LogStartCron
| LogInvalidRequest (page : option Z)
| LogImageAccessed (page : Z)
| LogNewBatteryLevel (level page : Z)
| LogStartedCharging (page : Z)
| LogStoppedCharging (page : Z)
| LogError (message : string)
| LogBlockedSuspicious (pathname : string)
| LogBlockedTraversal (pathname : string)
| LogConfigAccessed (requestedPath : string)
| LogConfigNotFound (pathname : string)
| LogConfigError (pathname message : string)
| LogRendering (url : string)
| LogConverting (url : string)
| LogFinished (url : string)
| LogFailedFor (url message : string)
| LogFailedToRender (url message : string)
| LogCouldNotClosePage (url message : string)
| LogInfo (message : string)
| LogLogin (message : Login.Message).

(** ** Startup: the body of the top-level [async] function up to the point
    where the scheduler and the server are set up *)

Inductive StartupAction :=
| LaunchBrowserAndLogin
| RenderOnce (existingBrowser : bool)
| ArmCron (expression : string)
| Listen (onPort : Port).

(** [process.env.PORT || 5000] in [config.js], and [config.port || 5000] in
    the top-level function: an empty string and the number 0 are falsy, any
    other string is passed on as it is. *)
Definition configuredPort (env : gmap string string) : Port :=
  match env !! "PORT" with
  | Some s => if String.eqb s EmptyString then PortNumber 5000 else PortText s
  | None => PortNumber 5000
  end.

Definition portOrDefault (p : Port) : Port :=
  match p with
  | PortNumber n => if n =? 0 then PortNumber 5000 else p
  | PortText s => if String.eqb s EmptyString then PortNumber 5000 else p
  end.

(** [for (const i in config.pages)]: the first entry whose rotation fails
    the test [pageConfig.rotation % 90 > 0]. *)
Fixpoint firstInvalidRotation (i : nat) (ps : list PageConfig) : option (nat * Z) :=
  match ps with
  | [] => None
  | pageConfig :: rest =>
      if Z.rem (rotation pageConfig) 90 >? 0
      then Some (i, rotation pageConfig)
      else firstInvalidRotation (S i) rest
  end.

(** What the top-level function logs and what it sets in motion, in order.
    A rejected configuration logs an error and returns before anything is
    started. *)
Definition main (config : Config) : list LogEvent * list StartupAction :=
  if (length (pages config) =? 0)%nat then ([LogCheckConfiguration], [])
  else
    match firstInvalidRotation 0 (pages config) with
    | Some (i, r) => ([LogInvalidRotation i r], [])
    | None =>
        let listen := Listen (portOrDefault (port config)) in
        if debug config
        then ([LogDebugMode], [LaunchBrowserAndLogin; RenderOnce true; listen])
        else ([LogFirstRender; LogStartCron],
              [RenderOnce false; ArmCron (cronJob config); listen])
    end.

(** ** Capture geometry ([renderUrlToImageAsync]) *)

Record Clip := { clip_x : Z; clip_y : Z; clip_width : Z; clip_height : Z }.

(** The viewport [size], swapped when [pageConfig.rotation % 180 > 0]. *)
Definition viewportSize (pageConfig : PageConfig) : ScreenSize :=
  let size := {| width := width (renderingScreenSize pageConfig);
                 height := height (renderingScreenSize pageConfig) |} in
  if Z.rem (rotation pageConfig) 180 >? 0
  then {| width := height size; height := width size |}
  else size.

(** [clip: { x: 0, y: 0, ...size }]. *)
Definition screenshotClip (size : ScreenSize) : Clip :=
  {| clip_x := 0; clip_y := 0; clip_width := width size; clip_height := height size |}.

(** ** Image post-processing ([convertImageToKindleCompatiblePngAsync])

    sharp builds a pipeline lazily: every call ([gamma], [rotate], ...)
    records one operation and [toFile] runs them.  The embedding keeps the
    recorded operations with their arguments. *)

(** Numbers handed to [linear] and read from the environment: a finite
    value, the negative zero, the infinities and [NaN]. *)
Inductive Num := Fin (q : Q) | NegZero | PosInf | NegInf | NaN.

Definition numOfDouble (x : spec_float) : Num :=
  match x with
  | S754_zero false => Fin 0
  | S754_zero true => NegZero
  | S754_infinity false => PosInf
  | S754_infinity true => NegInf
  | S754_nan => NaN
  | S754_finite s m e =>
      Fin (inject_Z (if s then Z.neg m else Z.pos m) * Qpower 2 e)%Q
  end.

(** The value of a number that is finite. *)
Definition numValue (x : Num) : option Q :=
  match x with
  | Fin q => Some q
  | NegZero => Some 0%Q
  | PosInf | NegInf | NaN => None
  end.

Record PngOptions := {
  compressionLevel : option Z;
  palette : option bool;
  colours : option Z
}.

Inductive SharpOp :=
| OpGamma (g : Q)
| OpRotate (angle : Z) (background : string)
| OpGrayscale
| OpModulate (saturationFactor : Q)
| OpLinear (a b : Num)
| OpSharpen (sigma : Q)
| OpToColorspace (space : string)
| OpPng (options : PngOptions)
| OpBmp
| OpJpeg (quality : Z).

Definition isGrayscaleMode (pageConfig : PageConfig) : bool :=
  String.eqb (colorMode pageConfig) "GrayScale" ||
  String.eqb (colorMode pageConfig) "Grayscale".

Definition gammaStep (pageConfig : PageConfig) : list SharpOp :=
  if removeGamma pageConfig then [OpGamma (10 # 22)] else [].

Definition rotateStep (pageConfig : PageConfig) : list SharpOp :=
  if rotation pageConfig =? 0 then []
  else [OpRotate (rotation pageConfig) "#ffffff"].

Definition grayscaleStep (pageConfig : PageConfig) : list SharpOp :=
  if isGrayscaleMode pageConfig then [OpGrayscale] else [].

Definition saturationStep (pageConfig : PageConfig) : list SharpOp :=
  if Qeq_bool (saturation pageConfig) 1 then []
  else [OpModulate (saturation pageConfig)].

(** The arguments of the contrast call
    [image.linear(contrast, -(128 * contrast) + 128)], when it is made. *)
Definition contrastLinear (pageConfig : PageConfig) : option (Q * Q) :=
  if Qeq_bool (contrast pageConfig) 1 then None
  else Some (contrast pageConfig, (- (128 * contrast pageConfig) + 128)%Q).

Definition contrastStep (pageConfig : PageConfig) : list SharpOp :=
  match contrastLinear pageConfig with
  | Some (a, b) => [OpLinear (Fin a) (Fin b)]
  | None => []
  end.

(** [parseInt(level) / 100]. *)
Definition levelFraction (level : string) : spec_float :=
  Double.div (JS.parseIntNumber (Some level)) (Double.ofZ 100).

(** [Math.round(fraction * 255)]. *)
Definition levelInput (fraction : spec_float) : spec_float :=
  Double.round (Double.mul fraction (Double.ofZ 255)).

(** [255 / (inputMax - inputMin)]. *)
Definition levelMultiplier (inputMin inputMax : spec_float) : spec_float :=
  Double.div (Double.ofZ 255) (Double.sub inputMax inputMin).

(** [-inputMin * multiplier]. *)
Definition levelOffset (inputMin multiplier : spec_float) : spec_float :=
  Double.mul (Double.opp inputMin) multiplier.

(** The arguments of the level call [image.linear(multiplier, offset)],
    when it is made: the strings must differ from the defaults and then
    [blackLevel > 0 || whiteLevel < 1] must hold (false on [NaN]). *)
Definition levelLinear (pageConfig : PageConfig) : option (Num * Num) :=
  if negb (String.eqb (blackLevel pageConfig) "0%") ||
     negb (String.eqb (whiteLevel pageConfig) "100%")
  then
    let blackLevel := levelFraction (blackLevel pageConfig) in
    let whiteLevel := levelFraction (whiteLevel pageConfig) in
    if Double.ltb Double.zero blackLevel || Double.ltb whiteLevel Double.one
    then
      let inputMin := levelInput blackLevel in
      let inputMax := levelInput whiteLevel in
      let multiplier := levelMultiplier inputMin inputMax in
      let offset := levelOffset inputMin multiplier in
      Some (numOfDouble multiplier, numOfDouble offset)
    else None
  else None.

Definition levelStep (pageConfig : PageConfig) : list SharpOp :=
  match levelLinear pageConfig with
  | Some (multiplier, offset) => [OpLinear multiplier offset]
  | None => []
  end.

Definition ditherStep (pageConfig : PageConfig) : list SharpOp :=
  if dither pageConfig then [OpSharpen (1 # 2)] else [].

(** The output format is chosen last; both branches call [png]. *)
Definition encodeStep (pageConfig : PageConfig) : list SharpOp :=
  if isGrayscaleMode pageConfig
  then [OpToColorspace "b-w";
        OpPng {| compressionLevel := Some 9; palette := Some false; colours := None |}]
  else [OpPng {| compressionLevel := Some 9; palette := None; colours := None |}].

(** All operations recorded before [toFile], in order. *)
Definition convertPipeline (pageConfig : PageConfig) : list SharpOp :=
  gammaStep pageConfig ++ rotateStep pageConfig ++ grayscaleStep pageConfig ++
  saturationStep pageConfig ++ contrastStep pageConfig ++ levelStep pageConfig ++
  ditherStep pageConfig ++ encodeStep pageConfig.

(** *** What the recorded operations mean

    sharp documents [linear(a, b)] as [a * input + b] on every channel.
    An image is a list of pixels, a pixel the list of its channel values. *)


Definition linearChannel (a b x : Q) : Q := (a * x + b)%Q.



(** The level call on a channel value, defined when both arguments are
    finite. *)
Definition applyLevel (call : option (Num * Num)) (x : Q) : option Q :=
  match call with
  | None => Some x
  | Some (a, b) =>
      match numValue a, numValue b with
      | Some a, Some b => Some (linearChannel a b x)
      | _, _ => None
      end
  end.

(** The encoder selected by a pipeline: its last format operation. *)
Inductive Encoding := EncPng | EncBmp | EncJpeg.

Definition opEncoding (op : SharpOp) : option Encoding :=
  match op with
  | OpPng _ => Some EncPng
  | OpBmp => Some EncBmp
  | OpJpeg _ => Some EncJpeg
  | _ => None
  end.

Fixpoint pipelineEncoding (ops : list SharpOp) : option Encoding :=
  match ops with
  | [] => None
  | op :: rest =>
      match pipelineEncoding rest with
      | Some e => Some e
      | None => opEncoding op
      end
  end.

(** The palette size requested from the PNG encoder, if any. *)
Fixpoint pipelinePaletteSize (ops : list SharpOp) : option Z :=
  match ops with
  | [] => None
  | OpPng options :: rest =>
      match pipelinePaletteSize rest with
      | Some n => Some n
      | None => colours options
      end
  | _ :: rest => pipelinePaletteSize rest
  end.

(** Follows the specification's wording, for comparison with [encodeStep]:
    the format named by the target's format string, PNG when the string is
    not recognised, and the palette size derived from the bit depth. *)
Definition specEncoding (format : string) : Encoding :=
  let f := JS.toLowerCase format in
  if String.eqb f "bmp" then EncBmp
  else if String.eqb f "jpeg" || String.eqb f "jpg" then EncJpeg
  else EncPng.

Definition specPaletteSize (depth : Z) : Z :=
  if depth =? 1 then 2 else if depth =? 4 then 16 else 256.

(** The format strings that name an encoder other than PNG. *)
Definition namesOtherEncoder (format : string) : bool :=
  match specEncoding format with EncPng => false | _ => true end.

(** What the specification asks of the encoder: the format named by the
    target, and for PNG a palette sized by the bit depth. *)
Definition encoderAsSpecified (pageConfig : PageConfig) : Prop :=
  pipelineEncoding (convertPipeline pageConfig) =
    Some (specEncoding (imageFormat pageConfig)) /\
  (specEncoding (imageFormat pageConfig) = EncPng ->
   pipelinePaletteSize (convertPipeline pageConfig) =
     Some (specPaletteSize (grayscaleDepth pageConfig))).


(** The distance below which two numbers are taken to agree but for the
    rounding of doubles.  Two divisors between 1 and 255 that differ give
    multipliers more than [255 / (255 * 256)] apart. *)
Definition roundingError : Q := 1 # (2 ^ 36).


(** [CONTRAST=0] never reaches the post-processor through [config.js]:
    [Number(...) || 1] turns a zero into 1. *)
Definition configuredContrast (parsed : Q) : Q :=
  if Qeq_bool parsed 0 then 1 else parsed.

(** ** Paths (the POSIX flavour of Node's [path] module) *)

Module Path.

Definition isAbsolute (p : string) : bool :=
  match p with String "/" _ => true | _ => false end.

(** The segments between slashes. *)
Fixpoint segments (s : string) : list string :=
  match s with
  | EmptyString => [EmptyString]
  | String c r =>
      let segs := segments r in
      if Ascii.eqb c "/" then EmptyString :: segs
      else match segs with
           | seg :: more => String c seg :: more
           | [] => [String c EmptyString]
           end
  end.

(** Normalisation of the segments of an absolute path; [stack] holds the
    segments kept so far, innermost first. *)
Fixpoint normalize (stack : list string) (segs : list string) : list string :=
  match segs with
  | [] => rev stack
  | seg :: rest =>
      if String.eqb seg EmptyString || String.eqb seg "." then normalize stack rest
      else if String.eqb seg ".." then normalize (tail stack) rest
      else normalize (seg :: stack) rest
  end.

Fixpoint joinAbsolute (segs : list string) : string :=
  match segs with
  | [] => EmptyString
  | seg :: rest => "/" +:+ seg +:+ joinAbsolute rest
  end.

Definition ofSegments (segs : list string) : string :=
  match segs with [] => "/" | _ => joinAbsolute segs end.

(** [path.resolve(a)] in working directory [cwd]. *)
Definition resolve1 (cwd a : string) : string :=
  ofSegments (normalize []
    (segments (if isAbsolute a then a else cwd +:+ "/" +:+ a))).

(** [path.resolve(a, b)] in working directory [cwd]. *)
Definition resolve (cwd a b : string) : string :=
  ofSegments (normalize []
    (segments (if isAbsolute b then b
               else if isAbsolute a then a +:+ "/" +:+ b
               else cwd +:+ "/" +:+ a +:+ "/" +:+ b))).

Definition basename (p : string) : string := List.last (segments p) EmptyString.

(** The suffix that starts at the last dot. *)
Fixpoint fromLastDot (s : string) : option string :=
  match s with
  | EmptyString => None
  | String c r =>
      match fromLastDot r with
      | Some e => Some e
      | None => if Ascii.eqb c "." then Some s else None
      end
  end.

(** [path.extname]: a leading dot of the base name does not start an
    extension. *)
Definition extname (p : string) : string :=
  let b := basename p in
  if String.eqb b ".." then EmptyString
  else
    match b with
    | String "." r => default EmptyString (fromLastDot r)
    | _ => default EmptyString (fromLastDot b)
    end.

(** [path.dirname] of a path without trailing slash. *)
Definition dirname (p : string) : string :=
  let dir := String.concat "/" (removelast (segments p)) in
  if String.eqb dir EmptyString then (if isAbsolute p then "/" else ".") else dir.

End Path.

(** ** The state the program runs in *)

Definition bytes := list Byte.byte.

(** What a path names.  [Broken code] is a path on which every operation
    fails with that error code (no permission, a file used as a directory). *)
Inductive Node :=
| File (data : bytes) (mtime : Z)
| Directory
| Broken (code : string).

Record Battery := { batteryLevel : option Z; isCharging : bool }.

(** Calls into the browser, and other effects the program asks for. *)
Inductive Call :=
| NewPage
| EmulateTimezone (tz : string)
| EmulateMediaFeatures (scheme : string)
| SetViewport (size : ScreenSize)
| Goto (url : string)
| WaitForSelector (selector : string)
| Evaluate
| AddStyleTag (zoomPercent : Q)
| Sleep (ms : Z)
| Screenshot (path : string) (clip : Clip)
| ClosePage
| CloseBrowser
| KillBrowser
| EnsureDir (dir : string)
| PostWebhook (url : string) (pageIndex : nat) (payload : Battery)
| LoginCall (step : Login.Step).

Record State := {
  fs : gmap string Node;
  batteryStore : gmap nat Battery;
  console : list LogEvent;
  calls : list Call;
  clock : Z
}.

Definition setFs (f : gmap string Node -> gmap string Node) (st : State) : State :=
  {| fs := f (fs st); batteryStore := batteryStore st; console := console st;
     calls := calls st; clock := clock st |}.

Definition setBatteryStore (f : gmap nat Battery -> gmap nat Battery) (st : State) : State :=
  {| fs := fs st; batteryStore := f (batteryStore st); console := console st;
     calls := calls st; clock := clock st |}.

Definition addLog (ev : LogEvent) (st : State) : State :=
  {| fs := fs st; batteryStore := batteryStore st; console := console st ++ [ev];
     calls := calls st; clock := clock st |}.

Definition addCall (c : Call) (st : State) : State :=
  {| fs := fs st; batteryStore := batteryStore st; console := console st;
     calls := calls st ++ [c]; clock := clock st |}.

(** What a login has done, added to the state: its calls and its console
    output. *)
Definition addLogin (session : Login.Session) (st : State) : State :=
  {| fs := fs st; batteryStore := batteryStore st;
     console := console st ++ map LogLogin (Login.output session);
     calls := calls st ++ map LoginCall (Login.steps session);
     clock := clock st |}.

(** The outside world during one render cycle: which calls throw and what
    the browser and the image library produce.  The answers may differ from
    one target to the next, so they are indexed by the position of the
    target being rendered. *)
Record World := {
  loginFaults : Login.Faults;
  callFault : nat -> Call -> option Exn;
  screenshotData : nat -> Clip -> bytes;
  sharpRun : nat -> list SharpOp -> bytes -> Exn + bytes;
  closeBrowserFault : option Exn
}.

(** *** State and exceptions *)

Definition M (A : Type) : Type := State -> State * (Exn + A).

#[export] Instance M_ret : MRet M := fun A (a : A) st => (st, inr a).

#[export] Instance M_bind : MBind M := fun A B (f : A -> M B) (m : M A) st =>
  match m st with
  | (st', inr a) => f a st'
  | (st', inl e) => (st', inl e)
  end.

#[export] Instance M_throw : MThrow Exn M := fun A (e : Exn) st => (st, inl e).

(** [try { body } catch (e) { handler }]. *)
Definition tryCatch {A} (body : M A) (handler : Exn -> M A) : M A := fun st =>
  match body st with
  | (st', inr a) => (st', inr a)
  | (st', inl e) => handler e st'
  end.

(** [try { body } finally { finalizer }]. *)
Definition tryFinally {A} (body : M A) (finalizer : M unit) : M A := fun st =>
  match body st with
  | (st', r) =>
      match finalizer st' with
      | (st'', inr _) => (st'', r)
      | (st'', inl e) => (st'', inl e)
      end
  end.

(** A promise that is started and not awaited: its rejection does not reach
    the caller. *)
Definition notAwaited (m : M unit) : M unit := tryCatch m (fun _ => mret tt).

Definition getState : M State := fun st => (st, inr st).

Definition modify (f : State -> State) : M unit := fun st => (f st, inr tt).

Definition log (ev : LogEvent) : M unit := modify (addLog ev).

Definition errno (c : string) : Exn := {| code := Some c; message := c |}.

Definition typeError (msg : string) : Exn := {| code := None; message := msg |}.

(** The [TypeError] of [new URL]. *)
Definition invalidURL : Exn :=
  {| code := Some "ERR_INVALID_URL"; message := "Invalid URL" |}.

(** [fs.access]. *)
Definition access (p : string) : M unit := fun st =>
  match fs st !! p with
  | Some (File _ _) | Some Directory => (st, inr tt)
  | Some (Broken c) => (st, inl (errno c))
  | None => (st, inl (errno "ENOENT"))
  end.

Record Stats := { isFile : bool; mtime : Z }.

(** [fs.stat]. *)
Definition stat (p : string) : M Stats := fun st =>
  match fs st !! p with
  | Some (File _ t) => (st, inr {| isFile := true; mtime := t |})
  | Some Directory => (st, inr {| isFile := false; mtime := 0 |})
  | Some (Broken c) => (st, inl (errno c))
  | None => (st, inl (errno "ENOENT"))
  end.

(** [fs.readFile]. *)
Definition readFile (p : string) : M bytes := fun st =>
  match fs st !! p with
  | Some (File d _) => (st, inr d)
  | Some Directory => (st, inl (errno "EISDIR"))
  | Some (Broken c) => (st, inl (errno c))
  | None => (st, inl (errno "ENOENT"))
  end.

(** [fs.unlink]. *)
Definition unlink (p : string) : M unit := fun st =>
  match fs st !! p with
  | Some (File _ _) => (setFs (delete p) st, inr tt)
  | Some Directory => (st, inl (errno "EISDIR"))
  | Some (Broken c) => (st, inl (errno c))
  | None => (st, inl (errno "ENOENT"))
  end.

(** A file written by the browser or the image library; whether the write
    succeeds is decided by the world, see [callFault] and [sharpRun]. *)
Definition writeFile (p : string) (d : bytes) (st : State) : State :=
  setFs (insert p (File d (clock st))) st.

(** A call that the world may make throw while target [pageIndex] is being
    rendered; it is recorded when it returns. *)
Definition call (w : World) (pageIndex : nat) (c : Call) : M unit := fun st =>
  match callFault w pageIndex c with
  | Some e => (st, inl e)
  | None => (addCall c st, inr tt)
  end.

(** ** HTTP requests and responses *)

(** A request after [new URL(request.url, ...)]: the path name and the two
    query parameters the program reads ([searchParams.get], [None] for
    [null]). *)
Record Request := {
  pathname : string;
  queryBatteryLevel : option string;
  queryIsCharging : option string
}.

Inductive HeaderValue :=
| HText (s : string)
| HNumber (n : Z)
| HDate (t : Z).

Inductive Body := Text (s : string) | Data (d : bytes).

Record Response := {
  status : Z;
  headers : list (string * HeaderValue);
  body : Body
}.

(** [response.writeHead(status); response.end(text)]. *)
Definition respond (s : Z) (text : string) : Response :=
  {| status := s; headers := []; body := Text text |}.

(** [getContentType]: the table, and the default for any other extension. *)
Definition contentTypes : list (string * string) :=
  [ (".txt", "text/plain");
    (".json", "application/json");
    (".xml", "application/xml");
    (".html", "text/html");
    (".css", "text/css");
    (".js", "application/javascript");
    (".sh", "text/plain");
    (".conf", "text/plain");
    (".ini", "text/plain");
    (".cfg", "text/plain");
    (".yaml", "text/yaml");
    (".yml", "text/yaml") ].

Fixpoint tableLookup (table : list (string * string)) (key : string) : option string :=
  match table with
  | [] => None
  | (k, v) :: rest => if String.eqb k key then Some v else tableLookup rest key
  end.

Definition getContentType (ext : string) : string :=
  default "application/octet-stream" (tableLookup contentTypes ext).

(** The page number of an image request:
    [pageNumberStr === "/" ? 1 : parseInt(pageNumberStr.substring(1))]. *)
Definition pageNumberOf (request : Request) : option Z :=
  let pageNumberStr := pathname request in
  if String.eqb pageNumberStr "/" then Some 1
  else JS.parseInt (Some (JS.substringFrom 1 pageNumberStr)).

(** A page number that passes the test of [handleImageRequest]: finite and
    between 1 and the number of targets. *)
Definition validPageNumber (config : Config) (n : Z) : bool :=
  JS.isFinite (Some n) && (1 <=? n) && (n <=? Z.of_nat (length (pages config))).

(** A battery entry as [handleImageRequest] creates it. *)
Definition freshBattery : Battery := {| batteryLevel := None; isCharging := false |}.

(** The battery entry after a served request, with the events logged on the
    way.  [level] is the parsed [batteryLevel] parameter and [charging] the
    [isCharging] parameter; the entry is only touched when the level is a
    number between 0 and 100. *)
Definition updateBattery (pageNumber : Z) (level : option Z)
    (charging : option string) (pageBatteryStore : Battery)
  : Battery * list LogEvent :=
  match level with
  | Some l =>
      if (l >=? 0) && (l <=? 100) then
        let '(b1, l1) :=
          if negb (bool_decide (batteryLevel pageBatteryStore = Some l))
          then ({| batteryLevel := Some l;
                   isCharging := isCharging pageBatteryStore |},
                [LogNewBatteryLevel l pageNumber])
          else (pageBatteryStore, []) in
        if bool_decide (charging = Some "Yes" \/ charging = Some "1") &&
           negb (isCharging b1)
        then ({| batteryLevel := batteryLevel b1; isCharging := true |},
              l1 ++ [LogStartedCharging pageNumber])
        else if bool_decide (charging = Some "No" \/ charging = Some "0") &&
                isCharging b1
        then ({| batteryLevel := batteryLevel b1; isCharging := false |},
              l1 ++ [LogStoppedCharging pageNumber])
        else (b1, l1)
      else (pageBatteryStore, [])
  | None => (pageBatteryStore, [])
  end.

Section Program.

Variable config : Config.
(** [CONFIG_DIR], the working directory of the process, and
    [decodeURIComponent] ([None] when it throws [URIError]). *)
Variable CONFIG_DIR : string.
Variable cwd : string.
Variable decodeURIComponent : string -> option string.
(** [new URL(input, base)], as far as the program reads its result: the
    path name and the two query parameters; [None] when it throws (a target
    such as [//], which names no host, or a host header that is not a
    host). *)
Variable newURL : string -> string -> option Request.

(** *** [handleConfigFileRequest] *)

Definition decodeOrThrow (s : string) : M string :=
  match decodeURIComponent s with
  | Some d => mret d
  | None => mthrow {| code := None; message := "URI malformed" |}
  end.

Definition handleConfigFileRequest (pathname : string) : M Response :=
  tryCatch
    (requestedPath ← decodeOrThrow (JS.substringFrom 8 pathname);
     if JS.includes ".." requestedPath || JS.includes "\" requestedPath ||
        Path.isAbsolute requestedPath
     then
       log (LogBlockedSuspicious pathname);;
       mret (respond 403 "Forbidden: Invalid path")
     else
       let fullPath := Path.resolve cwd CONFIG_DIR requestedPath in
       let configDirResolved := Path.resolve1 cwd CONFIG_DIR in
       if negb (JS.startsWith (configDirResolved +:+ "/") fullPath) &&
          negb (String.eqb fullPath configDirResolved)
       then
         log (LogBlockedTraversal pathname);;
         mret (respond 403 "Forbidden: Path traversal detected")
       else
         stats ← stat fullPath;
         if negb (isFile stats) then mret (respond 404 "File not found")
         else
           data ← readFile fullPath;
           let ext := JS.toLowerCase (Path.extname fullPath) in
           let contentType := getContentType ext in
           log (LogConfigAccessed requestedPath);;
           mret {| status := 200;
                   headers := [ ("Content-Type", HText contentType);
                                ("Content-Length", HNumber (Z.of_nat (length data)));
                                ("Last-Modified", HDate (mtime stats));
                                ("Cache-Control", HText "public, max-age=300") ];
                   body := Data data |})
    (fun e =>
       if bool_decide (code e = Some "ENOENT")
       then log (LogConfigNotFound pathname);; mret (respond 404 "File not found")
       else log (LogConfigError pathname (message e));;
            mret (respond 500 "Internal server error")).

(** *** [handleImageRequest] *)

(** [batteryStore[pageIndex]], created on first use. *)
Definition pageBatteryEntry (pageIndex : nat) : M Battery := fun st =>
  match batteryStore st !! pageIndex with
  | Some b => (st, inr b)
  | None => (setBatteryStore (insert pageIndex freshBattery) st, inr freshBattery)
  end.

Definition storeBattery (pageIndex : nat) (b : Battery) : M unit :=
  modify (setBatteryStore (insert pageIndex b)).

Fixpoint logAll (evs : list LogEvent) : M unit :=
  match evs with
  | [] => mret tt
  | ev :: rest => log ev;; logAll rest
  end.

Definition lookupPage (pageIndex : nat) : M PageConfig :=
  match pages config !! pageIndex with
  | Some p => mret p
  | None => mthrow (typeError "Cannot read properties of undefined")
  end.

Definition handleImageRequest (request : Request) : M Response :=
  let level := JS.parseInt (queryBatteryLevel request) in
  let charging := queryIsCharging request in
  let pageNumber := pageNumberOf request in
  match pageNumber with
  | Some n =>
      if negb (JS.isFinite pageNumber) ||
         (n >? Z.of_nat (length (pages config))) || (n <? 1)
      then
        log (LogInvalidRequest pageNumber);;
        mret (respond 400 "Invalid request")
      else
        tryCatch
          (log (LogImageAccessed n);;
           let pageIndex := Z.to_nat (n - 1) in
           configPage ← lookupPage pageIndex;
           let outputPathWithExtension :=
             outputPath configPage +:+ "." +:+ imageFormat configPage in
           data ← readFile outputPathWithExtension;
           stats ← stat outputPathWithExtension;
           let response :=
             {| status := 200;
                headers := [ ("Content-Type", HText ("image/" +:+ imageFormat configPage));
                             ("Content-Length", HNumber (Z.of_nat (length data)));
                             ("Last-Modified", HDate (mtime stats)) ];
                body := Data data |} in
           pageBatteryStore ← pageBatteryEntry pageIndex;
           let '(updated, events) :=
             updateBattery n level charging pageBatteryStore in
           storeBattery pageIndex updated;;
           logAll events;;
           mret response)
          (fun e =>
             log (LogError (message e));;
             mret (respond 404 "Image not found"))
  | None =>
      log (LogInvalidRequest pageNumber);;
      mret (respond 400 "Invalid request")
  end.

(** The request listener of [http.createServer], from its second statement
    on: the URL of the request has been parsed. *)
Definition httpServer (request : Request) : M Response :=
  if JS.startsWith "/config/" (pathname request)
  then handleConfigFileRequest (pathname request)
  else handleImageRequest request.

(** The whole listener, from the request as it arrives: its target
    [request.url] and its host header ([undefined] when there is none).
    The URL is parsed outside any [try]: when [new URL] throws, the
    exception leaves the listener and no response is written. *)
Definition requestListener (url : string) (host : option string) : M Response :=
  match newURL url ("http://" +:+ default "undefined" host) with
  | Some request => httpServer request
  | None => mthrow invalidURL
  end.

End Program.

(** The value of the [isCharging] parameter, when it is one the program
    knows. *)
Definition chargingFlag (charging : option string) : option bool :=
  if bool_decide (charging = Some "Yes" \/ charging = Some "1") then Some true
  else if bool_decide (charging = Some "No" \/ charging = Some "0") then Some false
  else None.

(** A battery level that is unknown or between 0 and 100. *)
Definition levelInRange (b : Battery) : Prop :=
  match batteryLevel b with
  | None => True
  | Some l => 0 <= l <= 100
  end.

(** A level parameter that [handleImageRequest] accepts. *)
Definition validLevel (level : option Z) : bool :=
  match level with
  | Some l => (0 <=? l) && (l <=? 100)
  | None => false
  end.

(** The events logged for a change from [old] to level [l] and flag [c]. *)
Definition changeEvents (pageNumber : Z) (old : Battery) (l : Z) (c : bool)
  : list LogEvent :=
  (if bool_decide (batteryLevel old = Some l) then []
   else [LogNewBatteryLevel l pageNumber]) ++
  (if Bool.eqb (isCharging old) c then []
   else [if c then LogStartedCharging pageNumber else LogStoppedCharging pageNumber]).

(** ** The render cycle *)

Definition outputPathOf (pageConfig : PageConfig) : string :=
  outputPath pageConfig +:+ "." +:+ imageFormat pageConfig.

Definition tempPathOf (pageConfig : PageConfig) : string :=
  outputPathOf pageConfig +:+ ".temp".

Section Render.

Variable config : Config.
Variable w : World.

(** *** [renderUrlToImageAsync]

    [pageIndex] is not an argument of the JavaScript function; it tells
    the world which target the calls belong to. *)

(** [page.screenshot({ path, clip })]: the browser takes the picture and
    writes it to [path]. *)
Definition screenshot (pageIndex : nat) (path : string) (clip : Clip) : M unit :=
  call w pageIndex (Screenshot path clip);;
  modify (writeFile path (screenshotData w pageIndex clip)).

(** The body of the [try] block after [browser.newPage()]. *)
Definition captureSequence (pageIndex : nat) (pageConfig : PageConfig)
    (url path : string) : M unit :=
  (if debug config then log (LogInfo "[DEBUG] Browser viewport, timezone, language")
   else mret tt);;
  call w pageIndex (EmulateTimezone (timezone config));;
  call w pageIndex (EmulateMediaFeatures (prefersColorScheme pageConfig));;
  let size := viewportSize pageConfig in
  call w pageIndex (SetViewport size);;
  log (LogInfo "Navigating...");;
  call w pageIndex (Goto url);;
  log (LogInfo "Waiting for home-assistant element...");;
  call w pageIndex (WaitForSelector "home-assistant");;
  (if debug config
   then call w pageIndex Evaluate;; log (LogInfo "[DEBUG] Page info")
   else mret tt);;
  call w pageIndex (AddStyleTag (scaling pageConfig * 100)%Q);;
  (if renderingDelay pageConfig >? 0
   then log (LogInfo "Waiting before screenshot...");;
        modify (addCall (Sleep (renderingDelay pageConfig)))
   else mret tt);;
  log (LogInfo "Taking screenshot...");;
  screenshot pageIndex path (screenshotClip size);;
  log (LogInfo "Successfully rendered screenshot").

(** [try { page = await browser.newPage(); ... } catch (e) { log }
    finally { if (config.debug === false && page) close the page }].
    [page] stays undefined exactly when [newPage] throws. *)
Definition renderUrlToImageAsync (pageIndex : nat) (pageConfig : PageConfig)
    (url path : string) : M unit :=
  fun st =>
    match call w pageIndex NewPage st with
    | (st1, inl e) => log (LogFailedToRender url (message e)) st1
    | (st1, inr _) =>
        (tryCatch (captureSequence pageIndex pageConfig url path)
                  (fun e => log (LogFailedToRender url (message e)));;
         if debug config then mret tt
         else tryCatch (call w pageIndex ClosePage)
                       (fun closeErr => log (LogCouldNotClosePage url (message closeErr))))
          st1
    end.

(** *** [convertImageToKindleCompatiblePngAsync]

    [toFile] reads the input, runs the recorded operations and writes the
    output; when the library fails nothing is written. *)
Definition convertImageToKindleCompatiblePngAsync (pageIndex : nat)
    (pageConfig : PageConfig) (inputPath outputPath : string) : M unit :=
  fun st =>
    match fs st !! inputPath with
    | Some (File input _) =>
        match sharpRun w pageIndex (convertPipeline pageConfig) input with
        | inr output => (writeFile outputPath output st, inr tt)
        | inl e => (st, inl e)
        end
    | _ => (st, inl {| code := None; message := "Input file is missing" |})
    end.

(** *** [sendBatteryLevelToHomeAssistant]: the POST is started and not
    waited for. *)
Definition sendBatteryLevelToHomeAssistant
    (pageIndex : nat) (pageBatteryStore : Battery) (batteryWebHook : string) : M unit :=
  let url := baseUrl config +:+ "/api/webhook/" +:+ batteryWebHook in
  modify (addCall (PostWebhook url pageIndex pageBatteryStore)).

(** *** [renderAndConvertAsync] *)

(** The last statement of the loop body, the relay of the battery state.
    [const pageBatteryStore = batteryStore[pageIndex]], at the head of the
    iteration, takes the entry itself, not a copy of it, and [undefined]
    when there is none yet.  [hasEntry] tells which; the entry is read here,
    as it is when the test is made, and serialised at once. *)
Definition relayBattery (hasEntry : bool) (pageIndex : nat) (pageConfig : PageConfig)
    : M unit :=
  now ← getState;
  let pageBatteryStore := if hasEntry then batteryStore now !! pageIndex else None in
  match pageBatteryStore, batteryWebHook pageConfig with
  | Some battery, Some hook =>
      if bool_decide (batteryLevel battery <> None) && negb (String.eqb hook EmptyString)
      then sendBatteryLevelToHomeAssistant pageIndex battery hook
      else mret tt
  | _, _ => mret tt
  end.

(** One iteration of the loop over [config.pages]. *)
Definition renderPage (pageIndex : nat) (pageConfig : PageConfig) : M unit :=
  st0 ← getState;
  let hasEntry := bool_decide (is_Some (batteryStore st0 !! pageIndex)) in
  let url := baseUrl config +:+ screenShotUrl pageConfig in
  let outputPath := outputPath pageConfig +:+ "." +:+ imageFormat pageConfig in
  call w pageIndex (EnsureDir (Path.dirname outputPath));;
  let tempPath := outputPath +:+ ".temp" in
  log (LogRendering url);;
  renderUrlToImageAsync pageIndex pageConfig url tempPath;;
  tryCatch
    (access tempPath;;
     log (LogConverting url);;
     convertImageToKindleCompatiblePngAsync pageIndex pageConfig tempPath outputPath;;
     notAwaited (unlink tempPath);;
     log (LogFinished url))
    (fun e =>
       log (LogFailedFor url (message e));;
       tryCatch (unlink tempPath) (fun unlinkError => mret tt));;
  relayBattery hasEntry pageIndex pageConfig.

Fixpoint renderPages (pageIndex : nat) (ps : list PageConfig) : M unit :=
  match ps with
  | [] => mret tt
  | pageConfig :: rest =>
      renderPage pageIndex pageConfig;;
      renderPages (S pageIndex) rest
  end.

(** [launchBrowserAndLogin] inside the running program: the login of
    [Login], its calls and its output added to the state.  [launchFault] is
    the exception it throws, if it throws. *)
Definition launchBrowserAndLogin : M unit := fun st =>
  let '(session, result) :=
    Login.launchBrowserAndLogin config (loginFaults w) Login.start in
  (addLogin session st, result).

Definition launchFault : option Exn :=
  match (Login.launchBrowserAndLogin config (loginFaults w) Login.start).2 with
  | inl e => Some e
  | inr _ => None
  end.

(** The [finally] block: a browser launched by this cycle is closed. *)
Definition closeOwnBrowser : M unit :=
  tryCatch
    (match closeBrowserFault w with
     | Some e => mthrow e
     | None => modify (addCall CloseBrowser)
     end)
    (fun _ => mret tt);;
  modify (addCall KillBrowser);;
  modify (addCall (Sleep 1000)).

Definition renderAndConvertAsync (existingBrowser : bool) : M unit :=
  (if existingBrowser then mret tt else launchBrowserAndLogin);;
  tryFinally (renderPages 0 (pages config))
             (if existingBrowser then mret tt else closeOwnBrowser).

(** The browser calls of the capture sequence of one target, in order (the
    settle delay is a timer and cannot throw). *)
Definition captureCalls (pageConfig : PageConfig) (url path : string) : list Call :=
  [NewPage; EmulateTimezone (timezone config);
   EmulateMediaFeatures (prefersColorScheme pageConfig);
   SetViewport (viewportSize pageConfig); Goto url;
   WaitForSelector "home-assistant"] ++
  (if debug config then [Evaluate] else []) ++
  [AddStyleTag (scaling pageConfig * 100)%Q;
   Screenshot path (screenshotClip (viewportSize pageConfig))].

(** Whether a call throws while target [pageIndex] is rendered. *)
Definition throws (pageIndex : nat) (c : Call) : bool :=
  match callFault w pageIndex c with Some _ => true | None => false end.

(** Whether the capture of target [pageIndex] throws somewhere. *)
Definition captureThrows (pageIndex : nat) (pageConfig : PageConfig) : bool :=
  existsb (throws pageIndex)
    (captureCalls pageConfig (baseUrl config +:+ screenShotUrl pageConfig)
                  (tempPathOf pageConfig)).

(** The screenshot the browser takes of target [pageIndex]. *)
Definition capturedData (pageIndex : nat) (pageConfig : PageConfig) : bytes :=
  screenshotData w pageIndex (screenshotClip (viewportSize pageConfig)).

(** What the image library makes of that screenshot. *)
Definition converted (pageIndex : nat) (pageConfig : PageConfig) : Exn + bytes :=
  sharpRun w pageIndex (convertPipeline pageConfig) (capturedData pageIndex pageConfig).

End Render.

(** *** The render cycle seen from the disk

    The paths a cycle may write, the conditions under which the loop itself
    is not interrupted, and the effect of one iteration on the files as a
    function (shown below to be what [renderPage] does). *)

Definition touchedPaths (ps : list PageConfig) : list string :=
  map outputPathOf ps ++ map tempPathOf ps.

(** The output directories can be created. *)
Definition ensureDirSucceeds (w : World) : Prop :=
  forall i dir, callFault w i (EnsureDir dir) = None.

(** The cycle has a browser: it was handed one, or the login returns
    one. *)
Definition cycleStarts (config : Config) (w : World) (existingBrowser : bool) : Prop :=
  existingBrowser = true \/ launchFault config w = None.

Definition renderPageFs (config : Config) (w : World) (pageIndex : nat)
    (pageConfig : PageConfig) (now : Z) (files : gmap string Node)
  : gmap string Node :=
  let tempPath := tempPathOf pageConfig in
  let afterCapture :=
    if captureThrows config w pageIndex pageConfig then files
    else <[tempPath := File (capturedData w pageIndex pageConfig) now]> files in
  match afterCapture !! tempPath with
  | Some (File input _) =>
      match sharpRun w pageIndex (convertPipeline pageConfig) input with
      | inr output =>
          delete tempPath (<[outputPathOf pageConfig := File output now]> afterCapture)
      | inl _ => delete tempPath afterCapture
      end
  | _ => afterCapture
  end.

Fixpoint renderPagesFs (config : Config) (w : World) (pageIndex : nat)
    (ps : list PageConfig) (now : Z) (files : gmap string Node)
  : gmap string Node :=
  match ps with
  | [] => files
  | pageConfig :: rest =>
      renderPagesFs config w (S pageIndex) rest now
        (renderPageFs config w pageIndex pageConfig now files)
  end.

(** ** The running service: requests and render cycles, one after another

    A step is a whole request, a whole cycle or the passing of time.  The
    program can also serve a request between two [await]s of a cycle: such
    a request sees the files as the cycle has left them so far, where a
    step shows it the files before or after the cycle.  The only state a
    cycle reads that a request writes is the battery entry it relays, and
    [relayBattery] reads it when the post is made. *)

Inductive Action :=
| Get (request : Request)
| Cycle (w : World) (existingBrowser : bool)
| Tick (now : Z).

Section Service.

Variable config : Config.
Variable CONFIG_DIR : string.
Variable cwd : string.
Variable decodeURIComponent : string -> option string.

Definition step (st : State) (a : Action) : State :=
  match a with
  | Get request =>
      fst (httpServer config CONFIG_DIR cwd decodeURIComponent request st)
  | Cycle w existingBrowser =>
      fst (renderAndConvertAsync config w existingBrowser st)
  | Tick now =>
      {| fs := fs st; batteryStore := batteryStore st; console := console st;
         calls := calls st; clock := now |}
  end.

Definition run (st : State) (actions : list Action) : State :=
  fold_left step actions st.

End Service.

(** The state of a freshly started process on a disk holding [files]. *)
Definition initialState (files : gmap string Node) (now : Z) : State :=
  {| fs := files; batteryStore := ∅; console := []; calls := []; clock := now |}.

(** ** The targets read from the environment ([getPagesConfig])

    The environment is a finite map from names to strings; [Number] is the
    builtin conversion, applied to a string or to [undefined], and is left
    open.  The numeric fields are kept as [Number] returns them;
    [PageConfig] above is the case where they are finite, and integers
    where the program uses them as such ([toPageConfig]). *)

(** [x || d] for a string [x] that may be [undefined]. *)
Definition orString (x : option string) (d : string) : string :=
  match x with
  | Some s => if String.eqb s EmptyString then d else s
  | None => d
  end.

(** [x || d] for a number [x]: both zeros and [NaN] are falsy. *)
Definition orNumber (x : Num) (d : Q) : Num :=
  match x with
  | Fin q => if Qeq_bool q 0 then Fin d else Fin q
  | NegZero => Fin d
  | NaN => Fin d
  | PosInf => PosInf
  | NegInf => NegInf
  end.

Record RawPageConfig := {
  raw_screenShotUrl : string;
  raw_imageFormat : string;
  raw_outputPath : option string;
  raw_renderingDelay : Num;
  raw_height : Num;
  raw_width : Num;
  raw_grayscaleDepth : Num;
  raw_removeGamma : bool;
  raw_blackLevel : string;
  raw_whiteLevel : string;
  raw_dither : bool;
  raw_colorMode : string;
  raw_prefersColorScheme : string;
  raw_rotation : Num;
  raw_scaling : Num;
  raw_batteryWebHook : option string;
  raw_saturation : Num;
  raw_contrast : Num
}.

(** [i === 1 ? "" : `_${i}`]. *)
Definition pageSuffix (i : nat) : string :=
  if (i =? 1)%nat then EmptyString else "_" +:+ pretty i.

(** [process.env[`HA_SCREENSHOT_URL${suffix}`]] for the [i]-th target, when
    it is truthy: set and not empty. *)
Definition screenShotUrlAt (env : gmap string string) (i : nat) : option string :=
  match env !! ("HA_SCREENSHOT_URL" +:+ pageSuffix i) with
  | Some url => if String.eqb url EmptyString then None else Some url
  | None => None
  end.

Section Pages.

Variable Number : option string -> Num.
Variable env : gmap string string.

(** The object pushed for one target. *)
Definition pageOf (screenShotUrl suffix : string) : RawPageConfig :=
  {| raw_screenShotUrl := screenShotUrl;
     raw_imageFormat := configuredImageFormat env suffix;
     raw_outputPath :=
       getEnvironmentVariable env "OUTPUT_PATH" suffix (Some ("output/cover" +:+ suffix));
     raw_renderingDelay :=
       orNumber (Number (getEnvironmentVariable env "RENDERING_DELAY" suffix None)) 0;
     raw_height :=
       orNumber (Number (getEnvironmentVariable env "RENDERING_SCREEN_HEIGHT" suffix None))
                800;
     raw_width :=
       orNumber (Number (getEnvironmentVariable env "RENDERING_SCREEN_WIDTH" suffix None))
                600;
     raw_grayscaleDepth :=
       orNumber (Number (getEnvironmentVariable env "GRAYSCALE_DEPTH" suffix None)) 8;
     raw_removeGamma :=
       bool_decide (getEnvironmentVariable env "REMOVE_GAMMA" suffix None = Some "true");
     raw_blackLevel :=
       orString (getEnvironmentVariable env "BLACK_LEVEL" suffix None) "0%";
     raw_whiteLevel :=
       orString (getEnvironmentVariable env "WHITE_LEVEL" suffix None) "100%";
     raw_dither :=
       bool_decide (getEnvironmentVariable env "DITHER" suffix None = Some "true");
     raw_colorMode :=
       orString (getEnvironmentVariable env "COLOR_MODE" suffix None) "GrayScale";
     raw_prefersColorScheme :=
       orString (getEnvironmentVariable env "PREFERS_COLOR_SCHEME" suffix None) "light";
     raw_rotation :=
       orNumber (Number (getEnvironmentVariable env "ROTATION" suffix None)) 0;
     raw_scaling :=
       orNumber (Number (getEnvironmentVariable env "SCALING" suffix None)) 1;
     raw_batteryWebHook :=
       match getEnvironmentVariable env "HA_BATTERY_WEBHOOK" suffix None with
       | Some hook => if String.eqb hook EmptyString then None else Some hook
       | None => None
       end;
     raw_saturation :=
       orNumber (Number (getEnvironmentVariable env "SATURATION" suffix None)) 1;
     raw_contrast :=
       orNumber (Number (getEnvironmentVariable env "CONTRAST" suffix None)) 1 |}.

(** The loop [while (++i)], entered with the counter at [i]: it returns at
    the first index whose URL is not truthy.  [fuel] bounds the number of
    iterations. *)
Fixpoint pagesFrom (fuel i : nat) : list RawPageConfig :=
  match fuel with
  | O => []
  | S fuel' =>
      match screenShotUrlAt env i with
      | Some screenShotUrl =>
          pageOf screenShotUrl (pageSuffix i) :: pagesFrom fuel' (S i)
      | None => []
      end
  end.

(** [getPagesConfig()].  Every iteration that does not return has found a
    variable of its own in the environment, so the loop returns within
    [size env + 1] iterations. *)
Definition getPagesConfig : list RawPageConfig := pagesFrom (S (size env)) 1.

End Pages.

(** A number that is finite, and one that is a finite integer. *)
Definition numberQ (x : Num) : option Q := numValue x.

Definition numberZ (x : Num) : option Z :=
  match numValue x with
  | Some q => if (Qden (Qred q) =? 1)%positive then Some (Qnum (Qred q)) else None
  | None => None
  end.

(** The target as the rest of the program is modelled on it. *)
Definition toPageConfig (r : RawPageConfig) : option PageConfig :=
  match raw_outputPath r, numberZ (raw_renderingDelay r), numberZ (raw_height r),
        numberZ (raw_width r), numberZ (raw_grayscaleDepth r),
        numberZ (raw_rotation r), numberQ (raw_scaling r),
        numberQ (raw_saturation r), numberQ (raw_contrast r) with
  | Some output, Some delay, Some h, Some w, Some depth, Some rot,
    Some scale, Some sat, Some con =>
      Some {| screenShotUrl := raw_screenShotUrl r;
              imageFormat := raw_imageFormat r;
              outputPath := output;
              renderingDelay := delay;
              renderingScreenSize := {| width := w; height := h |};
              grayscaleDepth := depth;
              removeGamma := raw_removeGamma r;
              blackLevel := raw_blackLevel r;
              whiteLevel := raw_whiteLevel r;
              dither := raw_dither r;
              colorMode := raw_colorMode r;
              prefersColorScheme := raw_prefersColorScheme r;
              rotation := rot;
              scaling := scale;
              batteryWebHook := raw_batteryWebHook r;
              saturation := sat;
              contrast := con |}
  | _, _, _, _, _, _, _, _, _ => None
  end.

(** [config.pages] on the types of the model, when every target can be
    represented. *)
Definition configuredPages (Number : option string -> Num) (env : gmap string string)
  : option (list PageConfig) :=
  mapM toPageConfig (getPagesConfig Number env).

(** A string without a dot. *)
Fixpoint dotFree (s : string) : bool :=
  match s with
  | EmptyString => true
  | String c r => negb (Ascii.eqb c ".") && dotFree r
  end.

(** ** Sample configurations, used in the examples below *)

(** A target with the defaults of [getPagesConfig], except for the fields
    given. *)
Definition samplePage (url format output : string) (rot depth : Z)
    (black white : string) (c : Q) : PageConfig :=
  {| screenShotUrl := url; imageFormat := format; outputPath := output;
     renderingDelay := 0;
     renderingScreenSize := {| width := 600; height := 800 |};
     grayscaleDepth := depth; removeGamma := false;
     blackLevel := black; whiteLevel := white; dither := false;
     colorMode := "GrayScale"; prefersColorScheme := "light";
     rotation := rot; scaling := 1; batteryWebHook := None;
     saturation := 1; contrast := c |}.

Definition defaultPage (url output : string) : PageConfig :=
  samplePage url "png" output 0 8 "0%" "100%" 1.

Definition sampleConfig (ps : list PageConfig) : Config :=
  {| baseUrl := "http://ha:8123"; cronJob := "* * * * *"; pages := ps;
     port := 5000; language := "en"; timezone := "Europe/Berlin"; debug := false |}.

Definition oneTarget : Config :=
  sampleConfig [defaultPage "/lovelace/0" "output/cover"].

(** [GET /1?batteryLevel=42&isCharging=Yes]. *)
Definition telemetryRequest : Request :=
  {| pathname := "/1"; queryBatteryLevel := Some "42"; queryIsCharging := Some "Yes" |}.

(** A disk on which the artifact of [oneTarget] has been rendered. *)
Definition renderedDisk : gmap string Node :=
  {[ "output/cover.png" := File (String.list_byte_of_string "PNG") 1700000000 ]}.

(** A configuration directory holding a text file and a file with two dots
    in its name. *)
Definition configDisk : gmap string Node :=
  {[ "/app/kindle-config/readme.txt" := File (String.list_byte_of_string "hello") 1700000000;
     "/app/kindle-config/notes..txt" := File (String.list_byte_of_string "notes") 1700000000 ]}.

(** A stand-in for [new URL] on two targets: [//] names no host and is
    refused, [/1] is a path. *)
Definition sampleURL (url base : string) : option Request :=
  if String.eqb url "/1"
  then Some {| pathname := "/1"; queryBatteryLevel := None; queryIsCharging := None |}
  else None.

(** A stand-in for [decodeURIComponent] on paths without escapes. *)
Definition plainDecode (s : string) : option string :=
  if JS.includes "%" s then None else Some s.

(** Three targets with separate output paths. *)
Definition threeTargets : Config :=
  sampleConfig [ defaultPage "/lovelace/a" "output/a";
                 defaultPage "/lovelace/b" "output/b";
                 defaultPage "/lovelace/c" "output/c" ].

(** A disk holding an earlier artifact of each of the three targets. *)
Definition earlierDisk : gmap string Node :=
  {[ "output/a.png" := File (String.list_byte_of_string "old-a") 1700000000;
     "output/b.png" := File (String.list_byte_of_string "old-b") 1700000000;
     "output/c.png" := File (String.list_byte_of_string "old-c") 1700000000 ]}.

Definition navigationTimeout : Exn :=
  {| code := None; message := "Navigation timeout of 10000 ms exceeded" |}.

(** A world in which the navigation of the target at position [failing]
    times out; every other call returns, the screenshot of target [i] is the
    single byte [i] and the image library returns its input unchanged. *)
Definition flakyWorld (failing : nat) : World :=
  {| loginFaults := fun _ => None;
     callFault := fun i c =>
       match c with
       | Goto _ => if (i =? failing)%nat then Some navigationTimeout else None
       | _ => None
       end;
     screenshotData := fun i _ => [default Byte.x00 (Byte.of_nat i)];
     sharpRun := fun _ _ input => inr input;
     closeBrowserFault := None |}.

(** A disk on which a temporary file of [oneTarget] was left behind next to
    its artifact. *)
Definition leftoverDisk : gmap string Node :=
  {[ "output/cover.png" := File (String.list_byte_of_string "old") 1700000000;
     "output/cover.png.temp" := File (String.list_byte_of_string "stale") 1700000000 ]}.

(** A world in which nothing fails: the browser returns [shot] and the image
    library returns its input twice over. *)
Definition calmWorld (shot : bytes) : World :=
  {| loginFaults := fun _ => None;
     callFault := fun _ _ => None;
     screenshotData := fun _ _ => shot;
     sharpRun := fun _ ops input => inr (input ++ input);
     closeBrowserFault := None |}.

Definition permissionDenied : Exn :=
  {| code := Some "EACCES"; message := "EACCES: permission denied, mkdir" |}.

(** A world in which the output directory of the target at position
    [failing] cannot be created; nothing else fails. *)
Definition readOnlyDirWorld (failing : nat) : World :=
  {| loginFaults := fun _ => None;
     callFault := fun i c =>
       match c with
       | EnsureDir _ => if (i =? failing)%nat then Some permissionDenied else None
       | _ => None
       end;
     screenshotData := fun i _ => [default Byte.x00 (Byte.of_nat i)];
     sharpRun := fun _ _ input => inr input;
     closeBrowserFault := None |}.

(** A target that relays the battery state to the webhook [hook]. *)
Definition withWebHook (hook : string) (pc : PageConfig) : PageConfig :=
  {| screenShotUrl := screenShotUrl pc; imageFormat := imageFormat pc;
     outputPath := outputPath pc; renderingDelay := renderingDelay pc;
     renderingScreenSize := renderingScreenSize pc;
     grayscaleDepth := grayscaleDepth pc; removeGamma := removeGamma pc;
     blackLevel := blackLevel pc; whiteLevel := whiteLevel pc; dither := dither pc;
     colorMode := colorMode pc; prefersColorScheme := prefersColorScheme pc;
     rotation := rotation pc; scaling := scaling pc; batteryWebHook := Some hook;
     saturation := saturation pc; contrast := contrast pc |}.

(** Two targets with a webhook and one without. *)
Definition hookTargets : Config :=
  sampleConfig [ withWebHook "kindle-a" (defaultPage "/lovelace/a" "output/a");
                 defaultPage "/lovelace/b" "output/b";
                 withWebHook "kindle-c" (defaultPage "/lovelace/c" "output/c") ].

(** A state in which the first and the second device have reported a
    level, and the third has not. *)
Definition reportedState : State :=
  {| fs := earlierDisk;
     batteryStore := {[ 0%nat := {| batteryLevel := Some 80; isCharging := false |};
                        1%nat := {| batteryLevel := Some 55; isCharging := true |};
                        2%nat := {| batteryLevel := None; isCharging := false |} ]};
     console := []; calls := []; clock := 1700000100 |}.

(** A stand-in for [Number] on the strings of the sample environments:
    unsigned decimal integers, the empty string (0) and [undefined]
    ([NaN]). *)
Definition decimalNumber (x : option string) : Num :=
  match x with
  | None => NaN
  | Some s =>
      if forallb (fun c => (48 <=? nat_of_ascii c)%nat && (nat_of_ascii c <=? 57)%nat)
                 (String.list_ascii_of_string s)
      then Fin (inject_Z (default 0 (JS.digitsPrefix 10 s None)))
      else NaN
  end.

(** Two targets, a third one hidden behind a gap, and a global output path
    and image format. *)
Definition sampleEnv : gmap string string :=
  {[ "HA_SCREENSHOT_URL" := "/lovelace/a";
     "HA_SCREENSHOT_URL_2" := "/lovelace/b";
     "HA_SCREENSHOT_URL_4" := "/lovelace/d";
     "OUTPUT_PATH" := "/data/cover";
     "IMAGE_FORMAT" := "jpeg";
     "CONTRAST" := "0";
     "ROTATION_2" := "90" ]}.

(** ** Notions used to state the properties *)

(** What a computation leaves alone.

    [keeps R m]: the state after [m] is related by [R] to the state before,
    however [m] ends. *)

Definition keeps {A} (R : State -> State -> Prop) (m : M A) : Prop :=
  forall st, R st (m st).1.

(** The battery store is the same in both states. *)
Definition sameBattery (st st' : State) : Prop := batteryStore st' = batteryStore st.

(** Every entry holds an unknown level or one between 0 and 100. *)
Definition storeInRange (st : State) : Prop :=
  forall k b, batteryStore st !! k = Some b -> levelInRange b.

(** A computation that touches neither the files, nor the battery store,
    nor the clock, and returns. *)
Definition silent (m : M unit) : Prop :=
  forall st, exists st',
    m st = (st', inr tt) /\ fs st' = fs st /\
    batteryStore st' = batteryStore st /\ clock st' = clock st.

(** [m] makes the calls [cs] in order while target [i] is rendered and
    stops at the first that throws; when none does, it has written [write]
    (if any) and returns. *)
Definition sequenceOf (w : World) (i : nat) (cs : list Call)
    (write : option (string * bytes)) (m : M unit) : Prop :=
  forall st, exists st',
    batteryStore st' = batteryStore st /\ clock st' = clock st /\
    if existsb (throws w i) cs
    then (exists e, m st = (st', inl e)) /\ fs st' = fs st
    else m st = (st', inr tt) /\
         fs st' = match write with
                  | Some (p, d) => <[p := File d (clock st)]> (fs st)
                  | None => fs st
                  end.

(** The files, the recorded calls and the clock are the same in both
    states. *)
Definition sameDisk (st st' : State) : Prop :=
  fs st' = fs st /\ calls st' = calls st /\ clock st' = clock st.

(** *** The level arithmetic on levels that have been read *)

(** The double of a level that reads [z]; [negative] tells whether a minus
    sign precedes the digits. *)
Definition percentDouble (negative : bool) (z : Z) : spec_float :=
  if z =? 0 then S754_zero negative else Double.ofZ z.

(** [levelLinear] past the comparison of the strings with the defaults, as
    a function of the two numbers [parseInt] returns. *)
Definition levelOf (black white : spec_float) : option (Num * Num) :=
  let blackLevel := Double.div black (Double.ofZ 100) in
  let whiteLevel := Double.div white (Double.ofZ 100) in
  if Double.ltb Double.zero blackLevel || Double.ltb whiteLevel Double.one
  then
    let inputMin := levelInput blackLevel in
    let inputMax := levelInput whiteLevel in
    let multiplier := levelMultiplier inputMin inputMax in
    let offset := levelOffset inputMin multiplier in
    Some (numOfDouble multiplier, numOfDouble offset)
  else None.

(** The levels from 0 to 100 per cent, and the doubles a level that reads
    [z] can be: one, or the two zeros. *)
Definition percents : list Z := map Z.of_nat (seq 0 101).

Definition doublesOf (z : Z) : list spec_float :=
  if z =? 0 then [S754_zero false; S754_zero true] else [Double.ofZ z].

Definition isNegativeZero (x : spec_float) : bool :=
  match x with S754_zero true => true | _ => false end.

(** [f] holds of every pair of levels from 0 to 100. *)
Definition forallPercents (f : spec_float -> spec_float -> Z -> Z -> bool) : bool :=
  forallb (fun black =>
    forallb (fun white =>
      forallb (fun b => forallb (fun w => f b w black white) (doublesOf white))
              (doublesOf black)) percents) percents.




(** Equal levels record an infinite multiplier, negative exactly when the
    white level is [-0] and the black level [0]. *)
Definition flatChecked (b w : spec_float) (black white : Z) : bool :=
  if black =? white then
    match levelOf b w with
    | Some (PosInf, _) => negb (isNegativeZero w && negb (isNegativeZero b))
    | Some (NegInf, _) => isNegativeZero w && negb (isNegativeZero b)
    | _ => false
    end
  else true.

(** A black level above the white level records a negative multiplier. *)
Definition invertedChecked (b w : spec_float) (black white : Z) : bool :=
  if white <? black then
    match levelOf b w with
    | Some (a, _) =>
        match numValue a with
        | Some m => negb (Qle_bool 0 m)
        | None => false
        end
    | None => false
    end
  else true.

(** A black level that is [NaN] next to a white level below 100. *)
Definition unreadChecked (b w : spec_float) (black white : Z) : bool :=
  if (black =? 0) && (white <? 100) then
    match levelOf S754_nan w with
    | Some (NaN, NaN) => true
    | _ => false
    end
  else true.

(** The calls made from [st] to [st'] close no page. *)
Definition closesNoPage (st st' : State) : Prop :=
  exists added, calls st' = calls st ++ added /\ ClosePage ∉ added.

(** *** Aborted cycles and the webhook relay

    The first target whose output directory cannot be created ends the loop
    ([ensureDir] is called outside the [try] block); the targets before it
    are the ones the cycle renders. *)

Definition dirFault (w : World) (pageIndex : nat) (pageConfig : PageConfig) : option Exn :=
  callFault w pageIndex (EnsureDir (Path.dirname (outputPathOf pageConfig))).

Fixpoint firstDirFault (w : World) (pageIndex : nat) (ps : list PageConfig) : option Exn :=
  match ps with
  | [] => None
  | pageConfig :: rest =>
      match dirFault w pageIndex pageConfig with
      | Some e => Some e
      | None => firstDirFault w (S pageIndex) rest
      end
  end.

Fixpoint renderedPrefix (w : World) (pageIndex : nat) (ps : list PageConfig)
  : list PageConfig :=
  match ps with
  | [] => []
  | pageConfig :: rest =>
      match dirFault w pageIndex pageConfig with
      | Some _ => []
      | None => pageConfig :: renderedPrefix w (S pageIndex) rest
      end
  end.

(** The webhook posts among the recorded calls. *)
Definition isPost (c : Call) : bool :=
  match c with PostWebhook _ _ _ => true | _ => false end.

Definition posts (st : State) : list Call := List.filter isPost (calls st).

Definition samePosts (st st' : State) : Prop := posts st' = posts st.

(** The post one iteration makes for its target, read off the battery
    store: one when a level is known and a webhook is configured. *)
Definition relayOf (config : Config) (store : gmap nat Battery) (pageIndex : nat)
    (pageConfig : PageConfig) : list Call :=
  match store !! pageIndex, batteryWebHook pageConfig with
  | Some battery, Some hook =>
      if bool_decide (batteryLevel battery <> None) && negb (String.eqb hook EmptyString)
      then [PostWebhook (baseUrl config +:+ "/api/webhook/" +:+ hook) pageIndex battery]
      else []
  | _, _ => []
  end.

Fixpoint relaysOf (config : Config) (store : gmap nat Battery) (pageIndex : nat)
    (ps : list PageConfig) : list Call :=
  match ps with
  | [] => []
  | pageConfig :: rest =>
      relayOf config store pageIndex pageConfig ++
      relaysOf config store (S pageIndex) rest
  end.

(** ** Properties *)

(** *** The primitives on known inputs *)

Example parseInt_digits_then_text : JS.parseInt (Some "42abc") = Some 42.
Proof. reflexivity. Qed.

Example parseInt_percent : JS.parseInt (Some "30%") = Some 30.
Proof. reflexivity. Qed.

Example parseInt_negative : JS.parseInt (Some " -7") = Some (-7).
Proof. reflexivity. Qed.

Example parseInt_hexadecimal : JS.parseInt (Some "0x1f") = Some 31.
Proof. reflexivity. Qed.

Example parseInt_text : JS.parseInt (Some "etc/passwd") = None.
Proof. reflexivity. Qed.

Example parseInt_null : JS.parseInt None = None.
Proof. reflexivity. Qed.

(** [parseInt("\u00a055")], as it comes from [batteryLevel=%C2%A055], and
    the same after an ideographic space, a byte order mark and a tab; a
    first byte of such a sequence alone is not white space. *)
Example parseInt_no_break_space :
  let nbsp := String (ascii_of_nat 194) (String (ascii_of_nat 160) EmptyString) in
  let ideographic :=
    String (ascii_of_nat 227) (String (ascii_of_nat 128)
      (String (ascii_of_nat 128) EmptyString)) in
  let bom :=
    String (ascii_of_nat 239) (String (ascii_of_nat 187)
      (String (ascii_of_nat 191) EmptyString)) in
  let tab := String (ascii_of_nat 9) EmptyString in
  JS.parseInt (Some (nbsp +:+ "55")) = Some 55 /\
  JS.parseInt (Some (ideographic +:+ bom +:+ tab +:+ nbsp +:+ "-7 %")) = Some (-7) /\
  JS.parseInt (Some (String (ascii_of_nat 194) "55")) = None /\
  JS.parseInt (Some (String (ascii_of_nat 226) (String (ascii_of_nat 128) "55"))) = None.
Proof. repeat split; reflexivity. Qed.

(** [parseInt("-0")] is the number -0, and dividing by it gives -Infinity. *)
Example parseInt_negative_zero :
  JS.parseIntNumber (Some "-0%") = S754_zero true /\
  JS.parseIntNumber (Some "0%") = S754_zero false /\
  Double.div (Double.ofZ 255) (JS.parseIntNumber (Some "-0%")) = S754_infinity true.
Proof. repeat split; reflexivity. Qed.

(** [PORT=0] is the string "0", which is truthy: it is passed to [listen]
    as it is, where a missing or empty [PORT] and the number 0 give 5000. *)
Example port_zero_is_kept :
  configuredPort {[ "PORT" := "0" ]} = PortText "0" /\
  portOrDefault (PortText "0") = PortText "0" /\
  configuredPort ∅ = PortNumber 5000 /\
  configuredPort {[ "PORT" := "" ]} = PortNumber 5000 /\
  portOrDefault (PortNumber 0) = PortNumber 5000.
Proof. repeat split; reflexivity. Qed.

Example remainder_keeps_sign : Z.rem (-90) 180 = -90 /\ Z.rem 270 180 = 90.
Proof. split; reflexivity. Qed.

Example round_half_up : JS.round (51 # 2) = 26 /\ JS.round (- (51 # 2)) = -25.
Proof. split; reflexivity. Qed.

Example resolve_relative :
  Path.resolve "/app" "kindle-config" "a/./b//c.txt" = "/app/kindle-config/a/b/c.txt".
Proof. reflexivity. Qed.

Example resolve_parent : Path.resolve "/app" "/srv/cfg" "../../etc/passwd" = "/etc/passwd".
Proof. reflexivity. Qed.

Example extname_cases :
  Path.extname "/srv/cfg/readme.txt" = ".txt" /\
  Path.extname "/srv/cfg/archive.tar.gz" = ".gz" /\
  Path.extname "/srv/cfg/.profile" = EmptyString /\
  Path.extname "/srv/cfg/Makefile" = EmptyString.
Proof. repeat split. Qed.

Example dirname_of_output : Path.dirname "output/cover.png" = "output".
Proof. reflexivity. Qed.

Example getContentType_cases :
  getContentType ".json" = "application/json" /\
  getContentType ".bin" = "application/octet-stream".
Proof. split; reflexivity. Qed.

(** Without [IMAGE_FORMAT] in the environment the format is "png"; a
    suffixed variable wins over the unsuffixed one. *)
Lemma configuredImageFormat_default (suffix : string) :
  configuredImageFormat ∅ suffix = "png".
Proof.
  unfold configuredImageFormat, getEnvironmentVariable.
  rewrite !lookup_empty. reflexivity.
Qed.

Example configuredImageFormat_suffix :
  configuredImageFormat {[ "IMAGE_FORMAT" := "png"; "IMAGE_FORMAT_2" := "jpeg" ]} "_2"
  = "jpeg".
Proof. reflexivity. Qed.

(** *** Startup validation *)

Lemma firstInvalidRotation_None (ps : list PageConfig) (i : nat) :
  firstInvalidRotation i ps = None <->
  Forall (fun p => Z.rem (rotation p) 90 <= 0) ps.
Proof.
  revert i. induction ps as [|p ps IH]; intros i; simpl.
  - split; [constructor | reflexivity].
  - destruct (Z.gtb_spec (Z.rem (rotation p) 90) 0) as [Hgt|Hle].
    + split; [discriminate|]. intros H. inversion H; subst. lia.
    + rewrite IH. split.
      * intros H. constructor; [lia | exact H].
      * intros H. inversion H; subst. assumption.
Qed.

(** With no target the startup logs an error and sets up nothing. *)
Lemma main_rejects_no_targets (config : Config) :
  pages config = [] -> main config = ([LogCheckConfiguration], []).
Proof. intros H. unfold main. rewrite H. reflexivity. Qed.

(** A target whose rotation leaves a positive remainder modulo 90 makes the
    startup log an error and set up nothing. *)
Lemma main_rejects_positive_remainder (config : Config) :
  Exists (fun p => Z.rem (rotation p) 90 > 0) (pages config) ->
  exists i r, main config = ([LogInvalidRotation i r], []).
Proof.
  intros Hex. unfold main.
  destruct (pages config) as [|p ps] eqn:Hp.
  - inversion Hex.
  - simpl length. cbn [Nat.eqb].
    destruct (firstInvalidRotation 0 (p :: ps)) as [[i r]|] eqn:Hf.
    + eauto.
    + apply firstInvalidRotation_None in Hf.
      apply Exists_exists in Hex as (q & Hin & Hq).
      rewrite Forall_forall in Hf. specialize (Hf q Hin). lia.
Qed.

(** For rotations that are not negative the test is the intended one. *)
Lemma rem_90_positive_iff (r : Z) :
  0 <= r -> (Z.rem r 90 > 0 <-> r mod 90 <> 0).
Proof.
  intros Hr. rewrite Z.rem_mod_nonneg by lia.
  pose proof (Z.mod_pos_bound r 90 ltac:(lia)). lia.
Qed.

(** C3, at the failing input: a single target with rotation -45, which is
    not a multiple of 90, passes the startup validation; the first render,
    the scheduler and the server are all set up. *)
Theorem main_accepts_rotation_minus_45 :
  let config := sampleConfig [samplePage "/lovelace/0" "png" "output/cover" (-45) 8 "0%" "100%" 1] in
  (-45) mod 90 <> 0 /\
  main config =
    ([LogFirstRender; LogStartCron],
     [RenderOnce false; ArmCron "* * * * *"; Listen 5000]).
Proof. split; [discriminate | reflexivity]. Qed.

(** *** Capture geometry *)

(** The clip handed to [page.screenshot] has the origin and the size of
    the viewport handed to [page.setViewport]. *)
Lemma screenshotClip_matches_viewport (pageConfig : PageConfig) :
  let size := viewportSize pageConfig in
  clip_x (screenshotClip size) = 0 /\ clip_y (screenshotClip size) = 0 /\
  clip_width (screenshotClip size) = width size /\
  clip_height (screenshotClip size) = height size.
Proof. repeat split. Qed.

(** For rotations that are not negative the viewport is swapped exactly
    when the rotation is not a multiple of 180. *)
Lemma viewportSize_nonnegative_rotation (pageConfig : PageConfig) :
  0 <= rotation pageConfig ->
  viewportSize pageConfig =
    if bool_decide (rotation pageConfig mod 180 <> 0)
    then {| width := height (renderingScreenSize pageConfig);
            height := width (renderingScreenSize pageConfig) |}
    else {| width := width (renderingScreenSize pageConfig);
            height := height (renderingScreenSize pageConfig) |}.
Proof.
  intros Hr. unfold viewportSize. cbn [width height].
  rewrite Z.rem_mod_nonneg by lia.
  pose proof (Z.mod_pos_bound (rotation pageConfig) 180 ltac:(lia)).
  destruct (Z.gtb_spec (rotation pageConfig mod 180) 0);
    case_bool_decide; try lia; reflexivity.
Qed.

(** C4, at the failing input: a 600x800 target rotated by -90 degrees (a
    multiple of 90 that is not a multiple of 180, accepted at startup) is
    captured with the configured, unswapped viewport and clip, while the same
    target rotated by 90 degrees is captured swapped; the post-processor
    rotates both. *)
Theorem viewport_not_swapped_at_minus_90 :
  let turned r := samplePage "/lovelace/0" "png" "output/cover" r 8 "0%" "100%" 1 in
  let capture r :=
    calls (renderUrlToImageAsync (sampleConfig [turned r]) (calmWorld []) 0 (turned r)
             "http://ha:8123/lovelace/0" "output/cover.png.temp"
             (initialState ∅ 0)).1 in
  (-90) mod 90 = 0 /\ (-90) mod 180 <> 0 /\
  firstInvalidRotation 0 [turned (-90)] = None /\
  viewportSize (turned (-90)) = {| width := 600; height := 800 |} /\
  viewportSize (turned 90) = {| width := 800; height := 600 |} /\
  In (SetViewport {| width := 600; height := 800 |}) (capture (-90)) /\
  In (Screenshot "output/cover.png.temp"
        {| clip_x := 0; clip_y := 0; clip_width := 600; clip_height := 800 |})
     (capture (-90)) /\
  rotateStep (turned (-90)) = [OpRotate (-90) "#ffffff"] /\
  rotateStep (turned 90) = [OpRotate 90 "#ffffff"].
Proof.
  repeat split; try discriminate; vm_compute; tauto.
Qed.

(** *** The encoder chosen by the post-processor *)

Lemma pipelineEncoding_app (xs ys : list SharpOp) :
  pipelineEncoding (xs ++ ys) =
    match pipelineEncoding ys with
    | Some e => Some e
    | None => pipelineEncoding xs
    end.
Proof.
  induction xs as [|x xs IH]; simpl.
  - destruct (pipelineEncoding ys); reflexivity.
  - rewrite IH. destruct (pipelineEncoding ys); reflexivity.
Qed.

Lemma pipelinePaletteSize_app (xs ys : list SharpOp) :
  pipelinePaletteSize (xs ++ ys) =
    match pipelinePaletteSize ys with
    | Some n => Some n
    | None => pipelinePaletteSize xs
    end.
Proof.
  induction xs as [|x xs IH]; simpl.
  - destruct (pipelinePaletteSize ys); reflexivity.
  - destruct x; rewrite IH; destruct (pipelinePaletteSize ys); reflexivity.
Qed.

(** The steps before the encoder never ask for a palette. *)
Lemma adjustments_no_palette (pageConfig : PageConfig) :
  pipelinePaletteSize
    (gammaStep pageConfig ++ rotateStep pageConfig ++ grayscaleStep pageConfig ++
     saturationStep pageConfig ++ contrastStep pageConfig ++ levelStep pageConfig ++
     ditherStep pageConfig) = None.
Proof.
  repeat rewrite pipelinePaletteSize_app.
  unfold gammaStep, rotateStep, grayscaleStep, saturationStep, contrastStep,
    levelStep, ditherStep.
  destruct (removeGamma pageConfig), (rotation pageConfig =? 0),
    (isGrayscaleMode pageConfig), (Qeq_bool (saturation pageConfig) 1),
    (contrastLinear pageConfig) as [[? ?]|], (levelLinear pageConfig) as [[? ?]|],
    (dither pageConfig); reflexivity.
Qed.

Lemma convertPipeline_split (pageConfig : PageConfig) :
  convertPipeline pageConfig =
    (gammaStep pageConfig ++ rotateStep pageConfig ++ grayscaleStep pageConfig ++
     saturationStep pageConfig ++ contrastStep pageConfig ++ levelStep pageConfig ++
     ditherStep pageConfig) ++ encodeStep pageConfig.
Proof. unfold convertPipeline. repeat rewrite <- app_assoc. reflexivity. Qed.

(** C1 as stated fails: for a PNG target with grayscale depth 1 the encoder
    is not given a palette of 2 colours (no palette size is passed at all). *)
Lemma encoder_palette_counterexample :
  ~ encoderAsSpecified
      (samplePage "/lovelace/0" "png" "output/cover" 0 1 "0%" "100%" 1).
Proof. intros [_ H]. specialize (H eq_refl). discriminate H. Qed.

(** A target configured as JPEG is encoded as PNG all the same, and stored
    under the configured extension. *)
Example jpeg_target_is_encoded_as_png :
  let pageConfig := samplePage "/lovelace/0" "jpeg" "output/cover" 0 8 "0%" "100%" 1 in
  pipelineEncoding (convertPipeline pageConfig) = Some EncPng /\
  specEncoding (imageFormat pageConfig) = EncJpeg /\
  outputPathOf pageConfig = "output/cover.jpeg".
Proof. repeat split. Qed.

(** C1, amended: for every target whose format string does not name BMP or
    JPEG (so "png" and every unrecognised string), the pipeline ends with
    the PNG encoder at compression level 9; in grayscale mode the encoder is
    preceded by the conversion to the single-channel colourspace and the
    palette is switched off; the encoder is never given a palette size,
    whatever the grayscale depth. *)
Theorem encoder_is_png (pageConfig : PageConfig) :
  namesOtherEncoder (imageFormat pageConfig) = false ->
  pipelineEncoding (convertPipeline pageConfig) =
    Some (specEncoding (imageFormat pageConfig)) /\
  pipelinePaletteSize (convertPipeline pageConfig) = None /\
  exists adjustments,
    convertPipeline pageConfig =
      adjustments ++
      (if isGrayscaleMode pageConfig
       then [OpToColorspace "b-w";
             OpPng {| compressionLevel := Some 9; palette := Some false; colours := None |}]
       else [OpPng {| compressionLevel := Some 9; palette := None; colours := None |}]) /\
    pipelineEncoding adjustments = None /\
    ~ In (OpToColorspace "b-w") adjustments.
Proof.
  intros Hfmt. rewrite convertPipeline_split.
  rewrite pipelineEncoding_app, pipelinePaletteSize_app.
  rewrite adjustments_no_palette.
  assert (Hspec : specEncoding (imageFormat pageConfig) = EncPng).
  { unfold namesOtherEncoder in Hfmt.
    destruct (specEncoding (imageFormat pageConfig)); [reflexivity | discriminate..]. }
  rewrite Hspec. unfold encodeStep.
  split; [destruct (isGrayscaleMode pageConfig); reflexivity|].
  split; [destruct (isGrayscaleMode pageConfig); reflexivity|].
  eexists. split; [reflexivity|].
  unfold gammaStep, rotateStep, grayscaleStep, saturationStep, contrastStep,
    levelStep, ditherStep.
  destruct (removeGamma pageConfig), (rotation pageConfig =? 0),
    (isGrayscaleMode pageConfig), (Qeq_bool (saturation pageConfig) 1),
    (contrastLinear pageConfig) as [[? ?]|], (levelLinear pageConfig) as [[? ?]|],
    (dither pageConfig); simpl; split; try reflexivity;
    intros H; repeat (destruct H as [H|H]; [discriminate H|]); exact H.
Qed.

Lemma encoder_is_png_witness :
  let pageConfig := samplePage "/lovelace/0" "webp" "output/cover" 0 4 "0%" "100%" 1 in
  namesOtherEncoder (imageFormat pageConfig) = false /\
  pipelineEncoding (convertPipeline pageConfig) = Some EncPng /\
  pipelinePaletteSize (convertPipeline pageConfig) = None.
Proof.
  split; [reflexivity|].
  pose proof (encoder_is_png
    (samplePage "/lovelace/0" "webp" "output/cover" 0 4 "0%" "100%" 1) eq_refl)
    as (H1 & H2 & _).
  split; [exact H1 | exact H2].
Defined.

(** *** The contrast step *)





(** A contrast of 0 cannot come from the environment. *)
Lemma configuredContrast_nonzero (parsed : Q) :
  ~ (configuredContrast parsed == 0)%Q.
Proof.
  unfold configuredContrast. destruct (Qeq_bool parsed 0) eqn:H.
  - intros H1. discriminate H1.
  - apply Qeq_bool_neq in H. exact H.
Qed.

(** *** The level step *)



Lemma parseIntNumber_Some (input : option string) (z : Z) :
  JS.parseInt input = Some z ->
  JS.parseIntNumber input = percentDouble (JS.hasMinusSign input) z.
Proof. intros H. unfold JS.parseIntNumber. rewrite H. reflexivity. Qed.

Lemma parseIntNumber_None (input : option string) :
  JS.parseInt input = None -> JS.parseIntNumber input = S754_nan.
Proof. intros H. unfold JS.parseIntNumber. rewrite H. reflexivity. Qed.

Lemma levelLinear_levelOf (pageConfig : PageConfig) :
  levelLinear pageConfig =
    if negb (String.eqb (blackLevel pageConfig) "0%") ||
       negb (String.eqb (whiteLevel pageConfig) "100%")
    then levelOf (JS.parseIntNumber (Some (blackLevel pageConfig)))
                 (JS.parseIntNumber (Some (whiteLevel pageConfig)))
    else None.
Proof. reflexivity. Qed.

Lemma in_percents (z : Z) : 0 <= z <= 100 -> In z percents.
Proof.
  intros Hz. unfold percents. apply in_map_iff. exists (Z.to_nat z).
  split; [lia|]. apply in_seq. lia.
Qed.

Lemma in_doublesOf (negative : bool) (z : Z) :
  In (percentDouble negative z) (doublesOf z).
Proof.
  unfold percentDouble, doublesOf. destruct (z =? 0); [|left; reflexivity].
  destruct negative; [right; left|left]; reflexivity.
Qed.

Lemma isNegativeZero_percentDouble (negative : bool) (z : Z) :
  0 <= z -> isNegativeZero (percentDouble negative z) = (z =? 0) && negative.
Proof.
  intros Hz. unfold percentDouble. destruct (Z.eqb_spec z 0) as [->|Hne].
  - destruct negative; reflexivity.
  - unfold Double.ofZ, binary_normalize. destruct z as [|p|p]; [lia| |lia].
    unfold binary_round. destruct (shl_align _ _ _) as [mz ez].
    unfold binary_round_aux. destruct (shr_fexp _ _ _ _ _) as [mrs' e'].
    destruct (shr_fexp _ _ _ _ _) as [mrs'' e''].
    destruct (shr_m mrs''); [reflexivity| |reflexivity].
    destruct (Z.leb _ _); reflexivity.
Qed.

Lemma forallPercents_spec (f : spec_float -> spec_float -> Z -> Z -> bool) :
  forallPercents f = true ->
  forall (nb nw : bool) (black white : Z),
    0 <= black <= 100 -> 0 <= white <= 100 ->
    f (percentDouble nb black) (percentDouble nw white) black white = true.
Proof.
  intros H nb nw black white Hb Hw. unfold forallPercents in H.
  rewrite forallb_forall in H. specialize (H black (in_percents black Hb)).
  rewrite forallb_forall in H. specialize (H white (in_percents white Hw)).
  rewrite forallb_forall in H. specialize (H _ (in_doublesOf nb black)).
  rewrite forallb_forall in H. exact (H _ (in_doublesOf nw white)).
Qed.



(** Levels that are not both the default strings but read as the
    defaults or below and above them. *)
Lemma levels_differ (pageConfig : PageConfig) (black white : Z) :
  JS.parseInt (Some (blackLevel pageConfig)) = Some black ->
  JS.parseInt (Some (whiteLevel pageConfig)) = Some white ->
  black <> 0 \/ white <> 100 ->
  negb (String.eqb (blackLevel pageConfig) "0%") ||
  negb (String.eqb (whiteLevel pageConfig) "100%") = true.
Proof.
  intros Hb Hw Hne.
  destruct (String.eqb_spec (blackLevel pageConfig) "0%") as [E1|_]; [|reflexivity].
  destruct (String.eqb_spec (whiteLevel pageConfig) "100%") as [E2|_]; [|reflexivity].
  rewrite E1 in Hb. rewrite E2 in Hw.
  vm_compute in Hb. vm_compute in Hw.
  injection Hb as <-. injection Hw as <-. lia.
Qed.


(** Outside the range from 0 to 100 the rounding of doubles shows: at
    levels 10% and 6410% the code computes [64.1 * 255] a little below
    16345.5 and divides 255 by 16319, where the formula on exact fractions
    divides by 16320. *)
Example level_remap_follows_doubles :
  let pageConfig := samplePage "/lovelace/0" "png" "output/cover" 0 8 "10%" "6410%" 1 in
  JS.round (inject_Z 6410 / 100 * 255)%Q - JS.round (inject_Z 10 / 100 * 255)%Q = 16320 /\
  exists a b m,
    levelLinear pageConfig = Some (a, b) /\ numValue a = Some m /\
    (Qabs (m - 255 / 16319) <= roundingError)%Q /\
    ~ (Qabs (m - 255 / 16320) <= roundingError)%Q.
Proof.
  split; [vm_compute; reflexivity|].
  eexists _, _, _. split; [vm_compute; reflexivity|]. split; [reflexivity|].
  split.
  - apply Qle_bool_iff. vm_compute. reflexivity.
  - intros H. apply Qle_bool_iff in H. vm_compute in H. discriminate H.
Qed.



(** *** Image requests *)

(** Unfolding of the monad operations. *)
Ltac run_M :=
  unfold mbind, M_bind, mret, M_ret, mthrow, M_throw, tryCatch, tryFinally,
    notAwaited, log, modify, getState in *.

Lemma logAll_run (events : list LogEvent) (st : State) :
  logAll events st =
    ({| fs := fs st; batteryStore := batteryStore st;
        console := console st ++ events; calls := calls st; clock := clock st |},
     inr tt).
Proof.
  revert st. induction events as [|ev events IH]; intros st; simpl.
  - run_M. rewrite app_nil_r. destruct st; reflexivity.
  - run_M. rewrite IH. unfold addLog. simpl. rewrite <- app_assoc. reflexivity.
Qed.

Lemma validPageNumber_guard (config : Config) (n : Z) :
  negb (JS.isFinite (Some n)) || (n >? Z.of_nat (length (pages config))) || (n <? 1)
  = negb (validPageNumber config n).
Proof.
  unfold validPageNumber.
  destruct (JS.isFinite (Some n)); simpl; [|reflexivity].
  rewrite Z.gtb_ltb.
  destruct (Z.ltb_spec (Z.of_nat (length (pages config))) n),
    (Z.ltb_spec n 1), (Z.leb_spec 1 n),
    (Z.leb_spec n (Z.of_nat (length (pages config)))); simpl; lia.
Qed.

Lemma validPageNumber_lookup (config : Config) (n : Z) :
  validPageNumber config n = true ->
  exists p, pages config !! Z.to_nat (n - 1) = Some p.
Proof.
  unfold validPageNumber. intros H.
  apply andb_true_iff in H as [H Hle]. apply andb_true_iff in H as [_ Hge].
  apply Z.leb_le in Hle, Hge.
  apply lookup_lt_is_Some. lia.
Qed.

(** A request whose page number is not valid is answered 400; nothing but
    the console changes. *)
Lemma handleImageRequest_invalid (config : Config) (request : Request) (st : State) :
  match pageNumberOf request with
  | Some n => validPageNumber config n = false
  | None => True
  end ->
  handleImageRequest config request st =
    (addLog (LogInvalidRequest (pageNumberOf request)) st,
     inr (respond 400 "Invalid request")).
Proof.
  intros H. unfold handleImageRequest.
  destruct (pageNumberOf request) as [n|]; [|reflexivity].
  rewrite validPageNumber_guard, H. reflexivity.
Qed.

(** A valid request for a target whose artifact cannot be read is answered
    404; nothing but the console changes. *)
Lemma handleImageRequest_unreadable (config : Config) (request : Request)
    (st : State) (n : Z) (p : PageConfig) :
  pageNumberOf request = Some n ->
  validPageNumber config n = true ->
  pages config !! Z.to_nat (n - 1) = Some p ->
  (forall data t, fs st !! outputPathOf p <> Some (File data t)) ->
  exists msg,
    handleImageRequest config request st =
      (addLog (LogError msg) (addLog (LogImageAccessed n) st),
       inr (respond 404 "Image not found")).
Proof.
  intros Hn Hvalid Hp Hfile. unfold handleImageRequest.
  rewrite Hn, validPageNumber_guard, Hvalid. cbn [negb].
  unfold lookupPage. rewrite Hp. run_M. unfold readFile. cbn [fs addLog].
  fold (outputPathOf p).
  destruct (fs st !! outputPathOf p) as [[data t| |c]|] eqn:Hfs.
  - exfalso. exact (Hfile data t eq_refl).
  - eexists. reflexivity.
  - eexists. reflexivity.
  - eexists. reflexivity.
Qed.

(** A valid request for a target whose artifact is a file is answered 200
    with the file, and the battery entry of the target is created or
    updated. *)
Lemma handleImageRequest_served (config : Config) (request : Request)
    (st : State) (n : Z) (p : PageConfig) (data : bytes) (t : Z) :
  pageNumberOf request = Some n ->
  validPageNumber config n = true ->
  pages config !! Z.to_nat (n - 1) = Some p ->
  fs st !! outputPathOf p = Some (File data t) ->
  let old := default freshBattery (batteryStore st !! Z.to_nat (n - 1)) in
  let result :=
    updateBattery n (JS.parseInt (queryBatteryLevel request))
                  (queryIsCharging request) old in
  handleImageRequest config request st =
    ({| fs := fs st;
        batteryStore := <[Z.to_nat (n - 1) := fst result]> (batteryStore st);
        console := console st ++ LogImageAccessed n :: snd result;
        calls := calls st; clock := clock st |},
     inr {| status := 200;
            headers := [ ("Content-Type", HText ("image/" +:+ imageFormat p));
                         ("Content-Length", HNumber (Z.of_nat (length data)));
                         ("Last-Modified", HDate t) ];
            body := Data data |}).
Proof.
  intros Hn Hvalid Hp Hfile old result. unfold handleImageRequest.
  rewrite Hn, validPageNumber_guard, Hvalid. cbn [negb].
  unfold lookupPage. rewrite Hp. run_M.
  unfold readFile, stat, pageBatteryEntry, storeBattery. run_M.
  fold (outputPathOf p). cbn [fs addLog batteryStore]. rewrite Hfile.
  cbn [fs addLog batteryStore]. rewrite Hfile. cbn [mtime batteryStore addLog].
  subst result old.
  destruct (batteryStore st !! Z.to_nat (n - 1)) as [b|] eqn:Hb;
    cbn [default]; unfold id.
  - destruct (updateBattery n (JS.parseInt (queryBatteryLevel request))
                (queryIsCharging request) b) as [updated events].
    rewrite logAll_run. cbn. rewrite <- app_assoc. reflexivity.
  - destruct (updateBattery n (JS.parseInt (queryBatteryLevel request))
                (queryIsCharging request) freshBattery) as [updated events].
    rewrite logAll_run. cbn. rewrite insert_insert_eq, <- app_assoc. reflexivity.
Qed.

(** The response to an image request, case by case. *)
Lemma handleImageRequest_cases (config : Config) (request : Request) (st : State) :
  exists st' response,
    handleImageRequest config request st = (st', inr response) /\
    match pageNumberOf request with
    | None => status response = 400
    | Some n =>
        if (n <? 1) || (n >? Z.of_nat (length (pages config)))
        then status response = 400
        else if negb (JS.isFinite (Some n)) then status response = 400
        else
          exists p, pages config !! Z.to_nat (n - 1) = Some p /\
            match fs st !! outputPathOf p with
            | Some (File data t) =>
                response =
                  {| status := 200;
                     headers := [ ("Content-Type", HText ("image/" +:+ imageFormat p));
                                  ("Content-Length", HNumber (Z.of_nat (length data)));
                                  ("Last-Modified", HDate t) ];
                     body := Data data |}
            | _ => status response = 404
            end
    end.
Proof.
  destruct (pageNumberOf request) as [n|] eqn:Hn.
  - destruct (validPageNumber config n) eqn:Hvalid.
    + destruct (validPageNumber_lookup _ _ Hvalid) as [p Hp].
      assert (Hguard : (n <? 1) || (n >? Z.of_nat (length (pages config))) = false /\
                       JS.isFinite (Some n) = true).
      { unfold validPageNumber in Hvalid.
        apply andb_true_iff in Hvalid as [H Hle]. apply andb_true_iff in H as [Hfin Hge].
        apply Z.leb_le in Hle, Hge. split; [|exact Hfin].
        apply orb_false_iff. split; [apply Z.ltb_ge | rewrite Z.gtb_ltb; apply Z.ltb_ge]; lia. }
      destruct Hguard as [-> ->]. cbn [negb].
      destruct (fs st !! outputPathOf p) as [[data t| |c]|] eqn:Hfs.
      * eexists _, _. split.
        { apply (handleImageRequest_served config request st n p data t); assumption. }
        exists p. split; [exact Hp|]. rewrite Hfs. reflexivity.
      * destruct (handleImageRequest_unreadable config request st n p Hn Hvalid Hp)
          as [msg Hrun]; [intros ? ?; rewrite Hfs; discriminate|].
        eexists _, _. split; [exact Hrun|]. exists p. rewrite Hfs. split; [exact Hp | reflexivity].
      * destruct (handleImageRequest_unreadable config request st n p Hn Hvalid Hp)
          as [msg Hrun]; [intros ? ?; rewrite Hfs; discriminate|].
        eexists _, _. split; [exact Hrun|]. exists p. rewrite Hfs. split; [exact Hp | reflexivity].
      * destruct (handleImageRequest_unreadable config request st n p Hn Hvalid Hp)
          as [msg Hrun]; [intros ? ?; rewrite Hfs; discriminate|].
        eexists _, _. split; [exact Hrun|]. exists p. rewrite Hfs. split; [exact Hp | reflexivity].
    + eexists _, _. split.
      { apply handleImageRequest_invalid. rewrite Hn. exact Hvalid. }
      pose proof (validPageNumber_guard config n) as Hguard.
      rewrite Hvalid in Hguard.
      destruct (n <? 1), (n >? Z.of_nat (length (pages config))),
        (JS.isFinite (Some n)); simpl in *; try reflexivity; discriminate Hguard.
  - eexists _, _. split.
    { apply handleImageRequest_invalid. rewrite Hn. exact I. }
    reflexivity.
Qed.

(** C6: a request to the image family is always answered: with 400 when the
    page number is not a number, is below 1 (zero or negative) or exceeds the
    number of targets; otherwise with 404 when the artifact of the target is
    not a readable file; otherwise with 200, the content type
    [image/{format}], the length of the file, its modification time, and the
    file as body. *)
Theorem image_request_status (config : Config) (request : Request) (st : State) :
  exists st' response,
    handleImageRequest config request st = (st', inr response) /\
    match pageNumberOf request with
    | None => status response = 400
    | Some n =>
        if (n <? 1) || (n >? Z.of_nat (length (pages config)))
        then status response = 400
        else if negb (JS.isFinite (Some n)) then status response = 400
        else
          exists p, pages config !! Z.to_nat (n - 1) = Some p /\
            match fs st !! outputPathOf p with
            | Some (File data t) =>
                response =
                  {| status := 200;
                     headers := [ ("Content-Type", HText ("image/" +:+ imageFormat p));
                                  ("Content-Length", HNumber (Z.of_nat (length data)));
                                  ("Last-Modified", HDate t) ];
                     body := Data data |}
            | _ => status response = 404
            end
    end.
Proof. apply handleImageRequest_cases. Qed.

(** Two targets configured: [/3] is answered 400; [/1] before any render
    cycle is answered 404; after the artifact has been written it is served. *)
Example image_request_examples :
  let config := sampleConfig [ defaultPage "/lovelace/0" "output/cover";
                               defaultPage "/lovelace/1" "output/cover_2" ] in
  let get p := {| pathname := p; queryBatteryLevel := None; queryIsCharging := None |} in
  let statusOf (r : State * (Exn + Response)) :=
    match r.2 with inr response => Some (status response) | inl _ => None end in
  statusOf (handleImageRequest config (get "/3") (initialState ∅ 0)) = Some 400 /\
  statusOf (handleImageRequest config (get "/0") (initialState ∅ 0)) = Some 400 /\
  statusOf (handleImageRequest config (get "/-1") (initialState ∅ 0)) = Some 400 /\
  statusOf (handleImageRequest config (get "/abc") (initialState ∅ 0)) = Some 400 /\
  statusOf (handleImageRequest config (get "/1") (initialState ∅ 0)) = Some 404 /\
  statusOf (handleImageRequest config (get "/") (initialState renderedDisk 0)) = Some 200.
Proof. repeat split. Qed.

(** *** What a computation leaves alone *)

Section Keeps.

Variable R : State -> State -> Prop.
Hypothesis R_refl : forall st, R st st.
Hypothesis R_trans : forall a b c, R a b -> R b c -> R a c.

Lemma keeps_ret {A} (a : A) : keeps R (mret a).
Proof. intros st. apply R_refl. Qed.

Lemma keeps_throw {A} (e : Exn) : keeps R (mthrow e : M A).
Proof. intros st. apply R_refl. Qed.

Lemma keeps_getState : keeps R getState.
Proof. intros st. apply R_refl. Qed.

Lemma keeps_bind {A B} (m : M A) (f : A -> M B) :
  keeps R m -> (forall a, keeps R (f a)) -> keeps R (m ≫= f).
Proof.
  intros Hm Hf st. specialize (Hm st). run_M.
  destruct (m st) as [st1 [e|a]]; simpl in *; [exact Hm|].
  eapply R_trans; [exact Hm | apply Hf].
Qed.

Lemma keeps_tryCatch {A} (body : M A) (handler : Exn -> M A) :
  keeps R body -> (forall e, keeps R (handler e)) -> keeps R (tryCatch body handler).
Proof.
  intros Hm Hh st. specialize (Hm st). run_M.
  destruct (body st) as [st1 [e|a]]; simpl in *; [|exact Hm].
  eapply R_trans; [exact Hm | apply Hh].
Qed.

Lemma keeps_tryFinally {A} (body : M A) (finalizer : M unit) :
  keeps R body -> keeps R finalizer -> keeps R (tryFinally body finalizer).
Proof.
  intros Hm Hf st. specialize (Hm st). run_M.
  destruct (body st) as [st1 r]; simpl in *.
  specialize (Hf st1).
  destruct (finalizer st1) as [st2 [e|[]]]; simpl in *;
    eapply R_trans; eauto.
Qed.

Lemma keeps_modify (f : State -> State) :
  (forall st, R st (f st)) -> keeps R (modify f).
Proof. intros Hf st. apply Hf. Qed.

Lemma keeps_if {A} (b : bool) (m1 m2 : M A) :
  keeps R m1 -> keeps R m2 -> keeps R (if b then m1 else m2).
Proof. destruct b; auto. Qed.

Lemma keeps_access (p : string) : keeps R (access p).
Proof. intros st. unfold access. destruct (fs st !! p) as [[]|]; apply R_refl. Qed.

Lemma keeps_stat (p : string) : keeps R (stat p).
Proof. intros st. unfold stat. destruct (fs st !! p) as [[]|]; apply R_refl. Qed.

Lemma keeps_readFile (p : string) : keeps R (readFile p).
Proof. intros st. unfold readFile. destruct (fs st !! p) as [[]|]; apply R_refl. Qed.

Lemma keeps_unlink (p : string) :
  (forall st, R st (setFs (delete p) st)) -> keeps R (unlink p).
Proof.
  intros H st. unfold unlink.
  destruct (fs st !! p) as [[]|]; simpl; auto.
Qed.

Lemma keeps_call (w : World) (i : nat) (c : Call) :
  (forall st, R st (addCall c st)) -> keeps R (call w i c).
Proof.
  intros H st. unfold call. destruct (callFault w i c); simpl; auto.
Qed.

Lemma keeps_log (ev : LogEvent) :
  (forall st, R st (addLog ev st)) -> keeps R (log ev).
Proof. intros H. apply keeps_modify. exact H. Qed.

End Keeps.

(** One step of a proof that a computation keeps a relation: the shape of
    the computation decides the lemma. *)
Ltac keeps_step Hrefl Htrans :=
  lazymatch goal with
  | |- keeps _ (mbind _ _) => apply (keeps_bind _ Htrans); [|intros]
  | |- keeps _ (mret _) => apply (keeps_ret _ Hrefl)
  | |- keeps _ (mthrow _) => apply (keeps_throw _ Hrefl)
  | |- keeps _ getState => apply (keeps_getState _ Hrefl)
  | |- keeps _ (tryCatch _ _) => apply (keeps_tryCatch _ Htrans); [|intros]
  | |- keeps _ (tryFinally _ _) => apply (keeps_tryFinally _ Htrans)
  | |- keeps _ (notAwaited _) => apply (keeps_tryCatch _ Htrans); [|intros]
  | |- keeps _ (access _) => apply (keeps_access _ Hrefl)
  | |- keeps _ (stat _) => apply (keeps_stat _ Hrefl)
  | |- keeps _ (readFile _) => apply (keeps_readFile _ Hrefl)
  | |- keeps _ (if ?b then _ else _) => destruct b
  | |- keeps _ (match ?x with _ => _ end) => destruct x
  end.

(** *** The battery store is touched by served image requests only *)

Lemma sameBattery_refl (st : State) : sameBattery st st.
Proof. reflexivity. Qed.

Lemma sameBattery_trans (a b c : State) :
  sameBattery a b -> sameBattery b c -> sameBattery a c.
Proof. unfold sameBattery. congruence. Qed.

Ltac same_battery := intros; unfold sameBattery; reflexivity.

Ltac keeps_battery :=
  repeat first
    [ keeps_step sameBattery_refl sameBattery_trans
    | apply keeps_log; same_battery
    | apply keeps_call; same_battery
    | apply keeps_unlink; same_battery
    | apply keeps_modify; same_battery ].

Lemma renderUrlToImageAsync_keeps_battery (config : Config) (w : World)
    (i : nat) (pc : PageConfig) (url path : string) :
  keeps sameBattery (renderUrlToImageAsync config w i pc url path).
Proof.
  intros st. unfold renderUrlToImageAsync.
  pose proof (keeps_call sameBattery sameBattery_refl w i NewPage
                ltac:(same_battery) st) as H0.
  destruct (call w i NewPage st) as [st1 [e|[]]]; simpl in H0.
  - eapply sameBattery_trans; [exact H0|].
    apply keeps_log; same_battery.
  - eapply sameBattery_trans; [exact H0|].
    revert st1 H0. intros st1 _. revert st1.
    change (keeps sameBattery
      (tryCatch (captureSequence config w i pc url path)
                (fun e => log (LogFailedToRender url (message e)));;
       (if debug config then mret tt
        else tryCatch (call w i ClosePage)
               (fun closeErr => log (LogCouldNotClosePage url (message closeErr)))))).
    unfold captureSequence, screenshot. keeps_battery.
Qed.

Lemma convert_keeps_battery (w : World) (i : nat) (pc : PageConfig) (a b : string) :
  keeps sameBattery (convertImageToKindleCompatiblePngAsync w i pc a b).
Proof.
  intros st. unfold convertImageToKindleCompatiblePngAsync.
  destruct (fs st !! a) as [[input t| |c]|]; try reflexivity.
  destruct (sharpRun w i (convertPipeline pc) input); reflexivity.
Qed.

Lemma renderPage_keeps_battery (config : Config) (w : World) (i : nat) (pc : PageConfig) :
  keeps sameBattery (renderPage config w i pc).
Proof.
  unfold renderPage, relayBattery, sendBatteryLevelToHomeAssistant.
  keeps_battery;
    first [ apply renderUrlToImageAsync_keeps_battery | apply convert_keeps_battery ].
Qed.

Lemma renderPages_keeps_battery (config : Config) (w : World) (ps : list PageConfig) :
  forall i, keeps sameBattery (renderPages config w i ps).
Proof.
  induction ps as [|pc ps IH]; intros i; simpl.
  - apply (keeps_ret _ sameBattery_refl).
  - apply (keeps_bind _ sameBattery_trans).
    + apply renderPage_keeps_battery.
    + intros _. apply IH.
Qed.

(** The login inside the program: it adds its calls and its output to the
    state and ends as [launchFault] says. *)
Lemma launchBrowserAndLogin_run (config : Config) (w : World) (st : State) :
  exists session,
    launchBrowserAndLogin config w st =
      (addLogin session st,
       match launchFault config w with Some e => inl e | None => inr tt end).
Proof.
  unfold launchBrowserAndLogin, launchFault.
  destruct (Login.launchBrowserAndLogin config (loginFaults w) Login.start)
    as [session [e|[]]]; exists session; reflexivity.
Qed.

Lemma launchBrowserAndLogin_keeps_battery (config : Config) (w : World) :
  keeps sameBattery (launchBrowserAndLogin config w).
Proof.
  intros st. destruct (launchBrowserAndLogin_run config w st) as [session ->].
  reflexivity.
Qed.

(** A render cycle never writes the battery store. *)
Lemma renderAndConvertAsync_keeps_battery (config : Config) (w : World) (existing : bool) :
  keeps sameBattery (renderAndConvertAsync config w existing).
Proof.
  unfold renderAndConvertAsync, closeOwnBrowser.
  keeps_battery;
    first [ apply renderPages_keeps_battery | apply launchBrowserAndLogin_keeps_battery ].
Qed.

(** Neither does a request for a configuration file. *)
Lemma handleConfigFileRequest_keeps_battery (CONFIG_DIR cwd : string)
    (decodeURIComponent : string -> option string) (pathname : string) :
  keeps sameBattery (handleConfigFileRequest CONFIG_DIR cwd decodeURIComponent pathname).
Proof.
  unfold handleConfigFileRequest, decodeOrThrow. keeps_battery.
Qed.

(** *** Battery telemetry *)

Lemma updateBattery_invalid (n : Z) (level : option Z) (charging : option string)
    (b : Battery) :
  validLevel level = false -> updateBattery n level charging b = (b, []).
Proof.
  unfold validLevel, updateBattery. destruct level as [l|]; [|reflexivity].
  rewrite Z.geb_leb. intros ->. reflexivity.
Qed.

Lemma chargingFlag_cases (charging : option string) (c : bool) :
  chargingFlag charging = Some c ->
  bool_decide (charging = Some "Yes" \/ charging = Some "1") = c /\
  bool_decide (charging = Some "No" \/ charging = Some "0") = negb c.
Proof.
  unfold chargingFlag. intros H.
  destruct (bool_decide (charging = Some "Yes" \/ charging = Some "1")) eqn:Hyes.
  - injection H as <-. split; [reflexivity|].
    apply bool_decide_eq_true in Hyes. apply bool_decide_eq_false.
    intros [E|E]; destruct Hyes as [E'|E']; rewrite E in E'; discriminate E'.
  - destruct (bool_decide (charging = Some "No" \/ charging = Some "0")) eqn:Hno;
      [|discriminate H].
    injection H as <-. split; reflexivity.
Qed.

Lemma updateBattery_valid (n l : Z) (charging : option string) (c : bool) (b : Battery) :
  0 <= l <= 100 ->
  chargingFlag charging = Some c ->
  updateBattery n (Some l) charging b =
    ({| batteryLevel := Some l; isCharging := c |}, changeEvents n b l c).
Proof.
  intros Hl Hc. unfold updateBattery, changeEvents.
  replace (l >=? 0) with true by (symmetry; rewrite Z.geb_leb; apply Z.leb_le; lia).
  replace (l <=? 100) with true by (symmetry; apply Z.leb_le; lia).
  cbn [andb].
  destruct (chargingFlag_cases _ _ Hc) as [-> ->].
  destruct b as [lv ch]. cbn [batteryLevel isCharging].
  destruct (bool_decide (lv = Some l)) eqn:Hlv; cbn [negb].
  - apply bool_decide_eq_true in Hlv. subst lv.
    destruct c, ch; reflexivity.
  - destruct c, ch; reflexivity.
Qed.

Lemma updateBattery_inRange (n : Z) (level : option Z) (charging : option string)
    (b : Battery) :
  levelInRange b -> levelInRange (updateBattery n level charging b).1.
Proof.
  intros Hb. unfold updateBattery.
  destruct level as [l|]; [|exact Hb].
  destruct (Z.geb_spec l 0), (Z.leb_spec l 100); cbn [andb]; try exact Hb.
  assert (Hl : levelInRange {| batteryLevel := Some l; isCharging := isCharging b |})
    by (unfold levelInRange; cbn; lia).
  destruct (negb (bool_decide (batteryLevel b = Some l)));
    repeat match goal with
           | |- context [if ?x then _ else _] => destruct x
           end; cbn; unfold levelInRange in *; cbn in *; first [exact Hb | lia].
Qed.

(** The charging flag moves only together with a valid level. *)
Lemma updateBattery_flag (n : Z) (level : option Z) (charging : option string)
    (b : Battery) :
  isCharging (updateBattery n level charging b).1 <> isCharging b ->
  validLevel level = true.
Proof.
  intros H. destruct (validLevel level) eqn:Hv; [reflexivity|].
  rewrite updateBattery_invalid in H by exact Hv. contradiction.
Qed.

(** Reporting the stored values again logs no change. *)
Lemma changeEvents_same (n l : Z) (c : bool) :
  changeEvents n {| batteryLevel := Some l; isCharging := c |} l c = [].
Proof.
  unfold changeEvents. cbn [batteryLevel isCharging].
  rewrite bool_decide_eq_true_2 by reflexivity.
  rewrite Bool.eqb_reflx. reflexivity.
Qed.

(** C5 as stated fails: with a valid index and valid telemetry, but before
    the artifact exists, the request is answered 404 and no battery entry is
    written. *)
Lemma battery_not_updated_without_artifact :
  let st := initialState ∅ 0 in
  pageNumberOf telemetryRequest = Some 1 /\
  validPageNumber oneTarget 1 = true /\
  JS.parseInt (queryBatteryLevel telemetryRequest) = Some 42 /\
  chargingFlag (queryIsCharging telemetryRequest) = Some true /\
  exists st',
    handleImageRequest oneTarget telemetryRequest st =
      (st', inr (respond 404 "Image not found")) /\
    batteryStore st' !! 0%nat = None /\
    batteryStore st' !! 0%nat <> Some {| batteryLevel := Some 42; isCharging := true |}.
Proof.
  repeat (split; [reflexivity|]).
  eexists. split; [vm_compute; reflexivity|].
  split; [reflexivity | discriminate].
Qed.

(** A request changes the battery store only if it is an image request
    answered 200. *)
Lemma only_served_requests_write_battery (config : Config) (CONFIG_DIR cwd : string)
    (decodeURIComponent : string -> option string) (st : State) (a : Action) :
  batteryStore (step config CONFIG_DIR cwd decodeURIComponent st a) <> batteryStore st ->
  exists request st' response,
    a = Get request /\
    JS.startsWith "/config/" (pathname request) = false /\
    handleImageRequest config request st = (st', inr response) /\
    status response = 200.
Proof.
  intros Hchanged. destruct a as [request|w existing|now]; simpl in Hchanged.
  - unfold httpServer in Hchanged.
    destruct (JS.startsWith "/config/" (pathname request)) eqn:Hfamily.
    + exfalso. apply Hchanged. apply handleConfigFileRequest_keeps_battery.
    + exists request.
      destruct (handleImageRequest_cases config request st) as (st' & response & Hrun & Hcases).
      exists st', response. repeat split; try assumption.
      destruct (pageNumberOf request) as [n|] eqn:Hn.
      * destruct (validPageNumber config n) eqn:Hvalid.
        -- destruct (validPageNumber_lookup _ _ Hvalid) as [p Hp].
           destruct (fs st !! outputPathOf p) as [[data t| |c]|] eqn:Hfs.
           ++ rewrite (handleImageRequest_served config request st n p data t Hn Hvalid Hp Hfs)
                in Hrun.
              injection Hrun as _ <-. reflexivity.
           ++ exfalso. apply Hchanged.
              destruct (handleImageRequest_unreadable config request st n p Hn Hvalid Hp)
                as [msg ->]; [intros ? ?; rewrite Hfs; discriminate | reflexivity].
           ++ exfalso. apply Hchanged.
              destruct (handleImageRequest_unreadable config request st n p Hn Hvalid Hp)
                as [msg ->]; [intros ? ?; rewrite Hfs; discriminate | reflexivity].
           ++ exfalso. apply Hchanged.
              destruct (handleImageRequest_unreadable config request st n p Hn Hvalid Hp)
                as [msg ->]; [intros ? ?; rewrite Hfs; discriminate | reflexivity].
        -- exfalso. apply Hchanged.
           rewrite handleImageRequest_invalid by (rewrite Hn; exact Hvalid). reflexivity.
      * exfalso. apply Hchanged.
        rewrite handleImageRequest_invalid by (rewrite Hn; exact I). reflexivity.
  - exfalso. apply Hchanged. apply renderAndConvertAsync_keeps_battery.
  - exfalso. apply Hchanged. reflexivity.
Qed.

(** C5, amended: for every request to the image family with a valid index
    whose artifact is a readable file (the request is answered 200) and with
    valid telemetry (a level between 0 and 100, a charging value among
    Yes/1/No/0), the battery entry of that index becomes the reported level
    and flag; a change of level and a change of flag are each logged, and
    the same request sent again changes nothing and logs nothing but the
    access.  Nothing else writes the battery store: every step of the
    service that changes it is an image request answered 200. *)
Theorem battery_updated_by_served_requests (config : Config) (CONFIG_DIR cwd : string)
    (decodeURIComponent : string -> option string) :
  (forall (request : Request) (st : State) (n : Z) (p : PageConfig)
          (data : bytes) (t l : Z) (c : bool),
     pageNumberOf request = Some n ->
     validPageNumber config n = true ->
     pages config !! Z.to_nat (n - 1) = Some p ->
     fs st !! outputPathOf p = Some (File data t) ->
     JS.parseInt (queryBatteryLevel request) = Some l ->
     0 <= l <= 100 ->
     chargingFlag (queryIsCharging request) = Some c ->
     let old := default freshBattery (batteryStore st !! Z.to_nat (n - 1)) in
     let st1 := (handleImageRequest config request st).1 in
     let st2 := (handleImageRequest config request st1).1 in
     batteryStore st1 =
       <[Z.to_nat (n - 1) := {| batteryLevel := Some l; isCharging := c |}]>
         (batteryStore st) /\
     console st1 = console st ++ LogImageAccessed n :: changeEvents n old l c /\
     batteryStore st2 = batteryStore st1 /\
     console st2 = console st1 ++ [LogImageAccessed n]) /\
  (forall (st : State) (a : Action),
     batteryStore (step config CONFIG_DIR cwd decodeURIComponent st a) <> batteryStore st ->
     exists request st' response,
       a = Get request /\
       JS.startsWith "/config/" (pathname request) = false /\
       handleImageRequest config request st = (st', inr response) /\
       status response = 200).
Proof.
  split; [|apply only_served_requests_write_battery].
  intros request st n p data t l c Hn Hvalid Hp Hfs Hl Hrange Hc old st1 st2.
  assert (H1 : handleImageRequest config request st =
               ({| fs := fs st;
                   batteryStore :=
                     <[Z.to_nat (n - 1) := {| batteryLevel := Some l; isCharging := c |}]>
                       (batteryStore st);
                   console := console st ++ LogImageAccessed n :: changeEvents n old l c;
                   calls := calls st; clock := clock st |},
                inr {| status := 200;
                       headers := [ ("Content-Type", HText ("image/" +:+ imageFormat p));
                                    ("Content-Length", HNumber (Z.of_nat (length data)));
                                    ("Last-Modified", HDate t) ];
                       body := Data data |})).
  { rewrite (handleImageRequest_served config request st n p data t Hn Hvalid Hp Hfs).
    rewrite Hl, (updateBattery_valid n l _ c _ Hrange Hc). reflexivity. }
  subst st2 st1. rewrite H1. cbn [fst].
  match goal with
  | |- context [handleImageRequest config request ?s] =>
      rewrite (handleImageRequest_served config request s n p data t Hn Hvalid Hp Hfs)
  end.
  cbn [fst fs batteryStore console]. rewrite lookup_insert_eq. cbn [default].
  rewrite Hl, (updateBattery_valid n l _ c _ Hrange Hc).
  cbn [fst snd batteryStore console].
  repeat split.
  - apply insert_insert_eq.
  - unfold id. rewrite changeEvents_same. reflexivity.
Qed.

Lemma battery_updated_by_served_requests_witness :
  let st := initialState renderedDisk 0 in
  let st1 := (handleImageRequest oneTarget telemetryRequest st).1 in
  let st2 := (handleImageRequest oneTarget telemetryRequest st1).1 in
  batteryStore st1 = {[ 0%nat := {| batteryLevel := Some 42; isCharging := true |} ]} /\
  console st1 = [LogImageAccessed 1; LogNewBatteryLevel 42 1; LogStartedCharging 1] /\
  batteryStore st2 = batteryStore st1 /\
  console st2 = console st1 ++ [LogImageAccessed 1].
Proof.
  intros st st1 st2.
  destruct (battery_updated_by_served_requests oneTarget "/app/kindle-config" "/app" plainDecode)
    as [H _].
  destruct (H telemetryRequest st 1 (defaultPage "/lovelace/0" "output/cover")
              (String.list_byte_of_string "PNG") 1700000000 42 true
              eq_refl eq_refl eq_refl eq_refl eq_refl ltac:(lia) eq_refl)
    as (Hstore & Hlog & Hstore2 & Hlog2).
  split; [exact Hstore|]. split; [exact Hlog|]. split; [exact Hstore2 | exact Hlog2].
Defined.

(** *** The battery store over the life of the service *)

(** What one step does to the battery store: nothing, or the update of one
    entry by a served image request. *)
Lemma step_battery (config : Config) (CONFIG_DIR cwd : string)
    (decodeURIComponent : string -> option string) (st : State) (a : Action) :
  let st' := step config CONFIG_DIR cwd decodeURIComponent st a in
  batteryStore st' = batteryStore st \/
  exists request n,
    a = Get request /\
    batteryStore st' =
      <[Z.to_nat (n - 1) :=
          (updateBattery n (JS.parseInt (queryBatteryLevel request))
             (queryIsCharging request)
             (default freshBattery (batteryStore st !! Z.to_nat (n - 1)))).1]>
        (batteryStore st).
Proof.
  destruct a as [request|w existing|now]; simpl.
  - unfold httpServer.
    destruct (JS.startsWith "/config/" (pathname request)).
    + left. apply handleConfigFileRequest_keeps_battery.
    + destruct (pageNumberOf request) as [n|] eqn:Hn.
      * destruct (validPageNumber config n) eqn:Hvalid.
        -- destruct (validPageNumber_lookup _ _ Hvalid) as [p Hp].
           destruct (fs st !! outputPathOf p) as [[data t| |c]|] eqn:Hfs.
           ++ right. exists request, n. split; [reflexivity|].
              rewrite (handleImageRequest_served config request st n p data t
                         Hn Hvalid Hp Hfs). reflexivity.
           ++ left.
              destruct (handleImageRequest_unreadable config request st n p Hn Hvalid Hp)
                as [msg ->]; [intros ? ?; rewrite Hfs; discriminate | reflexivity].
           ++ left.
              destruct (handleImageRequest_unreadable config request st n p Hn Hvalid Hp)
                as [msg ->]; [intros ? ?; rewrite Hfs; discriminate | reflexivity].
           ++ left.
              destruct (handleImageRequest_unreadable config request st n p Hn Hvalid Hp)
                as [msg ->]; [intros ? ?; rewrite Hfs; discriminate | reflexivity].
        -- left.
           rewrite handleImageRequest_invalid by (rewrite Hn; exact Hvalid). reflexivity.
      * left.
        rewrite handleImageRequest_invalid by (rewrite Hn; exact I). reflexivity.
  - left. apply renderAndConvertAsync_keeps_battery.
  - left. reflexivity.
Qed.

Lemma step_storeInRange (config : Config) (CONFIG_DIR cwd : string)
    (decodeURIComponent : string -> option string) (st : State) (a : Action) :
  storeInRange st -> storeInRange (step config CONFIG_DIR cwd decodeURIComponent st a).
Proof.
  intros Hinv k b.
  destruct (step_battery config CONFIG_DIR cwd decodeURIComponent st a)
    as [-> | (request & n & _ & ->)]; [apply Hinv|].
  destruct (decide (Z.to_nat (n - 1) = k)) as [<-|Hne].
  - rewrite lookup_insert_eq. intros [= <-].
    apply updateBattery_inRange.
    destruct (batteryStore st !! Z.to_nat (n - 1)) as [b0|] eqn:Hb0; cbn [default].
    + exact (Hinv _ _ Hb0).
    + exact I.
  - rewrite lookup_insert_ne by exact Hne. apply Hinv.
Qed.

Lemma run_storeInRange (config : Config) (CONFIG_DIR cwd : string)
    (decodeURIComponent : string -> option string) (actions : list Action) :
  forall st, storeInRange st ->
             storeInRange (run config CONFIG_DIR cwd decodeURIComponent st actions).
Proof.
  induction actions as [|a actions IH]; intros st Hinv; simpl; [exact Hinv|].
  apply IH, step_storeInRange, Hinv.
Qed.

(** C10: a request without a valid battery level leaves every existing
    entry as it is, and the charging flag read for any index (false when
    there is no entry yet) as it was; so a change of the flag implies a valid
    level in the same request.  Every entry reachable from a fresh start
    holds an unknown level or one between 0 and 100, next to its boolean
    flag, and no step of the service removes an entry. *)
Theorem battery_store_invariant (config : Config) (CONFIG_DIR cwd : string)
    (decodeURIComponent : string -> option string) :
  let step := step config CONFIG_DIR cwd decodeURIComponent in
  let flag (st : State) (k : nat) :=
    isCharging (default freshBattery (batteryStore st !! k)) in
  (forall (st : State) (request : Request),
     validLevel (JS.parseInt (queryBatteryLevel request)) = false ->
     (forall k b, batteryStore st !! k = Some b ->
                  batteryStore (step st (Get request)) !! k = Some b) /\
     (forall k, flag (step st (Get request)) k = flag st k)) /\
  (forall (st : State) (request : Request) (k : nat),
     flag (step st (Get request)) k <> flag st k ->
     validLevel (JS.parseInt (queryBatteryLevel request)) = true) /\
  (forall (files : gmap string Node) (now : Z) (actions : list Action) (k : nat) (b : Battery),
     batteryStore (run config CONFIG_DIR cwd decodeURIComponent
                       (initialState files now) actions) !! k = Some b ->
     levelInRange b) /\
  (forall (st : State) (a : Action) (k : nat),
     is_Some (batteryStore st !! k) -> is_Some (batteryStore (step st a) !! k)).
Proof.
  intros step0 flag. subst step0.
  assert (Hquiet : forall (st : State) (request : Request),
     validLevel (JS.parseInt (queryBatteryLevel request)) = false ->
     (forall k b, batteryStore st !! k = Some b ->
        batteryStore (step config CONFIG_DIR cwd decodeURIComponent st (Get request)) !! k
        = Some b) /\
     (forall k, flag (step config CONFIG_DIR cwd decodeURIComponent st (Get request)) k
                = flag st k)).
  { intros st request Hlevel. subst flag.
    destruct (step_battery config CONFIG_DIR cwd decodeURIComponent st (Get request))
      as [-> | (request' & n & [= <-] & ->)]; [split; auto|].
    rewrite updateBattery_invalid by exact Hlevel. cbn [fst].
    split.
    - intros k b Hk. destruct (decide (Z.to_nat (n - 1) = k)) as [<-|Hne].
      + rewrite lookup_insert_eq, Hk. reflexivity.
      + rewrite lookup_insert_ne by exact Hne. exact Hk.
    - intros k. destruct (decide (Z.to_nat (n - 1) = k)) as [<-|Hne].
      + rewrite lookup_insert_eq. reflexivity.
      + rewrite lookup_insert_ne by exact Hne. reflexivity. }
  split; [exact Hquiet|]. split; [|split].
  - intros st request k Hflag.
    destruct (validLevel (JS.parseInt (queryBatteryLevel request))) eqn:Hlevel;
      [reflexivity|].
    exfalso. apply Hflag. apply (Hquiet st request Hlevel).
  - intros files now actions k b. apply run_storeInRange.
    intros k' b' H. unfold initialState in H. cbn in H.
    rewrite lookup_empty in H. discriminate H.
  - intros st a k Hk.
    destruct (step_battery config CONFIG_DIR cwd decodeURIComponent st a)
      as [-> | (request & n & _ & ->)]; [exact Hk|].
    destruct (decide (Z.to_nat (n - 1) = k)) as [<-|Hne].
    + rewrite lookup_insert_eq. eauto.
    + rewrite lookup_insert_ne by exact Hne. exact Hk.
Qed.

Lemma battery_store_invariant_witness :
  let chargingOnly :=
    {| pathname := "/1"; queryBatteryLevel := None; queryIsCharging := Some "No" |} in
  let step := step oneTarget "/app/kindle-config" "/app" plainDecode in
  let st1 := step (initialState renderedDisk 0) (Get telemetryRequest) in
  validLevel (JS.parseInt (queryBatteryLevel chargingOnly)) = false /\
  batteryStore st1 !! 0%nat = Some {| batteryLevel := Some 42; isCharging := true |} /\
  batteryStore (step st1 (Get chargingOnly)) !! 0%nat =
    Some {| batteryLevel := Some 42; isCharging := true |}.
Proof.
  intros chargingOnly step0 st1.
  split; [reflexivity|]. split; [reflexivity|].
  destruct (battery_store_invariant oneTarget "/app/kindle-config" "/app" plainDecode) as [H _].
  apply (H st1 chargingOnly eq_refl). reflexivity.
Defined.

(** *** Requests for configuration files *)

Lemma startsWith_append (a b : string) : JS.startsWith a (a +:+ b) = true.
Proof.
  induction a as [|c a IH]; simpl; [reflexivity|].
  rewrite Ascii.eqb_refl. exact IH.
Qed.

Lemma includes_append (pre seg post : string) :
  JS.includes seg (pre +:+ seg +:+ post) = true.
Proof.
  induction pre as [|c pre IH].
  - change (EmptyString +:+ seg +:+ post) with (seg +:+ post).
    destruct (seg +:+ post) eqn:E; simpl; rewrite <- E, startsWith_append; reflexivity.
  - change (String c pre +:+ seg +:+ post) with (String c (pre +:+ seg +:+ post)).
    simpl. rewrite IH. apply orb_true_r.
Qed.

(** The first segment of a path is a prefix of it. *)
Lemma segments_head (p s0 : string) (more : list string) :
  Path.segments p = s0 :: more -> exists post, p = s0 +:+ post.
Proof.
  revert s0 more. induction p as [|c r IH]; intros s0 more H; simpl in H.
  - injection H as <- _. exists EmptyString. reflexivity.
  - destruct (Ascii.eqb c "/").
    + injection H as <- _. exists (String c r). reflexivity.
    + destruct (Path.segments r) as [|s1 more'] eqn:Hr.
      * injection H as <- _. exists r. reflexivity.
      * injection H as <- _. destruct (IH _ _ eq_refl) as [post ->].
        exists post. reflexivity.
Qed.

(** Every segment of a path occurs in it. *)
Lemma segments_occur (seg p : string) :
  In seg (Path.segments p) -> exists pre post, p = pre +:+ seg +:+ post.
Proof.
  revert seg. induction p as [|c r IH]; intros seg H; simpl in H.
  - destruct H as [<-|[]]. exists EmptyString, EmptyString. reflexivity.
  - destruct (Ascii.eqb c "/").
    + destruct H as [<-|H].
      * exists EmptyString, (String c r). reflexivity.
      * destruct (IH _ H) as (pre & post & ->). exists (String c pre), post. reflexivity.
    + destruct (Path.segments r) as [|s1 more] eqn:Hr.
      * destruct H as [<-|[]]. exists EmptyString, r. reflexivity.
      * destruct H as [<-|H].
        -- destruct (segments_head _ _ _ Hr) as [post ->].
           exists EmptyString, post. reflexivity.
        -- destruct (IH seg (or_intror H)) as (pre & post & ->).
           exists (String c pre), post. reflexivity.
Qed.

(** A path with a parent-directory segment contains two dots in a row. *)
Lemma includes_segment (seg p : string) :
  In seg (Path.segments p) -> JS.includes seg p = true.
Proof.
  intros H. destruct (segments_occur _ _ H) as (pre & post & ->).
  apply includes_append.
Qed.

(** The response to a configuration file request, case by case. *)
Lemma handleConfigFileRequest_cases (CONFIG_DIR cwd : string)
    (decodeURIComponent : string -> option string) (pathname : string) (st : State) :
  exists st' response,
    handleConfigFileRequest CONFIG_DIR cwd decodeURIComponent pathname st
      = (st', inr response) /\
    fs st' = fs st /\
    match decodeURIComponent (JS.substringFrom 8 pathname) with
    | None => status response = 500
    | Some requestedPath =>
        if JS.includes ".." requestedPath || JS.includes "\" requestedPath ||
           Path.isAbsolute requestedPath
        then status response = 403
        else
          let fullPath := Path.resolve cwd CONFIG_DIR requestedPath in
          let configDirResolved := Path.resolve1 cwd CONFIG_DIR in
          if negb (JS.startsWith (configDirResolved +:+ "/") fullPath) &&
             negb (String.eqb fullPath configDirResolved)
          then status response = 403
          else
            match fs st !! fullPath with
            | None | Some Directory => status response = 404
            | Some (Broken c) =>
                status response = if bool_decide (c = "ENOENT") then 404 else 500
            | Some (File data t) =>
                response =
                  {| status := 200;
                     headers :=
                       [ ("Content-Type",
                          HText (getContentType (JS.toLowerCase (Path.extname fullPath))));
                         ("Content-Length", HNumber (Z.of_nat (length data)));
                         ("Last-Modified", HDate t);
                         ("Cache-Control", HText "public, max-age=300") ];
                     body := Data data |}
            end
    end.
Proof.
  unfold handleConfigFileRequest, decodeOrThrow.
  destruct (decodeURIComponent (JS.substringFrom 8 pathname)) as [requestedPath|].
  - run_M.
    destruct (JS.includes ".." requestedPath || JS.includes "\" requestedPath ||
              Path.isAbsolute requestedPath).
    { eexists _, _. split; [reflexivity|]. split; reflexivity. }
    cbv zeta.
    destruct (negb (JS.startsWith (Path.resolve1 cwd CONFIG_DIR +:+ "/")
                      (Path.resolve cwd CONFIG_DIR requestedPath)) &&
              negb (String.eqb (Path.resolve cwd CONFIG_DIR requestedPath)
                      (Path.resolve1 cwd CONFIG_DIR))).
    { eexists _, _. split; [reflexivity|]. split; reflexivity. }
    unfold stat, readFile.
    destruct (fs st !! Path.resolve cwd CONFIG_DIR requestedPath) as [[data t| |c]|] eqn:Hfs;
      cbn [isFile negb mtime].
    + rewrite Hfs. eexists _, _. split; [reflexivity|]. split; reflexivity.
    + eexists _, _. split; [reflexivity|]. split; reflexivity.
    + cbn [errno code].
      destruct (bool_decide (c = "ENOENT")) eqn:Hc.
      * rewrite bool_decide_eq_true_2
          by (apply bool_decide_eq_true in Hc; congruence).
        eexists _, _. split; [reflexivity|]. split; reflexivity.
      * rewrite bool_decide_eq_false_2
          by (apply bool_decide_eq_false in Hc; congruence).
        eexists _, _. split; [reflexivity|]. split; reflexivity.
    + eexists _, _. split; [reflexivity|]. split; reflexivity.
  - run_M. eexists _, _. split; [reflexivity|]. split; reflexivity.
Qed.

(** C7 as stated fails: "notes..txt" has no parent-directory segment and no
    backslash, is not absolute, resolves inside the root and names a
    readable file there, and the request for it is answered 403. *)
Lemma config_double_dot_counterexample :
  let requestedPath := "notes..txt" in
  let fullPath := Path.resolve "/app" "/app/kindle-config" requestedPath in
  let st := initialState configDisk 0 in
  plainDecode (JS.substringFrom 8 "/config/notes..txt") = Some requestedPath /\
  ~ In ".." (Path.segments requestedPath) /\
  JS.includes "\" requestedPath = false /\
  Path.isAbsolute requestedPath = false /\
  JS.startsWith (Path.resolve1 "/app" "/app/kindle-config" +:+ "/") fullPath = true /\
  fs st !! fullPath = Some (File (String.list_byte_of_string "notes") 1700000000) /\
  exists st',
    handleConfigFileRequest "/app/kindle-config" "/app" plainDecode
      "/config/notes..txt" st
    = (st', inr (respond 403 "Forbidden: Invalid path")).
Proof.
  split; [reflexivity|]. split.
  { simpl. intros [H|[]]. discriminate H. }
  repeat (split; [reflexivity|]).
  eexists. vm_compute. reflexivity.
Qed.

(** C7, amended: a request under [/config/] is always answered.  It is
    answered 403 when the decoded sub-path contains two dots in a row
    anywhere (so in particular when it has a parent-directory segment), a
    backslash, or is absolute, and when the resolved path is neither the root
    directory nor below it; otherwise 404 when the resolved path is missing
    or is not a regular file; 500 on any other error, a sub-path that cannot
    be decoded included; and 200 for a readable file, with the content type
    of its extension ([.txt] gives [text/plain]), its length, its
    modification time and [Cache-Control: public, max-age=300].  The file
    system is not changed. *)
Theorem config_request_status (CONFIG_DIR cwd : string)
    (decodeURIComponent : string -> option string) (pathname : string) (st : State) :
  (exists st' response,
    handleConfigFileRequest CONFIG_DIR cwd decodeURIComponent pathname st
      = (st', inr response) /\
    fs st' = fs st /\
    match decodeURIComponent (JS.substringFrom 8 pathname) with
    | None => status response = 500
    | Some requestedPath =>
        if JS.includes ".." requestedPath || JS.includes "\" requestedPath ||
           Path.isAbsolute requestedPath
        then status response = 403
        else
          let fullPath := Path.resolve cwd CONFIG_DIR requestedPath in
          let configDirResolved := Path.resolve1 cwd CONFIG_DIR in
          if negb (JS.startsWith (configDirResolved +:+ "/") fullPath) &&
             negb (String.eqb fullPath configDirResolved)
          then status response = 403
          else
            match fs st !! fullPath with
            | None | Some Directory => status response = 404
            | Some (Broken c) =>
                status response = if bool_decide (c = "ENOENT") then 404 else 500
            | Some (File data t) =>
                response =
                  {| status := 200;
                     headers :=
                       [ ("Content-Type",
                          HText (getContentType (JS.toLowerCase (Path.extname fullPath))));
                         ("Content-Length", HNumber (Z.of_nat (length data)));
                         ("Last-Modified", HDate t);
                         ("Cache-Control", HText "public, max-age=300") ];
                     body := Data data |}
            end
    end) /\
  (forall requestedPath,
     In ".." (Path.segments requestedPath) -> JS.includes ".." requestedPath = true) /\
  getContentType ".txt" = "text/plain".
Proof.
  split; [apply handleConfigFileRequest_cases|].
  split; [intros requestedPath; apply includes_segment | reflexivity].
Qed.

Lemma config_request_status_witness :
  let handle := handleConfigFileRequest "/app/kindle-config" "/app" plainDecode in
  let st := initialState configDisk 0 in
  (exists st' response,
     handle "/config/../../etc/passwd" st = (st', inr response) /\
     status response = 403) /\
  (exists st' response,
     handle "/config/readme.txt" st = (st', inr response) /\
     status response = 200 /\
     headers response !! 0%nat = Some ("Content-Type", HText "text/plain") /\
     headers response !! 3%nat = Some ("Cache-Control", HText "public, max-age=300")) /\
  JS.includes ".." "../../etc/passwd" = true.
Proof.
  intros handle st. split; [|split].
  - destruct (config_request_status "/app/kindle-config" "/app" plainDecode
                "/config/../../etc/passwd" st)
      as ((st' & response & Hrun & _ & Hcase) & _).
    exists st', response. split; [exact Hrun | exact Hcase].
  - destruct (config_request_status "/app/kindle-config" "/app" plainDecode
                "/config/readme.txt" st)
      as ((st' & response & Hrun & _ & Hcase) & _).
    exists st', response. split; [exact Hrun|].
    vm_compute in Hcase. rewrite Hcase. repeat split.
  - destruct (config_request_status "/app/kindle-config" "/app" plainDecode
                "/config/readme.txt" st) as (_ & Hseg & _).
    apply Hseg. simpl. left. reflexivity.
Defined.

(** *** The capture sequence *)

Section Capture.

Variable w : World.
Variable i : nat.

Lemma silent_ret : silent (mret tt).
Proof. intros st. exists st. repeat split. Qed.

Lemma silent_log (ev : LogEvent) : silent (log ev).
Proof. intros st. eexists. repeat split. Qed.

Lemma silent_sleep (ms : Z) : silent (modify (addCall (Sleep ms))).
Proof. intros st. eexists. repeat split. Qed.

Lemma silent_bind (m1 m2 : M unit) : silent m1 -> silent m2 -> silent (m1;; m2).
Proof.
  intros H1 H2 st. destruct (H1 st) as (st1 & E1 & F1 & B1 & C1).
  destruct (H2 st1) as (st2 & E2 & F2 & B2 & C2).
  exists st2. run_M. rewrite E1, E2. repeat split; congruence.
Qed.

Lemma sequenceOf_silent (m : M unit) : silent m -> sequenceOf w i [] None m.
Proof.
  intros H st. destruct (H st) as (st' & E & F & B & C).
  exists st'. simpl. auto.
Qed.

Lemma sequenceOf_after_silent (cs : list Call) (write : option (string * bytes))
    (m1 m2 : M unit) :
  silent m1 -> sequenceOf w i cs write m2 -> sequenceOf w i cs write (m1;; m2).
Proof.
  intros H1 H2 st. destruct (H1 st) as (st1 & E1 & F1 & B1 & C1).
  destruct (H2 st1) as (st2 & B2 & C2 & H).
  exists st2. split; [congruence|]. split; [congruence|].
  run_M. rewrite E1.
  destruct (existsb (throws w i) cs).
  - destruct H as [[e E2] F2]. split; [exists e; exact E2 | congruence].
  - destruct H as [E2 F2]. split; [exact E2|]. rewrite F2, F1, C1. reflexivity.
Qed.

Lemma sequenceOf_then_silent (cs : list Call) (write : option (string * bytes))
    (m1 m2 : M unit) :
  sequenceOf w i cs write m1 -> silent m2 -> sequenceOf w i cs write (m1;; m2).
Proof.
  intros H1 H2 st. destruct (H1 st) as (st1 & B1 & C1 & H).
  run_M. destruct (existsb (throws w i) cs).
  - destruct H as [[e E1] F1]. exists st1. rewrite E1. eauto.
  - destruct H as [E1 F1]. destruct (H2 st1) as (st2 & E2 & F2 & B2 & C2).
    exists st2. rewrite E1, E2. repeat split; congruence.
Qed.

Lemma sequenceOf_call (c : Call) (cs : list Call) (write : option (string * bytes))
    (m : M unit) :
  sequenceOf w i cs write m -> sequenceOf w i (c :: cs) write (call w i c;; m).
Proof.
  intros H st. run_M. unfold call. cbn [existsb].
  unfold throws at 1.
  destruct (callFault w i c) as [e|]; cbn [orb].
  - exists st. eauto.
  - destruct (H (addCall c st)) as (st' & B & C & H').
    exists st'. split; [exact B|]. split; [exact C|]. exact H'.
Qed.

Lemma sequenceOf_screenshot (path : string) (clip : Clip) :
  sequenceOf w i [Screenshot path clip] (Some (path, screenshotData w i clip))
    (screenshot w i path clip).
Proof.
  intros st. unfold screenshot. run_M. unfold call. cbn [existsb]. unfold throws.
  destruct (callFault w i (Screenshot path clip)) as [e|]; cbn [orb].
  - exists st. eauto.
  - exists (writeFile path (screenshotData w i clip)
              (addCall (Screenshot path clip) st)).
    repeat split.
Qed.

End Capture.

Lemma sequenceOf_assoc (w : World) (i : nat) (cs : list Call)
    (write : option (string * bytes)) (m1 m2 m3 : M unit) :
  sequenceOf w i cs write (m1;; (m2;; m3)) ->
  sequenceOf w i cs write ((m1;; m2);; m3).
Proof.
  intros H st. destruct (H st) as (st' & B & C & H'). exists st'.
  split; [exact B|]. split; [exact C|].
  assert (E : ((m1;; m2);; m3) st = (m1;; (m2;; m3)) st).
  { run_M. destruct (m1 st) as [s1 [e|[]]]; [reflexivity|].
    destruct (m2 s1) as [s2 [e|[]]]; reflexivity. }
  rewrite E. exact H'.
Qed.

Ltac sequence_step :=
  lazymatch goal with
  | |- sequenceOf _ _ _ _ (mbind _ (mbind _ _)) => apply sequenceOf_assoc
  | |- sequenceOf _ _ _ _ (mbind _ (call _ _ _)) => apply sequenceOf_call
  | |- sequenceOf _ _ _ _ (mbind _ (log _)) =>
      apply sequenceOf_after_silent; [apply silent_log|]
  | |- sequenceOf _ _ _ _ (mbind _ (mret _)) =>
      apply sequenceOf_after_silent; [apply silent_ret|]
  | |- sequenceOf _ _ _ _ (mbind _ (modify _)) =>
      apply sequenceOf_after_silent; [apply silent_sleep|]
  | |- sequenceOf _ _ _ _ (mbind _ (screenshot _ _ _ _)) =>
      apply sequenceOf_then_silent; [apply sequenceOf_screenshot | apply silent_log]
  end.

(** After [newPage], the capture makes its calls in order and stops at the
    first that throws; the screenshot is the only thing it writes. *)
Lemma captureSequence_sequence (config : Config) (w : World) (i : nat)
    (pc : PageConfig) (url path : string) :
  sequenceOf w i (tail (captureCalls config pc url path))
    (Some (path, screenshotData w i (screenshotClip (viewportSize pc))))
    (captureSequence config w i pc url path).
Proof.
  unfold captureSequence, captureCalls.
  destruct (debug config), (renderingDelay pc >? 0); cbn [app tail]; cbv iota;
    repeat sequence_step.
Qed.

(** [renderUrlToImageAsync] never throws; it writes the screenshot to
    [path] when no call of the capture throws, and nothing otherwise. *)
Lemma renderUrlToImageAsync_run (config : Config) (w : World) (i : nat)
    (pc : PageConfig) (url path : string) (st : State) :
  exists st',
    renderUrlToImageAsync config w i pc url path st = (st', inr tt) /\
    batteryStore st' = batteryStore st /\ clock st' = clock st /\
    fs st' =
      if existsb (throws w i) (captureCalls config pc url path)
      then fs st
      else <[path := File (screenshotData w i (screenshotClip (viewportSize pc)))
                          (clock st)]> (fs st).
Proof.
  change (captureCalls config pc url path)
    with (NewPage :: tail (captureCalls config pc url path)).
  cbn [existsb]. unfold renderUrlToImageAsync. unfold call at 1. unfold throws at 1.
  destruct (callFault w i NewPage) as [e|]; cbn [orb].
  - eexists. split; [reflexivity|]. repeat split.
  - destruct (captureSequence_sequence config w i pc url path (addCall NewPage st))
      as (st1 & B1 & C1 & H1).
    assert (Hclose : forall s, exists s',
      (if debug config then mret tt
       else tryCatch (call w i ClosePage)
              (fun closeErr => log (LogCouldNotClosePage url (message closeErr)))) s
      = (s', inr tt) /\ fs s' = fs s /\ batteryStore s' = batteryStore s /\
        clock s' = clock s).
    { intros s. destruct (debug config); [exists s; repeat split|].
      run_M. unfold call. destruct (callFault w i ClosePage);
        eexists; (split; [reflexivity|]); repeat split. }
    run_M. destruct (existsb (throws w i) (tail (captureCalls config pc url path))).
    + destruct H1 as [[e E1] F1]. rewrite E1.
      destruct (Hclose (addLog (LogFailedToRender url (message e)) st1))
        as (s' & E2 & F2 & B2 & C2).
      exists s'. rewrite E2. split; [reflexivity|].
      cbn in *. repeat split; congruence.
    + destruct H1 as [E1 F1]. rewrite E1.
      destruct (Hclose st1) as (s' & E2 & F2 & B2 & C2).
      exists s'. rewrite E2. split; [reflexivity|].
      cbn in *. repeat split; congruence.
Qed.

(** *** One target *)

Lemma length_append (a b : string) :
  String.length (a +:+ b) = (String.length a + String.length b)%nat.
Proof. induction a as [|c a IH]; simpl; [reflexivity | rewrite IH; reflexivity]. Qed.

(** The temporary file is never the artifact itself. *)
Lemma tempPath_not_output (pc : PageConfig) : tempPathOf pc <> outputPathOf pc.
Proof.
  unfold tempPathOf. intros H. apply (f_equal String.length) in H.
  rewrite length_append in H. simpl in H. lia.
Qed.

(** The conversion block of [renderPage], with its [catch]: it never
    throws, and what it does to the files depends on what is found at the
    temporary path. *)
Lemma convertBlock_run (w : World) (i : nat) (pc : PageConfig) (url : string)
    (st : State) :
  exists st',
    tryCatch
      (access (tempPathOf pc);;
       log (LogConverting url);;
       convertImageToKindleCompatiblePngAsync w i pc (tempPathOf pc) (outputPathOf pc);;
       notAwaited (unlink (tempPathOf pc));;
       log (LogFinished url))
      (fun e =>
         log (LogFailedFor url (message e));;
         tryCatch (unlink (tempPathOf pc)) (fun unlinkError => mret tt)) st
    = (st', inr tt) /\
    batteryStore st' = batteryStore st /\ clock st' = clock st /\
    fs st' =
      match fs st !! tempPathOf pc with
      | Some (File input _) =>
          match sharpRun w i (convertPipeline pc) input with
          | inr output =>
              delete (tempPathOf pc)
                (<[outputPathOf pc := File output (clock st)]> (fs st))
          | inl _ => delete (tempPathOf pc) (fs st)
          end
      | _ => fs st
      end.
Proof.
  run_M. run_M. unfold access, convertImageToKindleCompatiblePngAsync, unlink.
  cbn [fs addLog setFs].
  destruct (fs st !! tempPathOf pc) as [[input t| |c]|] eqn:Htemp.
  - cbn [fs addLog]. rewrite Htemp.
    destruct (sharpRun w i (convertPipeline pc) input) as [e|output].
    + cbn [fs addLog]. rewrite Htemp. eexists. split; [reflexivity|]. repeat split.
    + cbn [fs addLog writeFile setFs clock].
      rewrite lookup_insert_ne by (apply not_eq_sym, tempPath_not_output).
      rewrite Htemp. eexists. split; [reflexivity|]. repeat split.
  - cbn [fs addLog]. rewrite Htemp. cbn [fs addLog]. rewrite Htemp.
    eexists. split; [reflexivity|]. repeat split.
  - cbn [fs addLog]. rewrite Htemp.
    eexists. split; [reflexivity|]. repeat split.
  - cbn [fs addLog]. rewrite Htemp.
    eexists. split; [reflexivity|]. repeat split.
Qed.

(** One iteration of the loop, when the output directory can be created:
    it returns, and its effect on the files is [renderPageFs]. *)
(** In an iteration that nothing interrupts, the entry seen after the
    conversion is the entry there was when the iteration began. *)
Lemma entry_by_reference (store : gmap nat Battery) (i : nat) :
  (if bool_decide (is_Some (store !! i)) then store !! i else None) = store !! i.
Proof.
  destruct (store !! i) as [b|] eqn:E.
  - rewrite bool_decide_eq_true_2 by eauto. reflexivity.
  - rewrite bool_decide_eq_false_2; [reflexivity|]. intros [b H]. discriminate H.
Qed.

Lemma renderPage_run (config : Config) (w : World) (i : nat) (pc : PageConfig)
    (st : State) :
  ensureDirSucceeds w ->
  exists st',
    renderPage config w i pc st = (st', inr tt) /\
    batteryStore st' = batteryStore st /\ clock st' = clock st /\
    fs st' = renderPageFs config w i pc (clock st) (fs st).
Proof.
  intros Hdir. unfold renderPage, relayBattery.
  fold (outputPathOf pc). fold (tempPathOf pc).
  unfold mbind at 1, M_bind at 1, getState. unfold mbind at 1, M_bind at 1.
  unfold call. rewrite Hdir.
  unfold mbind at 1, M_bind at 1. unfold log at 1, modify at 1.
  unfold mbind at 1, M_bind at 1.
  destruct (renderUrlToImageAsync_run config w i pc
              (baseUrl config +:+ screenShotUrl pc) (tempPathOf pc)
              (addLog (LogRendering (baseUrl config +:+ screenShotUrl pc))
                 (addCall (EnsureDir (Path.dirname (outputPathOf pc))) st)))
    as (st1 & E1 & B1 & C1 & F1).
  rewrite E1. unfold mbind at 1, M_bind at 1.
  destruct (convertBlock_run w i pc (baseUrl config +:+ screenShotUrl pc) st1)
    as (st2 & E2 & B2 & C2 & F2).
  rewrite E2.
  assert (Hhook : exists st3,
    match (if bool_decide (is_Some (batteryStore st !! i))
           then batteryStore st2 !! i else None), batteryWebHook pc with
    | Some battery, Some hook =>
        if bool_decide (batteryLevel battery <> None) && negb (String.eqb hook EmptyString)
        then sendBatteryLevelToHomeAssistant config i battery hook
        else mret tt
    | _, _ => mret tt
    end st2 = (st3, inr tt) /\
    batteryStore st3 = batteryStore st2 /\ clock st3 = clock st2 /\ fs st3 = fs st2).
  { destruct (if bool_decide (is_Some (batteryStore st !! i))
              then batteryStore st2 !! i else None) as [battery|];
      [|exists st2; repeat split].
    destruct (batteryWebHook pc) as [hook|]; [|exists st2; repeat split].
    destruct (bool_decide (batteryLevel battery <> None) && negb (String.eqb hook EmptyString));
      [|exists st2; repeat split].
    eexists. split; [reflexivity|]. repeat split. }
  destruct Hhook as (st3 & E3 & B3 & C3 & F3).
  exists st3. split; [exact E3|].
  cbn in B1, C1, F1.
  split; [congruence|]. split; [congruence|].
  rewrite F3, F2, C1, F1. unfold renderPageFs, captureThrows, capturedData.
  reflexivity.
Qed.

(** *** The loop over the targets *)

Lemma renderPages_run (config : Config) (w : World) (ps : list PageConfig) :
  ensureDirSucceeds w ->
  forall (k : nat) (st : State),
  exists st',
    renderPages config w k ps st = (st', inr tt) /\
    batteryStore st' = batteryStore st /\ clock st' = clock st /\
    fs st' = renderPagesFs config w k ps (clock st) (fs st).
Proof.
  intros Hdir. induction ps as [|pc ps IH]; intros k st; simpl.
  - exists st. repeat split.
  - destruct (renderPage_run config w k pc st Hdir) as (st1 & E1 & B1 & C1 & F1).
    destruct (IH (S k) st1) as (st2 & E2 & B2 & C2 & F2).
    exists st2. run_M. rewrite E1, E2.
    split; [reflexivity|]. split; [congruence|]. split; [congruence|].
    rewrite F2, F1, C1. reflexivity.
Qed.

(** A whole cycle that has a browser and can create its directories
    returns normally, whatever happens to the single targets. *)
Lemma renderAndConvertAsync_run (config : Config) (w : World) (existing : bool)
    (st : State) :
  ensureDirSucceeds w -> cycleStarts config w existing ->
  exists st',
    renderAndConvertAsync config w existing st = (st', inr tt) /\
    batteryStore st' = batteryStore st /\ clock st' = clock st /\
    fs st' = renderPagesFs config w 0 (pages config) (clock st) (fs st).
Proof.
  intros Hdir Hstart. unfold renderAndConvertAsync.
  assert (Hlaunch : exists st0,
    (if existing then mret tt else launchBrowserAndLogin config w) st = (st0, inr tt) /\
    batteryStore st0 = batteryStore st /\ clock st0 = clock st /\ fs st0 = fs st).
  { destruct existing; [exists st; repeat split|].
    destruct Hstart as [H|H]; [discriminate H|].
    destruct (launchBrowserAndLogin_run config w st) as [session E].
    rewrite H in E. exists (addLogin session st). split; [exact E|]. repeat split. }
  destruct Hlaunch as (st0 & E0 & B0 & C0 & F0).
  unfold mbind, M_bind. rewrite E0.
  destruct (renderPages_run config w (pages config) Hdir 0%nat st0)
    as (st1 & E1 & B1 & C1 & F1).
  rewrite C0, F0 in F1.
  unfold tryFinally. rewrite E1.
  destruct existing.
  - exists st1. repeat split; congruence.
  - unfold closeOwnBrowser. run_M.
    destruct (closeBrowserFault w); eexists; (split; [reflexivity|]);
      cbn [batteryStore clock fs addCall]; repeat split; congruence.
Qed.

(** *** The files after a cycle *)

Lemma renderPageFs_frame (config : Config) (w : World) (i : nat) (pc : PageConfig)
    (now : Z) (files : gmap string Node) (p : string) :
  p <> outputPathOf pc -> p <> tempPathOf pc ->
  renderPageFs config w i pc now files !! p = files !! p.
Proof.
  intros Hout Htemp. unfold renderPageFs.
  set (afterCapture := if captureThrows config w i pc then files
                       else <[tempPathOf pc := _]> files).
  assert (Hafter : afterCapture !! p = files !! p).
  { subst afterCapture. destruct (captureThrows config w i pc); [reflexivity|].
    apply lookup_insert_ne. congruence. }
  destruct (afterCapture !! tempPathOf pc) as [[input t| |c]|]; try exact Hafter.
  destruct (sharpRun w i (convertPipeline pc) input) as [e|output].
  - rewrite lookup_delete_ne by congruence. exact Hafter.
  - rewrite lookup_delete_ne by congruence.
    rewrite lookup_insert_ne by congruence. exact Hafter.
Qed.

Lemma renderPagesFs_frame (config : Config) (w : World) (ps : list PageConfig)
    (now : Z) (p : string) :
  p ∉ touchedPaths ps ->
  forall (k : nat) (files : gmap string Node),
    renderPagesFs config w k ps now files !! p = files !! p.
Proof.
  induction ps as [|pc ps IH]; intros Hp k files; simpl; [reflexivity|].
  unfold touchedPaths in Hp. simpl in Hp.
  rewrite not_elem_of_cons, not_elem_of_app, not_elem_of_cons in Hp.
  destruct Hp as (Hout & Houts & Htemp & Htemps).
  rewrite IH.
  - apply renderPageFs_frame; assumption.
  - unfold touchedPaths. rewrite not_elem_of_app. split; assumption.
Qed.

(** A target whose capture throws with no file at its temporary path, or
    whose conversion fails: no temporary file is left and the artifact is as
    it was. *)
Lemma renderPageFs_failure (config : Config) (w : World) (i : nat) (pc : PageConfig)
    (now : Z) (files : gmap string Node) :
  (captureThrows config w i pc = true /\ files !! tempPathOf pc = None) \/
  (captureThrows config w i pc = false /\ exists e, converted w i pc = inl e) ->
  renderPageFs config w i pc now files !! tempPathOf pc = None /\
  renderPageFs config w i pc now files !! outputPathOf pc = files !! outputPathOf pc.
Proof.
  unfold renderPageFs, converted.
  intros [[-> Htemp] | [-> [e He]]].
  - rewrite Htemp. split; [exact Htemp | reflexivity].
  - rewrite lookup_insert_eq, He.
    rewrite lookup_delete_eq, lookup_delete_ne by apply tempPath_not_output.
    rewrite lookup_insert_ne by apply tempPath_not_output. split; reflexivity.
Qed.

(** A target whose capture and conversion succeed: the artifact is the
    converted screenshot and no temporary file is left. *)
Lemma renderPageFs_success (config : Config) (w : World) (i : nat) (pc : PageConfig)
    (now : Z) (files : gmap string Node) (output : bytes) :
  captureThrows config w i pc = false ->
  converted w i pc = inr output ->
  renderPageFs config w i pc now files !! outputPathOf pc = Some (File output now) /\
  renderPageFs config w i pc now files !! tempPathOf pc = None.
Proof.
  unfold renderPageFs, converted. intros -> He.
  rewrite lookup_insert_eq, He.
  rewrite lookup_delete_eq, lookup_delete_ne by apply tempPath_not_output.
  rewrite lookup_insert_eq. split; reflexivity.
Qed.

Lemma touchedPaths_split (l1 l2 : list PageConfig) (pc : PageConfig) :
  touchedPaths (l1 ++ pc :: l2) ≡ₚ
  outputPathOf pc :: tempPathOf pc :: touchedPaths l1 ++ touchedPaths l2.
Proof.
  unfold touchedPaths. rewrite !map_app. simpl. solve_Permutation.
Qed.

(** In a cycle over targets with separate paths, what is found at the two
    paths of a target afterwards is what its own iteration left there, and
    that iteration found there what the cycle started with. *)
Lemma renderPagesFs_at (config : Config) (w : World) (now : Z)
    (ps : list PageConfig) (i : nat) (pc : PageConfig) :
  ps !! i = Some pc ->
  NoDup (touchedPaths ps) ->
  forall (k : nat) (files : gmap string Node),
  exists before : gmap string Node,
    before !! outputPathOf pc = files !! outputPathOf pc /\
    before !! tempPathOf pc = files !! tempPathOf pc /\
    renderPagesFs config w k ps now files !! outputPathOf pc
      = renderPageFs config w (k + i) pc now before !! outputPathOf pc /\
    renderPagesFs config w k ps now files !! tempPathOf pc
      = renderPageFs config w (k + i) pc now before !! tempPathOf pc.
Proof.
  intros Hi Hnodup k files.
  destruct (list_elem_of_split_length ps i pc Hi) as (l1 & l2 & -> & Hlen).
  rewrite touchedPaths_split in Hnodup.
  apply NoDup_cons in Hnodup as [Hout Hnodup].
  apply NoDup_cons in Hnodup as [Htemp _].
  rewrite not_elem_of_cons, not_elem_of_app in Hout.
  destruct Hout as (_ & Hout1 & Hout2).
  rewrite not_elem_of_app in Htemp. destruct Htemp as [Htemp1 Htemp2].
  assert (Hsplit : forall k files,
    renderPagesFs config w k (l1 ++ pc :: l2) now files =
    renderPagesFs config w (S (k + length l1)) l2 now
      (renderPageFs config w (k + length l1) pc now
         (renderPagesFs config w k l1 now files))).
  { clear. induction l1 as [|q l1 IH]; intros k files; simpl.
    - rewrite Nat.add_0_r. reflexivity.
    - rewrite IH. replace (S k + length l1)%nat with (k + S (length l1))%nat by lia.
      reflexivity. }
  exists (renderPagesFs config w k l1 now files).
  rewrite Hsplit, <- Hlen.
  repeat split.
  - apply renderPagesFs_frame. exact Hout1.
  - apply renderPagesFs_frame. exact Htemp1.
  - apply renderPagesFs_frame. exact Hout2.
  - apply renderPagesFs_frame. exact Htemp2.
Qed.

(** A target that starts without a file at its temporary path ends without
    one, whatever happens to it. *)
Lemma renderPageFs_no_leftover (config : Config) (w : World) (i : nat) (pc : PageConfig)
    (now : Z) (files : gmap string Node) :
  files !! tempPathOf pc = None ->
  renderPageFs config w i pc now files !! tempPathOf pc = None.
Proof.
  intros Htemp. unfold renderPageFs.
  destruct (captureThrows config w i pc).
  - rewrite Htemp. exact Htemp.
  - rewrite lookup_insert_eq.
    destruct (sharpRun w i (convertPipeline pc) (capturedData w i pc));
      apply lookup_delete_eq.
Qed.

(** So a completed cycle that started without leftover temporary files
    leaves none for the next one. *)
Lemma render_cycle_leaves_no_temp (config : Config) (w : World)
    (existingBrowser : bool) (st : State) :
  NoDup (touchedPaths (pages config)) ->
  ensureDirSucceeds w ->
  cycleStarts config w existingBrowser ->
  (forall i pc, pages config !! i = Some pc -> fs st !! tempPathOf pc = None) ->
  forall i pc, pages config !! i = Some pc ->
    fs (renderAndConvertAsync config w existingBrowser st).1 !! tempPathOf pc = None.
Proof.
  intros Hnodup Hdir Hstart Hclean i pc Hi.
  destruct (renderAndConvertAsync_run config w existingBrowser st Hdir Hstart)
    as (st' & Hrun & _ & _ & Hfs).
  rewrite Hrun. cbn [fst]. rewrite Hfs.
  destruct (renderPagesFs_at config w (clock st) (pages config) i pc Hi Hnodup 0%nat (fs st))
    as (before & _ & Htemp & _ & Hafter).
  rewrite Hafter. apply renderPageFs_no_leftover. rewrite Htemp. exact (Hclean i pc Hi).
Qed.

(** *** Failures stay with their target *)

(** The capture sequence never lets an exception out. *)
Lemma renderUrlToImageAsync_never_throws (config : Config) (w : World) (i : nat)
    (pc : PageConfig) (url path : string) (st : State) :
  (renderUrlToImageAsync config w i pc url path st).2 = inr tt.
Proof.
  destruct (renderUrlToImageAsync_run config w i pc url path st) as (st' & -> & _).
  reflexivity.
Qed.

(** Where nothing stands at the temporary paths, a failure stays with its
    target: in a cycle over targets with pairwise separate artifact and temporary paths,
    that has a browser and can create its output directories, let target
    [i] fail: its capture throws while no file is present at its temporary
    path, or its conversion fails.  Then the cycle returns normally; no
    temporary file of target [i] is left; its previous artifact is
    unchanged; and every target whose capture and conversion succeed has
    the converted screenshot as artifact and no temporary file left.
    Whatever the calls do, no exception leaves the capture sequence of a
    target. *)
Theorem render_cycle_isolates_failures (config : Config) (w : World)
    (existingBrowser : bool) (st : State) (i : nat) (pc : PageConfig) :
  pages config !! i = Some pc ->
  NoDup (touchedPaths (pages config)) ->
  ensureDirSucceeds w ->
  cycleStarts config w existingBrowser ->
  (captureThrows config w i pc = true /\ fs st !! tempPathOf pc = None) \/
  (captureThrows config w i pc = false /\ exists e, converted w i pc = inl e) ->
  (exists st',
     renderAndConvertAsync config w existingBrowser st = (st', inr tt) /\
     fs st' !! tempPathOf pc = None /\
     fs st' !! outputPathOf pc = fs st !! outputPathOf pc /\
     forall (j : nat) (pj : PageConfig) (output : bytes),
       pages config !! j = Some pj ->
       captureThrows config w j pj = false ->
       converted w j pj = inr output ->
       fs st' !! outputPathOf pj = Some (File output (clock st)) /\
       fs st' !! tempPathOf pj = None) /\
  (forall (j : nat) (pj : PageConfig) (url path : string) (st0 : State),
     (renderUrlToImageAsync config w j pj url path st0).2 = inr tt).
Proof.
  intros Hi Hnodup Hdir Hstart Hfail.
  split; [|intros; apply renderUrlToImageAsync_never_throws].
  destruct (renderAndConvertAsync_run config w existingBrowser st Hdir Hstart)
    as (st' & Hrun & _ & _ & Hfs).
  exists st'. split; [exact Hrun|]. rewrite Hfs.
  destruct (renderPagesFs_at config w (clock st) (pages config) i pc Hi Hnodup 0%nat (fs st))
    as (before & Hout & Htemp & Hout' & Htemp').
  cbn [Nat.add] in Hout', Htemp'.
  assert (Hfail' :
    (captureThrows config w i pc = true /\ before !! tempPathOf pc = None) \/
    (captureThrows config w i pc = false /\ exists e, converted w i pc = inl e)).
  { destruct Hfail as [[H1 H2]|H]; [left | right; exact H].
    split; [exact H1 | congruence]. }
  destruct (renderPageFs_failure config w i pc (clock st) before Hfail') as [Ht Ho].
  split; [congruence|]. split; [congruence|].
  intros j pj output Hj Hcap Hconv.
  destruct (renderPagesFs_at config w (clock st) (pages config) j pj Hj Hnodup 0%nat (fs st))
    as (beforej & _ & _ & Houtj & Htempj).
  cbn [Nat.add] in Houtj, Htempj.
  destruct (renderPageFs_success config w j pj (clock st) beforej output Hcap Hconv)
    as [Ho' Ht'].
  split; congruence.
Qed.

Lemma render_cycle_isolates_failures_witness :
  let st := initialState earlierDisk 1700000100 in
  exists st',
    renderAndConvertAsync threeTargets (flakyWorld 1) false st = (st', inr tt) /\
    fs st' !! "output/b.png.temp" = None /\
    fs st' !! "output/b.png" = Some (File (String.list_byte_of_string "old-b") 1700000000) /\
    fs st' !! "output/a.png" = Some (File [Byte.x00] 1700000100) /\
    fs st' !! "output/c.png" = Some (File [Byte.x02] 1700000100).
Proof.
  intros st.
  assert (Hnodup : NoDup (touchedPaths (pages threeTargets))).
  { apply (bool_decide_unpack _). vm_compute. exact I. }
  destruct (render_cycle_isolates_failures threeTargets (flakyWorld 1) false st 1
              (defaultPage "/lovelace/b" "output/b") eq_refl Hnodup
              (fun _ _ => eq_refl) (or_intror eq_refl)
              (or_introl (conj eq_refl eq_refl)))
    as [(st' & Hrun & Htemp & Hout & Hothers) _].
  exists st'. split; [exact Hrun|]. split; [exact Htemp|]. split; [exact Hout|].
  split.
  - exact (proj1 (Hothers 0%nat (defaultPage "/lovelace/a" "output/a") [Byte.x00]
                    eq_refl eq_refl eq_refl)).
  - exact (proj1 (Hothers 2%nat (defaultPage "/lovelace/c" "output/c") [Byte.x02]
                    eq_refl eq_refl eq_refl)).
Defined.

(** ** Further properties of the sources *)

(** *** The request listener *)

Lemma sameDisk_refl (st : State) : sameDisk st st.
Proof. repeat split. Qed.

Lemma sameDisk_trans (a b c : State) : sameDisk a b -> sameDisk b c -> sameDisk a c.
Proof. unfold sameDisk. intros (? & ? & ?) (? & ? & ?). repeat split; congruence. Qed.

Ltac same_disk := intros; unfold sameDisk; repeat split.

Lemma logAll_keeps_disk (events : list LogEvent) : keeps sameDisk (logAll events).
Proof. intros st. rewrite logAll_run. same_disk. Qed.

Lemma pageBatteryEntry_keeps_disk (i : nat) : keeps sameDisk (pageBatteryEntry i).
Proof.
  intros st. unfold pageBatteryEntry.
  destruct (batteryStore st !! i); same_disk.
Qed.

Ltac keeps_disk :=
  repeat first
    [ apply logAll_keeps_disk
    | apply pageBatteryEntry_keeps_disk
    | keeps_step sameDisk_refl sameDisk_trans
    | apply keeps_log; same_disk
    | apply keeps_modify; same_disk ].

Lemma handleImageRequest_keeps_disk (config : Config) (request : Request) :
  keeps sameDisk (handleImageRequest config request).
Proof.
  unfold handleImageRequest, lookupPage, storeBattery. keeps_disk.
Qed.

Lemma handleConfigFileRequest_keeps_disk (CONFIG_DIR cwd : string)
    (decodeURIComponent : string -> option string) (pathname : string) :
  keeps sameDisk (handleConfigFileRequest CONFIG_DIR cwd decodeURIComponent pathname).
Proof.
  unfold handleConfigFileRequest, decodeOrThrow. keeps_disk.
Qed.

(** X1: serving is read-only: whatever the request and however it is answered,
    the request listener leaves every file, the clock and the record of
    external calls untouched (it makes no external call at all). *)
Theorem httpServer_is_read_only (config : Config) (CONFIG_DIR cwd : string)
    (decodeURIComponent : string -> option string) (request : Request) (st : State) :
  let st' := (httpServer config CONFIG_DIR cwd decodeURIComponent request st).1 in
  fs st' = fs st /\ calls st' = calls st /\ clock st' = clock st.
Proof.
  unfold httpServer. destruct (JS.startsWith "/config/" (pathname request)).
  - apply handleConfigFileRequest_keeps_disk.
  - apply handleImageRequest_keeps_disk.
Qed.

(** The listener once the URL is parsed: it answers, image requests with
    200, 400 or 404, requests under [/config/] with 200, 403, 404 or 500. *)
Lemma httpServer_responds (config : Config) (CONFIG_DIR cwd : string)
    (decodeURIComponent : string -> option string) (request : Request) (st : State) :
  exists st' response,
    httpServer config CONFIG_DIR cwd decodeURIComponent request st = (st', inr response) /\
    if JS.startsWith "/config/" (pathname request)
    then status response = 200 \/ status response = 403 \/
         status response = 404 \/ status response = 500
    else status response = 200 \/ status response = 400 \/ status response = 404.
Proof.
  unfold httpServer. destruct (JS.startsWith "/config/" (pathname request)).
  - destruct (handleConfigFileRequest_cases CONFIG_DIR cwd decodeURIComponent
                (pathname request) st) as (st' & response & Hrun & _ & Hcase).
    exists st', response. split; [exact Hrun|].
    destruct (decodeURIComponent (JS.substringFrom 8 (pathname request)))
      as [requestedPath|]; [|auto].
    destruct (JS.includes ".." requestedPath || JS.includes "\" requestedPath ||
              Path.isAbsolute requestedPath); [auto|].
    cbv zeta in Hcase.
    destruct (negb _ && negb _); [auto|].
    destruct (fs st !! Path.resolve cwd CONFIG_DIR requestedPath) as [[data t| |c]|];
      [subst response; auto | auto | | auto].
    destruct (bool_decide (c = "ENOENT")); auto.
  - destruct (handleImageRequest_cases config request st)
      as (st' & response & Hrun & Hcase).
    exists st', response. split; [exact Hrun|].
    destruct (pageNumberOf request) as [n|]; [|auto].
    destruct ((n <? 1) || (n >? Z.of_nat (length (pages config)))); [auto|].
    destruct (negb (JS.isFinite (Some n))); [auto|].
    destruct Hcase as (p & _ & Hcase).
    destruct (fs st !! outputPathOf p) as [[data t| |c]|];
      [subst response; auto | auto..].
Qed.

(** X2: what the listener does with a request.  When [new URL] refuses the
    target or the host header, its exception leaves the listener: nothing
    is written to the response, nothing is logged, and the state is as it
    was.  Every other request is answered and no exception leaves the
    listener: image requests with 200, 400 or 404, requests under
    [/config/] with 200, 403, 404 or 500. *)
Theorem listener_answers_parsed_requests (config : Config) (CONFIG_DIR cwd : string)
    (decodeURIComponent : string -> option string)
    (newURL : string -> string -> option Request)
    (url : string) (host : option string) (st : State) :
  let listener := requestListener config CONFIG_DIR cwd decodeURIComponent newURL in
  match newURL url ("http://" +:+ default "undefined" host) with
  | None => listener url host st = (st, inl invalidURL)
  | Some request =>
      exists st' response,
        listener url host st = (st', inr response) /\
        if JS.startsWith "/config/" (pathname request)
        then status response = 200 \/ status response = 403 \/
             status response = 404 \/ status response = 500
        else status response = 200 \/ status response = 400 \/ status response = 404
  end.
Proof.
  cbv zeta. unfold requestListener.
  destruct (newURL url ("http://" +:+ default "undefined" host)) as [request|];
    [|reflexivity].
  apply httpServer_responds.
Qed.

Example listener_throws_on_double_slash :
  let listener := requestListener oneTarget "config" "/app" plainDecode sampleURL in
  let st := initialState renderedDisk 1700000000 in
  listener "//" (Some "kindle.local:5000") st = (st, inl invalidURL) /\
  (listener "/1" (Some "kindle.local:5000") st).2 =
    inr {| status := 200;
           headers := [ ("Content-Type", HText "image/png");
                        ("Content-Length", HNumber 3);
                        ("Last-Modified", HDate 1700000000) ];
           body := Data (String.list_byte_of_string "PNG") |}.
Proof. split; reflexivity. Qed.

(** *** Configuration files stay inside their directory *)

(** X3: a request under [/config/] that is answered 200 was decoded to a
    relative sub-path, its resolved path is the root directory or lies below
    it, and the body is the content of the file at that path, with the
    modification time of that file. *)
Theorem config_file_served_from_root (CONFIG_DIR cwd : string)
    (decodeURIComponent : string -> option string) (pathname : string)
    (st st' : State) (response : Response) :
  handleConfigFileRequest CONFIG_DIR cwd decodeURIComponent pathname st
    = (st', inr response) ->
  status response = 200 ->
  exists requestedPath data t,
    decodeURIComponent (JS.substringFrom 8 pathname) = Some requestedPath /\
    Path.isAbsolute requestedPath = false /\
    (forall seg, In seg (Path.segments requestedPath) -> seg <> "..") /\
    let fullPath := Path.resolve cwd CONFIG_DIR requestedPath in
    let root := Path.resolve1 cwd CONFIG_DIR in
    (JS.startsWith (root +:+ "/") fullPath = true \/ fullPath = root) /\
    fs st !! fullPath = Some (File data t) /\
    body response = Data data /\
    In ("Last-Modified", HDate t) (headers response).
Proof.
  intros Hrun H200.
  destruct (handleConfigFileRequest_cases CONFIG_DIR cwd decodeURIComponent pathname st)
    as (st1 & response1 & Hrun1 & _ & Hcase).
  rewrite Hrun in Hrun1. injection Hrun1 as <- <-.
  destruct (decodeURIComponent (JS.substringFrom 8 pathname)) as [requestedPath|];
    [|rewrite Hcase in H200; discriminate H200].
  destruct (JS.includes ".." requestedPath) eqn:Hdots;
    [rewrite Hcase in H200; discriminate H200|].
  destruct (JS.includes "\" requestedPath);
    [rewrite Hcase in H200; discriminate H200|].
  destruct (Path.isAbsolute requestedPath) eqn:Habs;
    [rewrite Hcase in H200; discriminate H200|].
  cbn [orb] in Hcase. cbv zeta in Hcase.
  destruct (JS.startsWith _ _) eqn:Hprefix; cbn [negb andb] in Hcase.
  - destruct (fs st !! Path.resolve cwd CONFIG_DIR requestedPath) as [[data t| |c]|] eqn:Hfs;
      try (rewrite Hcase in H200; discriminate H200).
    + exists requestedPath, data, t. subst response. cbn.
      repeat split; auto.
      intros seg Hin ->. apply includes_segment in Hin.
      rewrite Hin in Hdots. discriminate Hdots.
    + destruct (bool_decide (c = "ENOENT")); rewrite Hcase in H200; discriminate H200.
  - destruct (String.eqb_spec (Path.resolve cwd CONFIG_DIR requestedPath)
                (Path.resolve1 cwd CONFIG_DIR)) as [Heq|Hne]; cbn [negb] in Hcase;
      [|rewrite Hcase in H200; discriminate H200].
    destruct (fs st !! Path.resolve cwd CONFIG_DIR requestedPath) as [[data t| |c]|] eqn:Hfs;
      try (rewrite Hcase in H200; discriminate H200).
    + exists requestedPath, data, t. subst response. cbn.
      repeat split; auto.
      intros seg Hin ->. apply includes_segment in Hin.
      rewrite Hin in Hdots. discriminate Hdots.
    + destruct (bool_decide (c = "ENOENT")); rewrite Hcase in H200; discriminate H200.
Qed.

Lemma config_file_served_from_root_witness :
  exists requestedPath data t,
    plainDecode (JS.substringFrom 8 "/config/readme.txt") = Some requestedPath /\
    Path.isAbsolute requestedPath = false /\
    (forall seg, In seg (Path.segments requestedPath) -> seg <> "..") /\
    (JS.startsWith (Path.resolve1 "/app" "/app/kindle-config" +:+ "/")
       (Path.resolve "/app" "/app/kindle-config" requestedPath) = true \/
     Path.resolve "/app" "/app/kindle-config" requestedPath
       = Path.resolve1 "/app" "/app/kindle-config") /\
    fs (initialState configDisk 0) !! Path.resolve "/app" "/app/kindle-config" requestedPath
      = Some (File data t) /\
    data = String.list_byte_of_string "hello".
Proof.
  destruct (handleConfigFileRequest "/app/kindle-config" "/app" plainDecode
              "/config/readme.txt" (initialState configDisk 0)) as [st' [e|response]] eqn:Hrun;
    [vm_compute in Hrun; discriminate Hrun|].
  assert (H200 : status response = 200).
  { vm_compute in Hrun. injection Hrun as _ <-. reflexivity. }
  destruct (config_file_served_from_root _ _ _ _ _ _ _ Hrun H200)
    as (requestedPath & data & t & Hdec & Habs & Hseg & Hin & Hfs & Hbody & _).
  exists requestedPath, data, t. repeat split; try assumption.
  vm_compute in Hrun. injection Hrun as _ <-. cbn in Hbody.
  injection Hbody as <-. reflexivity.
Defined.

(** *** What ends a render cycle, and what a cycle posts *)

Lemma samePosts_refl (st : State) : samePosts st st.
Proof. reflexivity. Qed.

Lemma samePosts_trans (a b c : State) : samePosts a b -> samePosts b c -> samePosts a c.
Proof. unfold samePosts. congruence. Qed.

Lemma posts_addCall (c : Call) (st : State) :
  posts (addCall c st) = posts st ++ (if isPost c then [c] else []).
Proof.
  unfold posts, addCall. cbn [calls]. rewrite List.filter_app. cbn [List.filter].
  destruct (isPost c); reflexivity.
Qed.

Ltac same_posts :=
  intros; unfold samePosts;
  first [ reflexivity
        | rewrite posts_addCall; cbn [isPost]; apply app_nil_r ].

Ltac keeps_posts :=
  repeat first
    [ keeps_step samePosts_refl samePosts_trans
    | apply keeps_log; same_posts
    | apply keeps_call; same_posts
    | apply keeps_unlink; same_posts
    | apply keeps_modify; same_posts ].

Lemma renderUrlToImageAsync_keeps_posts (config : Config) (w : World)
    (i : nat) (pc : PageConfig) (url path : string) :
  keeps samePosts (renderUrlToImageAsync config w i pc url path).
Proof.
  intros st. unfold renderUrlToImageAsync.
  pose proof (keeps_call samePosts samePosts_refl w i NewPage
                ltac:(same_posts) st) as H0.
  destruct (call w i NewPage st) as [st1 [e|[]]]; simpl in H0.
  - eapply samePosts_trans; [exact H0|].
    apply keeps_log; same_posts.
  - eapply samePosts_trans; [exact H0|].
    clear H0. revert st1.
    change (keeps samePosts
      (tryCatch (captureSequence config w i pc url path)
                (fun e => log (LogFailedToRender url (message e)));;
       (if debug config then mret tt
        else tryCatch (call w i ClosePage)
               (fun closeErr => log (LogCouldNotClosePage url (message closeErr)))))).
    unfold captureSequence, screenshot. keeps_posts.
Qed.

Lemma convert_keeps_posts (w : World) (i : nat) (pc : PageConfig) (a b : string) :
  keeps samePosts (convertImageToKindleCompatiblePngAsync w i pc a b).
Proof.
  intros st. unfold convertImageToKindleCompatiblePngAsync.
  destruct (fs st !! a) as [[input t| |c]|]; try reflexivity.
  destruct (sharpRun w i (convertPipeline pc) input); reflexivity.
Qed.

Lemma convertBlock_keeps_posts (w : World) (i : nat) (pc : PageConfig) (url : string) :
  keeps samePosts
    (tryCatch
      (access (tempPathOf pc);;
       log (LogConverting url);;
       convertImageToKindleCompatiblePngAsync w i pc (tempPathOf pc) (outputPathOf pc);;
       notAwaited (unlink (tempPathOf pc));;
       log (LogFinished url))
      (fun e =>
         log (LogFailedFor url (message e));;
         tryCatch (unlink (tempPathOf pc)) (fun unlinkError => mret tt))).
Proof. keeps_posts. apply convert_keeps_posts. Qed.

(** One iteration, whatever the world does: when the directory cannot be
    created it throws at once and changes nothing; otherwise it returns,
    its effect on the files is [renderPageFs], and it has made exactly the
    post [relayOf] of its target. *)
Lemma renderPage_outcome (config : Config) (w : World) (i : nat) (pc : PageConfig)
    (st : State) :
  match dirFault w i pc with
  | Some e => renderPage config w i pc st = (st, inl e)
  | None =>
      exists st',
        renderPage config w i pc st = (st', inr tt) /\
        batteryStore st' = batteryStore st /\ clock st' = clock st /\
        fs st' = renderPageFs config w i pc (clock st) (fs st) /\
        posts st' = posts st ++ relayOf config (batteryStore st) i pc
  end.
Proof.
  unfold dirFault.
  destruct (callFault w i (EnsureDir (Path.dirname (outputPathOf pc)))) as [e|] eqn:Hdir;
    unfold renderPage, relayBattery; fold (outputPathOf pc); fold (tempPathOf pc);
    unfold mbind at 1, M_bind at 1, getState; unfold mbind at 1, M_bind at 1;
    unfold call; rewrite Hdir; [reflexivity|].
  unfold mbind at 1, M_bind at 1. unfold log at 1, modify at 1.
  unfold mbind at 1, M_bind at 1.
  pose (url := baseUrl config +:+ screenShotUrl pc).
  pose (s0 := addLog (LogRendering url)
               (addCall (EnsureDir (Path.dirname (outputPathOf pc))) st)).
  assert (P0 : posts s0 = posts st).
  { subst s0. unfold posts. cbn [calls addLog addCall].
    rewrite List.filter_app. cbn. apply app_nil_r. }
  change (baseUrl config +:+ screenShotUrl pc) with url.
  change (addLog (LogRendering url)
            (addCall (EnsureDir (Path.dirname (outputPathOf pc))) st)) with s0.
  destruct (renderUrlToImageAsync_run config w i pc url (tempPathOf pc) s0)
    as (st1 & E1 & B1 & C1 & F1).
  pose proof (renderUrlToImageAsync_keeps_posts config w i pc url (tempPathOf pc) s0) as P1.
  rewrite E1 in P1. cbn [fst] in P1.
  rewrite E1. unfold mbind at 1, M_bind at 1.
  destruct (convertBlock_run w i pc url st1) as (st2 & E2 & B2 & C2 & F2).
  pose proof (convertBlock_keeps_posts w i pc url st1) as P2.
  rewrite E2 in P2. cbn [fst] in P2.
  rewrite E2.
  assert (Hsame : batteryStore st2 = batteryStore st).
  { rewrite B2, B1. reflexivity. }
  assert (Hhook : exists st3,
    match (if bool_decide (is_Some (batteryStore st !! i))
           then batteryStore st2 !! i else None), batteryWebHook pc with
    | Some battery, Some hook =>
        if bool_decide (batteryLevel battery <> None) && negb (String.eqb hook EmptyString)
        then sendBatteryLevelToHomeAssistant config i battery hook
        else mret tt
    | _, _ => mret tt
    end st2 = (st3, inr tt) /\
    batteryStore st3 = batteryStore st2 /\ clock st3 = clock st2 /\ fs st3 = fs st2 /\
    posts st3 = posts st2 ++ relayOf config (batteryStore st) i pc).
  { replace (if bool_decide (is_Some (batteryStore st !! i))
             then batteryStore st2 !! i else None) with (batteryStore st !! i)
      by (rewrite Hsame; symmetry; apply entry_by_reference).
    unfold relayOf.
    destruct (batteryStore st !! i) as [battery|];
      [|exists st2; rewrite app_nil_r; repeat split].
    destruct (batteryWebHook pc) as [hook|];
      [|exists st2; rewrite app_nil_r; repeat split].
    destruct (bool_decide (batteryLevel battery <> None) &&
              negb (String.eqb hook EmptyString));
      [|exists st2; rewrite app_nil_r; repeat split].
    eexists. split; [reflexivity|]. repeat split.
    unfold sendBatteryLevelToHomeAssistant, modify. cbn [fst].
    apply posts_addCall. }
  destruct Hhook as (st3 & E3 & B3 & C3 & F3 & P3).
  exists st3. split; [exact E3|].
  subst s0. cbn in B1, C1, F1.
  split; [congruence|]. split; [congruence|]. split.
  - rewrite F3, F2, C1, F1. unfold renderPageFs, captureThrows, capturedData.
    reflexivity.
  - rewrite P3. unfold samePosts in P1, P2. congruence.
Qed.

Lemma renderPages_outcome (config : Config) (w : World) (ps : list PageConfig) :
  forall (k : nat) (st : State),
  exists st',
    renderPages config w k ps st =
      (st', match firstDirFault w k ps with Some e => inl e | None => inr tt end) /\
    batteryStore st' = batteryStore st /\ clock st' = clock st /\
    fs st' = renderPagesFs config w k (renderedPrefix w k ps) (clock st) (fs st) /\
    posts st' = posts st ++ relaysOf config (batteryStore st) k (renderedPrefix w k ps).
Proof.
  induction ps as [|pc ps IH]; intros k st; simpl.
  - exists st. rewrite app_nil_r. repeat split.
  - pose proof (renderPage_outcome config w k pc st) as H1.
    destruct (dirFault w k pc) as [e|].
    + exists st. run_M. rewrite H1. rewrite app_nil_r. repeat split.
    + destruct H1 as (st1 & E1 & B1 & C1 & F1 & P1).
      destruct (IH (S k) st1) as (st2 & E2 & B2 & C2 & F2 & P2).
      exists st2. run_M. rewrite E1, E2.
      split; [reflexivity|]. split; [congruence|]. split; [congruence|]. split.
      * simpl. rewrite F2, C1, F1. reflexivity.
      * simpl. rewrite P2, P1, B1. symmetry. apply app_assoc.
Qed.


Lemma posts_addLogin (session : Login.Session) (st : State) :
  posts (addLogin session st) = posts st.
Proof.
  unfold posts, addLogin. cbn [calls]. rewrite List.filter_app.
  induction (Login.steps session) as [|step steps IH]; [apply app_nil_r|exact IH].
Qed.

(** A whole cycle, whatever the world does. *)
Lemma renderAndConvertAsync_outcome (config : Config) (w : World) (existing : bool)
    (st : State) :
  match (if existing then None else launchFault config w) with
  | Some e =>
      renderAndConvertAsync config w existing st =
        (addLogin (Login.launchBrowserAndLogin config (loginFaults w) Login.start).1 st,
         inl e)
  | None =>
      exists st',
        renderAndConvertAsync config w existing st =
          (st', match firstDirFault w 0 (pages config) with
                | Some e => inl e
                | None => inr tt
                end) /\
        batteryStore st' = batteryStore st /\ clock st' = clock st /\
        fs st' = renderPagesFs config w 0 (renderedPrefix w 0 (pages config))
                   (clock st) (fs st) /\
        posts st' = posts st ++
                    relaysOf config (batteryStore st) 0
                      (renderedPrefix w 0 (pages config)) /\
        (existing = false -> last (calls st') = Some (Sleep 1000))
  end.
Proof.
  unfold renderAndConvertAsync.
  destruct existing.
  - destruct (renderPages_outcome config w (pages config) 0%nat st)
      as (st1 & E1 & B1 & C1 & F1 & P1).
    exists st1. unfold mbind, M_bind, mret, M_ret, tryFinally. rewrite E1.
    split; [destruct (firstDirFault w 0 (pages config)); reflexivity|].
    repeat split; try assumption. discriminate.
  - unfold launchFault, launchBrowserAndLogin.
    destruct (Login.launchBrowserAndLogin config (loginFaults w) Login.start)
      as [session [e|[]]]; [reflexivity|].
    cbn [snd]. unfold mbind at 1, M_bind at 1.
    destruct (renderPages_outcome config w (pages config) 0%nat (addLogin session st))
      as (st1 & E1 & B1 & C1 & F1 & P1).
    rewrite posts_addLogin in P1. cbn [batteryStore clock fs addLogin] in B1, C1, F1, P1.
    unfold tryFinally. rewrite E1. unfold closeOwnBrowser. run_M.
    destruct (closeBrowserFault w);
      (eexists; split;
       [destruct (firstDirFault w 0 (pages config)); reflexivity|]);
      cbn [batteryStore clock fs addCall];
      (split; [assumption|]); (split; [assumption|]); (split; [assumption|]);
      (split; [rewrite !posts_addCall; cbn [isPost]; rewrite ?app_nil_r; assumption|]);
      intros _; cbn [calls addCall]; rewrite ?app_assoc; apply last_snoc.
Qed.

(** *** A file left at the temporary path *)

(** C2: the code fails the claim, and the comment above its own test
    ("check if the temp file was actually created"), where a file already
    stands at the temporary path of a target whose capture throws.  The
    iteration tells a capture that succeeded from one that failed by
    [fs.access(tempPath)] alone: once the output directory exists, the file
    found there is converted although this cycle did not create it, and
    when the conversion returns, its result replaces the previous artifact
    of the target, under the time of this cycle; the iteration returns
    normally and the temporary file is gone. *)
Theorem failed_capture_converts_leftover_temp (config : Config) (w : World) (i : nat)
    (pc : PageConfig) (st : State) (stale : bytes) (t : Z) (output : bytes) :
  dirFault w i pc = None ->
  captureThrows config w i pc = true ->
  fs st !! tempPathOf pc = Some (File stale t) ->
  sharpRun w i (convertPipeline pc) stale = inr output ->
  exists st',
    renderPage config w i pc st = (st', inr tt) /\
    fs st' !! outputPathOf pc = Some (File output (clock st)) /\
    fs st' !! tempPathOf pc = None.
Proof.
  intros Hdir Hcapture Hstale Hconvert.
  pose proof (renderPage_outcome config w i pc st) as H. rewrite Hdir in H.
  destruct H as (st' & Hrun & _ & _ & Hfs & _).
  exists st'. split; [exact Hrun|]. rewrite Hfs.
  unfold renderPageFs. rewrite Hcapture, Hstale, Hconvert.
  rewrite lookup_delete_eq, lookup_delete_ne by apply tempPath_not_output.
  rewrite lookup_insert_eq. split; reflexivity.
Qed.

Lemma failed_capture_converts_leftover_temp_witness :
  let st := initialState leftoverDisk 1700000100 in
  let pc := defaultPage "/lovelace/0" "output/cover" in
  exists st',
    renderPage oneTarget (flakyWorld 0) 0 pc st = (st', inr tt) /\
    fs st' !! outputPathOf pc
      = Some (File (String.list_byte_of_string "stale") 1700000100) /\
    fs st' !! tempPathOf pc = None.
Proof.
  intros st pc.
  assert (Hdir : dirFault (flakyWorld 0) 0 pc = None) by reflexivity.
  assert (Hcapture : captureThrows oneTarget (flakyWorld 0) 0 pc = true)
    by (vm_compute; reflexivity).
  assert (Hstale : fs st !! tempPathOf pc
                   = Some (File (String.list_byte_of_string "stale") 1700000000))
    by (vm_compute; reflexivity).
  assert (Hconvert : sharpRun (flakyWorld 0) 0 (convertPipeline pc)
                       (String.list_byte_of_string "stale")
                     = inr (String.list_byte_of_string "stale")) by reflexivity.
  exact (failed_capture_converts_leftover_temp oneTarget (flakyWorld 0) 0 pc st
           (String.list_byte_of_string "stale") 1700000000
           (String.list_byte_of_string "stale") Hdir Hcapture Hstale Hconvert).
Defined.

(** The same in a whole cycle: a temporary file was left behind at the
    temporary path of the only target (by an interrupted earlier run, or by
    a removal that failed), the navigation of the target times out, and the
    leftover replaces the artifact. *)
Example leftover_temp_replaces_artifact :
  let st := initialState leftoverDisk 1700000100 in
  let pc := defaultPage "/lovelace/0" "output/cover" in
  pages oneTarget !! 0%nat = Some pc /\
  captureThrows oneTarget (flakyWorld 0) 0 pc = true /\
  exists st',
    renderAndConvertAsync oneTarget (flakyWorld 0) false st = (st', inr tt) /\
    fs st !! outputPathOf pc
      = Some (File (String.list_byte_of_string "old") 1700000000) /\
    fs st' !! outputPathOf pc
      = Some (File (String.list_byte_of_string "stale") 1700000100) /\
    fs st' !! outputPathOf pc <> fs st !! outputPathOf pc.
Proof.
  split; [reflexivity|]. split; [reflexivity|].
  eexists. split; [vm_compute; reflexivity|].
  split; [reflexivity|]. split; [reflexivity | discriminate].
Qed.

Lemma renderedPrefix_touched (w : World) (ps : list PageConfig) (p : string) :
  p ∉ touchedPaths ps -> forall k, p ∉ touchedPaths (renderedPrefix w k ps).
Proof.
  induction ps as [|pc ps IH]; intros Hp k; simpl; [exact Hp|].
  destruct (dirFault w k pc); [unfold touchedPaths; simpl; apply not_elem_of_nil|].
  unfold touchedPaths in *. simpl in *.
  rewrite not_elem_of_cons, not_elem_of_app, not_elem_of_cons in Hp.
  destruct Hp as (Hout & Houts & Htemp & Htemps).
  assert (Hrest : p ∉ map outputPathOf ps ++ map tempPathOf ps)
    by (rewrite not_elem_of_app; split; assumption).
  specialize (IH Hrest (S k)). rewrite not_elem_of_app in IH. destruct IH as [I1 I2].
  rewrite not_elem_of_cons, not_elem_of_app, not_elem_of_cons. tauto.
Qed.

Lemma renderedPrefix_all (w : World) (ps : list PageConfig) :
  ensureDirSucceeds w -> forall k, renderedPrefix w k ps = ps.
Proof.
  intros Hdir. induction ps as [|pc ps IH]; intros k; simpl; [reflexivity|].
  unfold dirFault. rewrite Hdir. f_equal. apply IH.
Qed.


Example login_failure_leaves_browser :
  let w := {| loginFaults := Login.redirecting 3;
              callFault := fun _ _ => None;
              screenshotData := fun _ _ => [];
              sharpRun := fun _ _ input => inr input;
              closeBrowserFault := None |} in
  renderAndConvertAsync oneTarget w false (initialState renderedDisk 1700000000) =
    ({| fs := renderedDisk; batteryStore := ∅;
        console := map LogLogin
                     [ Login.StartingBrowser; Login.Visiting "http://ha:8123";
                       Login.AddingAuthentication;
                       Login.Interrupted 1; Login.Interrupted 2 ];
        calls := map LoginCall
                   [ Login.Launch "en" true; Login.NewPage;
                     Login.Goto "http://ha:8123";
                     Login.Settle 3000; Login.Settle 3000 ];
        clock := 1700000000 |},
     inl Login.contextDestroyed).
Proof. reflexivity. Qed.

(** X5: a cycle writes and removes files only at the artifact paths and
    the temporary paths of its targets, whatever fails and however it ends;
    every other entry of the file system is as it was.  (Creating the
    output directories is left to [ensureDir], whose calls are recorded.) *)
Theorem render_cycle_touches_only_its_paths (config : Config) (w : World)
    (existing : bool) (st : State) (p : string) :
  p ∉ touchedPaths (pages config) ->
  fs (renderAndConvertAsync config w existing st).1 !! p = fs st !! p.
Proof.
  intros Hp.
  pose proof (renderAndConvertAsync_outcome config w existing st) as H.
  destruct (if existing then None else launchFault config w).
  - rewrite H. reflexivity.
  - destruct H as (st' & E & _ & _ & F & _). rewrite E. cbn [fst]. rewrite F.
    apply renderPagesFs_frame. apply renderedPrefix_touched. exact Hp.
Qed.

Lemma render_cycle_touches_only_its_paths_witness :
  ("output/d.png" ∉ touchedPaths (pages threeTargets)) /\
  fs (renderAndConvertAsync threeTargets (flakyWorld 1) false
        (initialState (<["output/d.png" := Directory]> earlierDisk) 1700000100)).1
    !! "output/d.png" = Some Directory.
Proof.
  assert (H : "output/d.png" ∉ touchedPaths (pages threeTargets)).
  { vm_compute. intros Hin. repeat (apply elem_of_cons in Hin as [Hin|Hin]; [discriminate Hin|]).
    apply elem_of_nil in Hin. exact Hin. }
  split; [exact H|].
  rewrite (render_cycle_touches_only_its_paths threeTargets (flakyWorld 1) false _ _ H).
  reflexivity.
Defined.

(** X6: the webhook relay.  The entry of a target is read when the post is
    made, not when the cycle or the iteration starts: the relay, reached in
    any state [now], posts the entry that [now] holds for the target, to
    the target's webhook under the base URL, exactly when the iteration
    found an entry at its head, that entry now has a known level and the
    webhook is configured and not empty; an entry created after the head of
    the iteration is not posted.  So a request served while the target was
    being rendered decides what is posted.  For a cycle that has a browser
    and during which no request is served, this gives, for each target the
    cycle reaches, in order, one such post of the state held when the cycle
    starts; whether the target's capture or conversion succeeded plays no
    part. *)
Theorem render_cycle_posts (config : Config) (w : World) (existing : bool) (st : State) :
  (forall (i : nat) (pc : PageConfig) (st0 now : State),
     let hasEntry := bool_decide (is_Some (batteryStore st0 !! i)) in
     exists now',
       relayBattery config hasEntry i pc now = (now', inr tt) /\
       fs now' = fs now /\ batteryStore now' = batteryStore now /\
       posts now' =
         posts now ++
         (if hasEntry then relayOf config (batteryStore now) i pc else [])) /\
  (cycleStarts config w existing ->
   posts (renderAndConvertAsync config w existing st).1 =
     posts st ++ relaysOf config (batteryStore st) 0 (renderedPrefix w 0 (pages config))).
Proof.
  split.
  - intros i pc st0 now hasEntry. unfold relayBattery, relayOf.
    unfold mbind at 1, M_bind at 1, getState.
    destruct hasEntry; [|exists now; rewrite app_nil_r; repeat split].
    destruct (batteryStore now !! i) as [battery|];
      [|exists now; rewrite app_nil_r; repeat split].
    destruct (batteryWebHook pc) as [hook|];
      [|exists now; rewrite app_nil_r; repeat split].
    destruct (bool_decide (batteryLevel battery <> None) &&
              negb (String.eqb hook EmptyString));
      [|exists now; rewrite app_nil_r; repeat split].
    eexists. split; [reflexivity|]. repeat split. apply posts_addCall.
  - intros Hstart.
    pose proof (renderAndConvertAsync_outcome config w existing st) as H.
    assert (Hl : (if existing then None else launchFault config w) = None).
    { destruct existing; [reflexivity|].
      destruct Hstart as [E|E]; [discriminate E|exact E]. }
    rewrite Hl in H. destruct H as (st' & E & _ & _ & _ & P & _).
    rewrite E. exact P.
Qed.

(** A request served while the first target is rendered: the level it
    reports is the one posted for the target, not the one held when the
    iteration began; and the entry it creates, where the iteration found
    none, is not posted. *)
Example relay_reads_entry_when_posting :
  let pc := withWebHook "kindle-a" (defaultPage "/lovelace/a" "output/a") in
  let request :=
    {| pathname := "/1"; queryBatteryLevel := Some "42"; queryIsCharging := Some "Yes" |} in
  let serve st := (httpServer hookTargets "config" "/app" plainDecode request st).1 in
  let fresh := initialState earlierDisk 1700000100 in
  let found st := bool_decide (is_Some (batteryStore st !! 0%nat)) in
  batteryStore reportedState !! 0%nat
    = Some {| batteryLevel := Some 80; isCharging := false |} /\
  posts (relayBattery hookTargets (found reportedState) 0 pc (serve reportedState)).1 =
    [PostWebhook "http://ha:8123/api/webhook/kindle-a" 0
       {| batteryLevel := Some 42; isCharging := true |}] /\
  batteryStore (serve fresh) !! 0%nat
    = Some {| batteryLevel := Some 42; isCharging := true |} /\
  posts (relayBattery hookTargets (found fresh) 0 pc (serve fresh)).1 = [].
Proof. repeat split; vm_compute; reflexivity. Qed.

Lemma render_cycle_posts_witness :
  cycleStarts hookTargets (flakyWorld 0) false /\
  posts (renderAndConvertAsync hookTargets (flakyWorld 0) false reportedState).1 =
    [PostWebhook "http://ha:8123/api/webhook/kindle-a" 0
       {| batteryLevel := Some 80; isCharging := false |}].
Proof.
  assert (H : cycleStarts hookTargets (flakyWorld 0) false) by (right; reflexivity).
  split; [exact H|].
  rewrite (proj2 (render_cycle_posts hookTargets (flakyWorld 0) false reportedState) H).
  vm_compute. reflexivity.
Defined.

(** *** From a render cycle to a request *)

(** X7: what a cycle renders, the listener serves.  When the targets have
    separate paths and the cycle is not interrupted, a target whose capture
    and conversion succeed is served to the next request for its page
    number with status 200, the converted bytes as body, their length, the
    target's format as content type and the time of the cycle as
    modification time. *)
Theorem rendered_artifact_is_served (config : Config) (w : World) (existing : bool)
    (st : State) (n : Z) (pc : PageConfig) (output : bytes) (request : Request) :
  let j := Z.to_nat (n - 1) in
  NoDup (touchedPaths (pages config)) ->
  ensureDirSucceeds w ->
  cycleStarts config w existing ->
  pageNumberOf request = Some n ->
  validPageNumber config n = true ->
  pages config !! j = Some pc ->
  captureThrows config w j pc = false ->
  converted w j pc = inr output ->
  exists st',
    handleImageRequest config request (renderAndConvertAsync config w existing st).1 =
      (st', inr {| status := 200;
                   headers := [ ("Content-Type", HText ("image/" +:+ imageFormat pc));
                                ("Content-Length", HNumber (Z.of_nat (length output)));
                                ("Last-Modified", HDate (clock st)) ];
                   body := Data output |}).
Proof.
  intros j Hnodup Hdir Hstart Hn Hvalid Hpc Hcap Hconv.
  destruct (renderAndConvertAsync_run config w existing st Hdir Hstart)
    as (st1 & E1 & B1 & C1 & F1).
  rewrite E1. cbn [fst].
  destruct (renderPagesFs_at config w (clock st) (pages config) j pc Hpc Hnodup
              0%nat (fs st)) as (before & _ & _ & Hout & _).
  destruct (renderPageFs_success config w (0 + j) pc (clock st) before output Hcap Hconv)
    as [Hfile _].
  assert (Hfs : fs st1 !! outputPathOf pc = Some (File output (clock st))).
  { rewrite F1, Hout. exact Hfile. }
  eexists.
  rewrite (handleImageRequest_served config request st1 n pc output
             (clock st) Hn Hvalid Hpc Hfs). reflexivity.
Qed.

Lemma rendered_artifact_is_served_witness :
  exists st',
    handleImageRequest threeTargets
      {| pathname := "/3"; queryBatteryLevel := None; queryIsCharging := None |}
      (renderAndConvertAsync threeTargets (flakyWorld 1) false
         (initialState earlierDisk 1700000100)).1 =
      (st', inr {| status := 200;
                   headers := [ ("Content-Type", HText "image/png");
                                ("Content-Length", HNumber 1);
                                ("Last-Modified", HDate 1700000100) ];
                   body := Data [Byte.x02] |}).
Proof.
  apply (rendered_artifact_is_served threeTargets (flakyWorld 1) false
           (initialState earlierDisk 1700000100) 3
           (defaultPage "/lovelace/c" "output/c") [Byte.x02]).
  - vm_compute. repeat constructor;
      intros Hin; repeat (apply elem_of_cons in Hin as [Hin|Hin]; [discriminate Hin|]);
      apply elem_of_nil in Hin; exact Hin.
  - intros i dir. reflexivity.
  - right. reflexivity.
  - reflexivity.
  - reflexivity.
  - reflexivity.
  - reflexivity.
  - reflexivity.
Defined.

(** *** The battery store over the life of the process *)

Lemma updateBattery_idempotent (n : Z) (level : option Z) (charging : option string)
    (b : Battery) :
  updateBattery n level charging (updateBattery n level charging b).1 =
    ((updateBattery n level charging b).1, []).
Proof.
  unfold updateBattery. destruct level as [l|]; [|reflexivity].
  destruct ((l >=? 0) && (l <=? 100)) eqn:Hrange; [|reflexivity].
  destruct b as [old flag].
  destruct (bool_decide (charging = Some "Yes" \/ charging = Some "1")) eqn:Hyes;
    destruct (bool_decide (charging = Some "No" \/ charging = Some "0")) eqn:Hno;
    destruct (bool_decide (old = Some l)) eqn:Hold; destruct flag;
    cbn -[Z.geb Z.leb]; rewrite ?Hrange, ?Hyes, ?Hno, ?Hold;
    cbn -[Z.geb Z.leb]; rewrite ?Hrange, ?Hyes, ?Hno, ?Hold, ?bool_decide_eq_true_2 by reflexivity;
    try reflexivity.
  all: exfalso; apply bool_decide_eq_true_1 in Hyes, Hno;
    destruct Hyes as [-> | ->], Hno as [E|E]; discriminate E.
Qed.

(** X8: the same request twice in a row: the second one leaves the battery
    store as the first one left it.  A device that polls with an unchanged
    level and charging state changes nothing. *)
Theorem repeated_request_keeps_battery (config : Config) (CONFIG_DIR cwd : string)
    (decodeURIComponent : string -> option string) (st : State) (request : Request) :
  let step := step config CONFIG_DIR cwd decodeURIComponent in
  batteryStore (step (step st (Get request)) (Get request)) =
  batteryStore (step st (Get request)).
Proof.
  cbn [step]. unfold httpServer.
  destruct (JS.startsWith "/config/" (pathname request)).
  { apply handleConfigFileRequest_keeps_battery. }
  destruct (pageNumberOf request) as [n|] eqn:Hn.
  2:{ rewrite !handleImageRequest_invalid by (rewrite Hn; exact I). reflexivity. }
  destruct (validPageNumber config n) eqn:Hvalid.
  2:{ rewrite !handleImageRequest_invalid by (rewrite Hn; exact Hvalid). reflexivity. }
  destruct (validPageNumber_lookup _ _ Hvalid) as [p Hp].
  destruct (fs st !! outputPathOf p) as [node|] eqn:Hfs.
  1: destruct node as [data t| |c].
  1:{ rewrite (handleImageRequest_served config request st n p data t Hn Hvalid Hp Hfs).
      cbn [fst].
      erewrite (handleImageRequest_served config request _ n p data t Hn Hvalid Hp);
        [|exact Hfs].
      cbn [fst batteryStore]. rewrite lookup_insert_eq. cbn [default]. unfold id.
      rewrite updateBattery_idempotent. cbn [fst]. apply insert_insert_eq. }
  all: destruct (handleImageRequest_unreadable config request st n p Hn Hvalid Hp)
         as [msg ->]; [intros ? ?; rewrite Hfs; discriminate|];
       cbn [fst];
       destruct (handleImageRequest_unreadable config request
                   (addLog (LogError msg) (addLog (LogImageAccessed n) st)) n p
                   Hn Hvalid Hp)
         as [msg' ->]; [intros ? ?; cbn [fs addLog]; rewrite Hfs; discriminate|];
       reflexivity.
Qed.

Lemma step_battery_target (config : Config) (CONFIG_DIR cwd : string)
    (decodeURIComponent : string -> option string) (st : State) (a : Action) :
  let st' := step config CONFIG_DIR cwd decodeURIComponent st a in
  batteryStore st' = batteryStore st \/
  exists (k : nat) (b : Battery),
    is_Some (pages config !! k) /\ batteryStore st' = <[k := b]> (batteryStore st).
Proof.
  destruct a as [request|w existing|now]; simpl.
  - unfold httpServer.
    destruct (JS.startsWith "/config/" (pathname request)).
    + left. apply handleConfigFileRequest_keeps_battery.
    + destruct (pageNumberOf request) as [n|] eqn:Hn.
      2:{ left. rewrite handleImageRequest_invalid by (rewrite Hn; exact I). reflexivity. }
      destruct (validPageNumber config n) eqn:Hvalid.
      2:{ left. rewrite handleImageRequest_invalid by (rewrite Hn; exact Hvalid).
          reflexivity. }
      destruct (validPageNumber_lookup _ _ Hvalid) as [p Hp].
      destruct (fs st !! outputPathOf p) as [node|] eqn:Hfs.
      1: destruct node as [data t| |c].
      1:{ right. eexists _, _. split; [eexists; exact Hp|].
          rewrite (handleImageRequest_served config request st n p data t
                     Hn Hvalid Hp Hfs). reflexivity. }
      all: left;
        destruct (handleImageRequest_unreadable config request st n p Hn Hvalid Hp)
          as [msg ->]; [intros ? ?; rewrite Hfs; discriminate | reflexivity].
  - left. apply renderAndConvertAsync_keeps_battery.
  - left. reflexivity.
Qed.

(** X9: battery entries belong to targets: whatever requests and cycles a
    freshly started process has gone through, the battery store holds an
    entry only at the index of a configured target.  No request can make
    the store grow beyond the number of targets. *)
Theorem battery_entries_belong_to_targets (config : Config) (CONFIG_DIR cwd : string)
    (decodeURIComponent : string -> option string)
    (files : gmap string Node) (now : Z) (actions : list Action) (k : nat) :
  is_Some (batteryStore (run config CONFIG_DIR cwd decodeURIComponent
                           (initialState files now) actions) !! k) ->
  (k < length (pages config))%nat.
Proof.
  assert (Hinv : forall acts st,
    (forall i, is_Some (batteryStore st !! i) -> is_Some (pages config !! i)) ->
    forall i, is_Some (batteryStore (run config CONFIG_DIR cwd decodeURIComponent st acts) !! i)
              -> is_Some (pages config !! i)).
  { induction acts as [|a acts IH]; intros st Hst; simpl; [exact Hst|].
    apply IH. intros i.
    destruct (step_battery_target config CONFIG_DIR cwd decodeURIComponent st a)
      as [-> | (j & b & Hj & ->)]; [apply Hst|].
    destruct (decide (j = i)) as [<-|Hne].
    - intros _. exact Hj.
    - rewrite lookup_insert_ne by exact Hne. apply Hst. }
  intros Hk. apply lookup_lt_is_Some.
  apply (Hinv actions (initialState files now)); [|exact Hk].
  intros i [b Hb]. cbn in Hb. rewrite lookup_empty in Hb. discriminate Hb.
Qed.

Lemma battery_entries_belong_to_targets_witness :
  is_Some (batteryStore (run oneTarget "/app/kindle-config" "/app" plainDecode
                           (initialState renderedDisk 1700000100)
                           [Get telemetryRequest]) !! 0%nat) /\
  (0 < length (pages oneTarget))%nat.
Proof.
  assert (H : is_Some (batteryStore (run oneTarget "/app/kindle-config" "/app" plainDecode
                           (initialState renderedDisk 1700000100)
                           [Get telemetryRequest]) !! 0%nat)).
  { eexists. vm_compute. reflexivity. }
  split; [exact H|].
  exact (battery_entries_belong_to_targets oneTarget "/app/kindle-config" "/app"
           plainDecode renderedDisk 1700000100 [Get telemetryRequest] 0%nat H).
Defined.

(** *** Levels that are not a range *)

Lemma flat_checked : forallPercents flatChecked = true.
Proof. vm_cast_no_check (eq_refl true). Qed.

Lemma inverted_checked : forallPercents invertedChecked = true.
Proof. vm_cast_no_check (eq_refl true). Qed.

Lemma unread_checked : forallPercents unreadChecked = true.
Proof. vm_cast_no_check (eq_refl true). Qed.

(** X10: the level step does not check that the black level lies below the
    white level.  For levels from 0 to 100: equal levels divide by zero, the
    recorded multiplier is an infinity ([-Infinity] exactly when the white
    level reads [-0] and the black level [0]) and no channel value has a
    finite image; a black level above the white level records a finite,
    negative multiplier, which inverts the image; a black level that does
    not start with a number, next to a white level below 100, records
    [linear(NaN, NaN)]. *)
Theorem level_step_degenerate (pageConfig : PageConfig) (white : Z) :
  JS.parseInt (Some (whiteLevel pageConfig)) = Some white ->
  0 <= white <= 100 ->
  (JS.parseInt (Some (blackLevel pageConfig)) = Some white ->
   (exists offset,
      levelStep pageConfig =
        [OpLinear (if (white =? 0) &&
                      JS.hasMinusSign (Some (whiteLevel pageConfig)) &&
                      negb (JS.hasMinusSign (Some (blackLevel pageConfig)))
                   then NegInf else PosInf) offset]) /\
   forall x, applyLevel (levelLinear pageConfig) x = None) /\
  (forall black, JS.parseInt (Some (blackLevel pageConfig)) = Some black ->
   white < black <= 100 ->
   exists multiplier offset m,
     levelStep pageConfig = [OpLinear multiplier offset] /\
     numValue multiplier = Some m /\ (m < 0)%Q) /\
  (JS.parseInt (Some (blackLevel pageConfig)) = None -> white < 100 ->
   levelStep pageConfig = [OpLinear NaN NaN]).
Proof.
  intros Hw Hwr.
  pose proof (parseIntNumber_Some _ _ Hw) as Nw.
  split; [|split].
  - intros Hb. pose proof (parseIntNumber_Some _ _ Hb) as Nb.
    pose proof (forallPercents_spec _ flat_checked
                  (JS.hasMinusSign (Some (blackLevel pageConfig)))
                  (JS.hasMinusSign (Some (whiteLevel pageConfig)))
                  white white Hwr Hwr) as Hc.
    unfold flatChecked in Hc. rewrite Z.eqb_refl in Hc.
    rewrite !isNegativeZero_percentDouble in Hc by lia.
    replace ((white =? 0) && JS.hasMinusSign (Some (whiteLevel pageConfig)) &&
             negb ((white =? 0) && JS.hasMinusSign (Some (blackLevel pageConfig))))
      with ((white =? 0) && JS.hasMinusSign (Some (whiteLevel pageConfig)) &&
            negb (JS.hasMinusSign (Some (blackLevel pageConfig)))) in Hc
      by (destruct (white =? 0), (JS.hasMinusSign (Some (whiteLevel pageConfig))),
                   (JS.hasMinusSign (Some (blackLevel pageConfig))); reflexivity).
    assert (Hlin : levelLinear pageConfig =
              levelOf (percentDouble (JS.hasMinusSign (Some (blackLevel pageConfig))) white)
                      (percentDouble (JS.hasMinusSign (Some (whiteLevel pageConfig))) white)).
    { rewrite levelLinear_levelOf, Nb, Nw.
      rewrite (levels_differ pageConfig white white Hb Hw) by lia. reflexivity. }
    unfold levelStep. rewrite Hlin.
    destruct (levelOf _ _) as [[[q| | | |] o]|]; try discriminate Hc.
    + apply negb_true_iff in Hc. rewrite Hc.
      split; [eexists; reflexivity|]. intros x. reflexivity.
    + rewrite Hc. split; [eexists; reflexivity|]. intros x. reflexivity.
  - intros black Hb Hlt. pose proof (parseIntNumber_Some _ _ Hb) as Nb.
    pose proof (forallPercents_spec _ inverted_checked
                  (JS.hasMinusSign (Some (blackLevel pageConfig)))
                  (JS.hasMinusSign (Some (whiteLevel pageConfig)))
                  black white ltac:(lia) Hwr) as Hc.
    unfold invertedChecked in Hc.
    replace (white <? black) with true in Hc by (symmetry; apply Z.ltb_lt; lia).
    assert (Hlin : levelLinear pageConfig =
              levelOf (percentDouble (JS.hasMinusSign (Some (blackLevel pageConfig))) black)
                      (percentDouble (JS.hasMinusSign (Some (whiteLevel pageConfig))) white)).
    { rewrite levelLinear_levelOf, Nb, Nw.
      rewrite (levels_differ pageConfig black white Hb Hw) by lia. reflexivity. }
    unfold levelStep. rewrite Hlin.
    destruct (levelOf _ _) as [[a o]|]; [|discriminate Hc].
    destruct (numValue a) as [m|] eqn:Ha; [|discriminate Hc].
    exists a, o, m. split; [reflexivity|]. split; [exact Ha|].
    apply negb_true_iff in Hc. apply Qnot_le_lt. intros Hle.
    apply Qle_bool_iff in Hle. rewrite Hle in Hc. discriminate Hc.
  - intros Hb Hlt. pose proof (parseIntNumber_None _ Hb) as Nb.
    pose proof (forallPercents_spec _ unread_checked false
                  (JS.hasMinusSign (Some (whiteLevel pageConfig)))
                  0 white ltac:(lia) Hwr) as Hc.
    unfold unreadChecked in Hc. cbn [Z.eqb andb] in Hc.
    replace (white <? 100) with true in Hc by (symmetry; apply Z.ltb_lt; lia).
    assert (Hstr : negb (String.eqb (blackLevel pageConfig) "0%") ||
                   negb (String.eqb (whiteLevel pageConfig) "100%") = true).
    { destruct (String.eqb_spec (blackLevel pageConfig) "0%") as [E1|_]; [|reflexivity].
      rewrite E1 in Hb. vm_compute in Hb. discriminate Hb. }
    unfold levelStep. rewrite levelLinear_levelOf, Hstr, Nb, Nw.
    destruct (levelOf _ _) as [[[q| | | |] [q'| | | |]]|];
      try discriminate Hc; reflexivity.
Qed.

Lemma level_step_degenerate_witness :
  let flat := samplePage "/lovelace/0" "png" "output/cover" 0 8 "50%" "50%" 1 in
  let signed := samplePage "/lovelace/0" "png" "output/cover" 0 8 "0%" "-0%" 1 in
  let inverted := samplePage "/lovelace/0" "png" "output/cover" 0 8 "80%" "20%" 1 in
  let unread := samplePage "/lovelace/0" "png" "output/cover" 0 8 "dark" "90%" 1 in
  (forall x, applyLevel (levelLinear flat) x = None) /\
  (exists offset, levelStep signed = [OpLinear NegInf offset]) /\
  (exists multiplier offset m,
     levelStep inverted = [OpLinear multiplier offset] /\
     numValue multiplier = Some m /\ (m < 0)%Q) /\
  levelStep unread = [OpLinear NaN NaN].
Proof.
  intros flat signed inverted unread.
  destruct (level_step_degenerate flat 50 eq_refl ltac:(lia)) as (Hflat & _ & _).
  destruct (level_step_degenerate signed 0 eq_refl ltac:(lia)) as (Hsigned & _ & _).
  destruct (level_step_degenerate inverted 20 eq_refl ltac:(lia)) as (_ & Hinv & _).
  destruct (level_step_degenerate unread 90 eq_refl ltac:(lia)) as (_ & _ & Hunread).
  split; [exact (proj2 (Hflat eq_refl))|].
  split; [exact (proj1 (Hsigned eq_refl))|].
  split; [exact (Hinv 80 eq_refl ltac:(lia))|].
  exact (Hunread eq_refl ltac:(lia)).
Defined.

(** *** Page numbers *)

Lemma append_cons (c : ascii) (s t : string) :
  String c s +:+ t = String c (s +:+ t).
Proof. reflexivity. Qed.

Lemma isWhiteSpace2_slash_l (d : ascii) : JS.isWhiteSpace2 "/" d = false.
Proof. unfold JS.isWhiteSpace2. cbn. apply andb_false_r. Qed.

Lemma isWhiteSpace3_slash_l (d e : ascii) : JS.isWhiteSpace3 "/" d e = false.
Proof. unfold JS.isWhiteSpace3. cbn. rewrite !andb_false_r. reflexivity. Qed.

Lemma isWhiteSpace3_slash_m (c e : ascii) : JS.isWhiteSpace3 c "/" e = false.
Proof. unfold JS.isWhiteSpace3. cbn. rewrite !andb_false_r. reflexivity. Qed.

(** A slash belongs to no white-space character. *)
Lemma trimStart_slash (s t : string) :
  JS.trimStart (s +:+ String "/" t) = JS.trimStart s +:+ String "/" t.
Proof.
  remember (String.length s) as n eqn:Hn. revert s Hn.
  induction n as [n IH] using lt_wf_ind. intros s Hn.
  assert (Hrec : forall s', (String.length s' < String.length s)%nat ->
            JS.trimStart (s' +:+ String "/" t) = JS.trimStart s' +:+ String "/" t).
  { intros s' Hlt. apply (IH (String.length s')); [lia|reflexivity]. }
  clear IH Hn.
  destruct s as [|c [|d [|e r]]].
  - change (EmptyString +:+ String "/" t) with (String "/" t).
    cbn [JS.trimStart]. change (JS.isWhiteSpace "/") with false. cbv iota.
    destruct t as [|d [|e r]]; [reflexivity| |];
      rewrite ?isWhiteSpace2_slash_l, ?isWhiteSpace3_slash_l; reflexivity.
  - change (String c EmptyString +:+ String "/" t) with (String c (String "/" t)).
    cbn [JS.trimStart]. destruct (JS.isWhiteSpace c).
    + apply (Hrec EmptyString). cbn. lia.
    + change (JS.isWhiteSpace2 c "/") with false. cbv iota.
      destruct t as [|e r]; [reflexivity|].
      rewrite isWhiteSpace3_slash_m. reflexivity.
  - change (String c (String d EmptyString) +:+ String "/" t)
      with (String c (String d (String "/" t))).
    cbn [JS.trimStart]. destruct (JS.isWhiteSpace c).
    + apply (Hrec (String d EmptyString)). cbn. lia.
    + destruct (JS.isWhiteSpace2 c d).
      * apply (Hrec EmptyString). cbn. lia.
      * change (JS.isWhiteSpace3 c d "/") with false. reflexivity.
  - change (String c (String d (String e r)) +:+ String "/" t)
      with (String c (String d (String e (r +:+ String "/" t)))).
    cbn [JS.trimStart]. destruct (JS.isWhiteSpace c).
    + apply (Hrec (String d (String e r))). cbn. lia.
    + destruct (JS.isWhiteSpace2 c d).
      * apply (Hrec (String e r)). cbn. lia.
      * destruct (JS.isWhiteSpace3 c d e); [|reflexivity].
        apply (Hrec r). cbn. lia.
Qed.

Lemma digitsPrefix_slash (radix : Z) (s t : string) :
  forall acc, JS.digitsPrefix radix (s +:+ String "/" t) acc = JS.digitsPrefix radix s acc.
Proof.
  induction s as [|c s IH]; intros acc; [reflexivity|].
  rewrite append_cons. cbn [JS.digitsPrefix].
  destruct (JS.digitValue c) as [d|]; [|reflexivity].
  destruct (d <? radix); [apply IH|reflexivity].
Qed.

Lemma parseInt_slash (s t : string) :
  JS.parseInt (Some (s +:+ String "/" t)) = JS.parseInt (Some s).
Proof.
  unfold JS.parseInt. rewrite trimStart_slash.
  assert (Hradix : forall (sign : Z) (r : string),
    (let '(radix, s2) :=
       match r +:+ String "/" t with
       | String "0" (String "x" r') => (16, r')
       | String "0" (String "X" r') => (16, r')
       | _ => (10, r +:+ String "/" t)
       end in
     option_map (Z.mul sign) (JS.digitsPrefix radix s2 None)) =
    (let '(radix, s2) :=
       match r with
       | String "0" (String "x" r') => (16, r')
       | String "0" (String "X" r') => (16, r')
       | _ => (10, r)
       end in
     option_map (Z.mul sign) (JS.digitsPrefix radix s2 None))).
  { intros sign r.
    destruct r as [|a r]; [reflexivity|].
    destruct (Ascii.eqb_spec a "0") as [->|Ha].
    - destruct r as [|b r]; [reflexivity|].
      rewrite !append_cons.
      destruct (Ascii.eqb_spec b "x") as [->|Hx];
        [rewrite digitsPrefix_slash; reflexivity|].
      destruct (Ascii.eqb_spec b "X") as [->|HX];
        [rewrite digitsPrefix_slash; reflexivity|].
      rewrite <- (append_cons b r).
      transitivity (option_map (Z.mul sign)
                      (JS.digitsPrefix 10 (String "0" (String b r +:+ String "/" t)) None)).
      { destruct b as [[] [] [] [] [] [] [] []]; try reflexivity; congruence. }
      rewrite <- (append_cons "0" (String b r)).
      rewrite digitsPrefix_slash.
      destruct b as [[] [] [] [] [] [] [] []]; try reflexivity; congruence.
    - transitivity (option_map (Z.mul sign)
                      (JS.digitsPrefix 10 (String a r +:+ String "/" t) None)).
      { rewrite append_cons.
        destruct a as [[] [] [] [] [] [] [] []]; try reflexivity; congruence. }
      rewrite digitsPrefix_slash.
      destruct a as [[] [] [] [] [] [] [] []]; try reflexivity; congruence. }
  destruct (JS.trimStart s) as [|a r] eqn:Htrim.
  - reflexivity.
  - destruct (Ascii.eqb_spec a "-") as [->|Hm]; [rewrite append_cons; apply Hradix|].
    destruct (Ascii.eqb_spec a "+") as [->|Hp]; [rewrite append_cons; apply Hradix|].
    transitivity
      (let '(radix, s2) :=
         match String a r +:+ String "/" t with
         | String "0" (String "x" r') => (16, r')
         | String "0" (String "X" r') => (16, r')
         | _ => (10, String a r +:+ String "/" t)
         end in
       option_map (Z.mul 1) (JS.digitsPrefix radix s2 None)).
    { rewrite append_cons.
      destruct a as [[] [] [] [] [] [] [] []]; try reflexivity; congruence. }
    rewrite Hradix.
    destruct a as [[] [] [] [] [] [] [] []]; try reflexivity; congruence.
Qed.

(** X11: whatever follows a second slash is ignored: a request for
    [/<s>/<t>], with [s] not empty, is answered as the request for [/<s>]
    with the same query, and leaves the same battery store. *)
Theorem image_request_ignores_subpath (config : Config) (s t : string)
    (level charging : option string) (st : State) :
  s <> EmptyString ->
  let long := {| pathname := "/" +:+ s +:+ "/" +:+ t;
                 queryBatteryLevel := level; queryIsCharging := charging |} in
  let short := {| pathname := "/" +:+ s;
                  queryBatteryLevel := level; queryIsCharging := charging |} in
  (handleImageRequest config long st).2 = (handleImageRequest config short st).2 /\
  batteryStore (handleImageRequest config long st).1 =
  batteryStore (handleImageRequest config short st).1.
Proof.
  intros Hs long short.
  assert (Hpage : pageNumberOf long = pageNumberOf short).
  { unfold pageNumberOf, long, short. cbn [pathname].
    destruct s as [|c s]; [contradiction|].
    change ("/" +:+ String c s +:+ "/" +:+ t)
      with (String "/" (String c s +:+ String "/" t)).
    change ("/" +:+ String c s) with (String "/" (String c s)).
    rewrite append_cons at 1.
    cbn [String.eqb Ascii.eqb Bool.eqb JS.substringFrom].
    apply parseInt_slash. }
  unfold handleImageRequest. rewrite Hpage. split; reflexivity.
Qed.

Lemma image_request_ignores_subpath_witness :
  (handleImageRequest oneTarget
     {| pathname := "/1/cover.png"; queryBatteryLevel := Some "42";
        queryIsCharging := Some "Yes" |}
     (initialState renderedDisk 1700000100)).2 =
  (handleImageRequest oneTarget telemetryRequest (initialState renderedDisk 1700000100)).2.
Proof.
  exact (proj1 (image_request_ignores_subpath oneTarget "1" "cover.png"
                  (Some "42") (Some "Yes") (initialState renderedDisk 1700000100)
                  ltac:(discriminate))).
Defined.

(** *** The targets read from the environment *)

Lemma pageSuffix_inj (i j : nat) : pageSuffix (S i) = pageSuffix (S j) -> i = j.
Proof.
  unfold pageSuffix.
  destruct i as [|i], j as [|j]; cbn [Nat.eqb]; try reflexivity; try discriminate.
  intros H. injection H as H. pose proof (pretty_nat_inj _ _ H). lia.
Qed.

(** Every iteration that goes on has a variable of its own. *)
Lemma screenShotUrls_bound (env : gmap string string) (n : nat) :
  (forall j, (j < n)%nat -> is_Some (screenShotUrlAt env (S j))) -> (n <= size env)%nat.
Proof.
  intros Hset.
  pose (key := fun j : nat => "HA_SCREENSHOT_URL" +:+ pageSuffix (S j)).
  assert (Hinj : forall a b, key a = key b -> a = b).
  { intros a b H. unfold key in H.
    apply (inj (String.app "HA_SCREENSHOT_URL")) in H. apply pageSuffix_inj, H. }
  assert (Hnodup : NoDup (key <$> seq 0 n)).
  { apply NoDup_fmap_2_strong; [|apply NoDup_seq].
    intros a b _ _ H. apply Hinj, H. }
  assert (Hsub : (list_to_set (key <$> seq 0 n) : gset string) ⊆ dom env).
  { intros k Hk. rewrite elem_of_list_to_set, list_elem_of_fmap in Hk.
    destruct Hk as (j & -> & Hj). apply elem_of_seq in Hj.
    destruct (Hset j ltac:(lia)) as [url Hurl]. unfold screenShotUrlAt in Hurl.
    apply elem_of_dom. unfold key.
    destruct (env !! ("HA_SCREENSHOT_URL" +:+ pageSuffix (S j))) as [v|];
      [eexists; reflexivity|discriminate Hurl]. }
  apply subseteq_size in Hsub.
  rewrite size_list_to_set in Hsub by exact Hnodup.
  rewrite length_fmap, length_seq, size_dom in Hsub. exact Hsub.
Qed.

Lemma pagesFrom_lookup (Number : option string -> Num) (env : gmap string string)
    (fuel : nat) :
  forall (i k : nat) (p : RawPageConfig),
    pagesFrom Number env fuel i !! k = Some p <->
    (k < fuel)%nat /\
    (forall j, (j <= k)%nat -> is_Some (screenShotUrlAt env (i + j))) /\
    exists url, screenShotUrlAt env (i + k) = Some url /\
                p = pageOf Number env url (pageSuffix (i + k)).
Proof.
  induction fuel as [|fuel IH]; intros i k p; cbn [pagesFrom].
  - split; [intros H; discriminate H | intros [H _]; lia].
  - destruct (screenShotUrlAt env i) as [url|] eqn:Hurl.
    + destruct k as [|k].
      * cbn. rewrite Nat.add_0_r. split.
        -- intros [= <-]. split; [lia|]. split.
           ++ intros j Hj. replace j with 0%nat by lia. rewrite Nat.add_0_r, Hurl. eauto.
           ++ exists url. split; [exact Hurl|reflexivity].
        -- intros (_ & _ & url' & Hurl' & ->). rewrite Hurl in Hurl'.
           injection Hurl' as <-. reflexivity.
      * cbn [lookup list_lookup]. rewrite IH.
        replace (S i + k)%nat with (i + S k)%nat by lia. split.
        -- intros (Hk & Hall & Hp). split; [lia|]. split; [|exact Hp].
           intros [|j] Hj.
           ++ rewrite Nat.add_0_r, Hurl. eauto.
           ++ replace (i + S j)%nat with (S i + j)%nat by lia. apply Hall. lia.
        -- intros (Hk & Hall & Hp). split; [lia|]. split; [|exact Hp].
           intros j Hj. replace (S i + j)%nat with (i + S j)%nat by lia. apply Hall. lia.
    + split; [intros H; destruct k; discriminate H|].
      intros (_ & Hall & _). specialize (Hall 0%nat ltac:(lia)).
      rewrite Nat.add_0_r, Hurl in Hall. destruct Hall as [? H]. discriminate H.
Qed.

(** X12: [getPagesConfig] numbers the targets without gaps: there is a target
    at position [k] exactly when the URLs of the first [k + 1] indices are
    all set and not empty, and it is then built from the variables of index
    [k + 1].  A missing or empty URL hides every target after it; the loop
    always returns. *)
Theorem getPagesConfig_enumerates (Number : option string -> Num)
    (env : gmap string string) (k : nat) :
  (is_Some (getPagesConfig Number env !! k) <->
   forall j, (j <= k)%nat -> is_Some (screenShotUrlAt env (S j))) /\
  (forall p, getPagesConfig Number env !! k = Some p ->
     exists url, screenShotUrlAt env (S k) = Some url /\
                 p = pageOf Number env url (pageSuffix (S k))).
Proof.
  unfold getPagesConfig. split; [split|].
  - intros [p Hp]. apply pagesFrom_lookup in Hp. destruct Hp as (_ & Hall & _). exact Hall.
  - intros Hall.
    assert (Hk : (S k <= size env)%nat).
    { apply screenShotUrls_bound. intros j Hj. apply Hall. lia. }
    destruct (Hall k (le_n k)) as [url Hurl].
    exists (pageOf Number env url (pageSuffix (S k))).
    apply pagesFrom_lookup. split; [lia|]. split; [exact Hall|].
    exists url. split; [exact Hurl|reflexivity].
  - intros p Hp. apply pagesFrom_lookup in Hp. destruct Hp as (_ & _ & Hp). exact Hp.
Qed.

Example getPagesConfig_sample :
  map raw_screenShotUrl (getPagesConfig decimalNumber sampleEnv) =
    ["/lovelace/a"; "/lovelace/b"] /\
  map toPageConfig (getPagesConfig decimalNumber sampleEnv) =
    [ Some (samplePage "/lovelace/a" "jpeg" "/data/cover" 0 8 "0%" "100%" 1);
      Some (samplePage "/lovelace/b" "jpeg" "output/cover_2" 90 8 "0%" "100%" 1) ].
Proof. split; vm_compute; reflexivity. Qed.

Lemma getEnvironmentVariable_fallback (env : gmap string string)
    (key suffix fallback : string) :
  fallback <> EmptyString ->
  getEnvironmentVariable env key suffix (Some fallback) =
    Some (default fallback (env !! (key +:+ suffix))).
Proof.
  intros Hne. unfold getEnvironmentVariable.
  destruct (env !! (key +:+ suffix)); [reflexivity|].
  destruct (String.eqb_spec fallback EmptyString); [contradiction|reflexivity].
Qed.

(** X13: which variables set the output path and the format of a target.  The
    output path is the target's own [OUTPUT_PATH] variable whenever that is
    set, even to the empty string, and [output/cover] with the target's
    suffix otherwise: from the second target on, the unsuffixed
    [OUTPUT_PATH] is never used.  The format is the target's own
    [IMAGE_FORMAT] when set, else the unsuffixed one, and [png] when that
    gives nothing or the empty string. *)
Theorem target_output_path_and_format (Number : option string -> Num)
    (env : gmap string string) (k : nat) (p : RawPageConfig) :
  getPagesConfig Number env !! k = Some p ->
  let suffix := pageSuffix (S k) in
  raw_outputPath p =
    Some (default ("output/cover" +:+ suffix) (env !! ("OUTPUT_PATH" +:+ suffix))) /\
  raw_imageFormat p =
    orString (match env !! ("IMAGE_FORMAT" +:+ suffix) with
              | Some v => Some v
              | None => env !! "IMAGE_FORMAT"
              end) "png".
Proof.
  intros Hp suffix. unfold getPagesConfig in Hp.
  apply pagesFrom_lookup in Hp. destruct Hp as (_ & _ & url & _ & ->).
  cbn [raw_outputPath raw_imageFormat pageOf Nat.add]. fold suffix. split.
  - apply getEnvironmentVariable_fallback. discriminate.
  - reflexivity.
Qed.

Lemma target_output_path_and_format_witness :
  exists p,
    getPagesConfig decimalNumber sampleEnv !! 1%nat = Some p /\
    raw_outputPath p = Some "output/cover_2" /\ raw_imageFormat p = "jpeg".
Proof.
  pose (p := pageOf decimalNumber sampleEnv "/lovelace/b" "_2").
  assert (H : getPagesConfig decimalNumber sampleEnv !! 1%nat = Some p)
    by (vm_compute; reflexivity).
  exists p. split; [exact H|].
  destruct (target_output_path_and_format decimalNumber sampleEnv 1 p H) as [Ho Hf].
  split; [rewrite Ho | rewrite Hf]; vm_compute; reflexivity.
Defined.

Lemma orNumber_nonzero (x : Num) (d q : Q) :
  ~ (d == 0)%Q -> orNumber x d = Fin q -> ~ (q == 0)%Q.
Proof.
  intros Hd. destruct x as [r| | | |]; cbn; try discriminate.
  - destruct (Qeq_bool r 0) eqn:Hr; intros [= <-]; [exact Hd|].
    apply Qeq_bool_neq. exact Hr.
  - intros [= <-]. exact Hd.
  - intros [= <-]. exact Hd.
Qed.

Lemma orNumber_value (x : Num) (d q : Q) :
  ~ (d == 0)%Q -> numValue (orNumber x d) = Some q -> ~ (q == 0)%Q.
Proof.
  intros Hd H. destruct (orNumber x d) as [r| | | |] eqn:Hr; try discriminate H.
  - injection H as <-. exact (orNumber_nonzero x d r Hd Hr).
  - destruct x as [r| | | |]; cbn in Hr; try discriminate Hr.
    destruct (Qeq_bool r 0); discriminate Hr.
Qed.

Lemma numberZ_nonzero (x : Num) (d : Q) (z : Z) :
  ~ (d == 0)%Q -> numberZ (orNumber x d) = Some z -> z <> 0.
Proof.
  intros Hd H. unfold numberZ in H.
  destruct (numValue (orNumber x d)) as [q|] eqn:Hq; [|discriminate H].
  destruct (Qden (Qred q) =? 1)%positive; [|discriminate H].
  injection H as <-. pose proof (orNumber_value x d q Hd Hq) as Hnz.
  intros Hz. apply Hnz. rewrite <- (Qred_correct q).
  unfold Qeq. rewrite Hz. reflexivity.
Qed.

(** X14: a zero cannot be configured where the default is not zero: the width,
    the height and the bit depth of a target are never 0, and neither are
    its scaling, saturation and contrast.  ([Number(...) || d] replaces a
    zero, like a missing or unreadable value, by the default.) *)
Theorem configured_numbers_are_not_zero (Number : option string -> Num)
    (env : gmap string string) (k : nat) (p : RawPageConfig) (pc : PageConfig) :
  getPagesConfig Number env !! k = Some p ->
  toPageConfig p = Some pc ->
  width (renderingScreenSize pc) <> 0 /\ height (renderingScreenSize pc) <> 0 /\
  grayscaleDepth pc <> 0 /\
  ~ (scaling pc == 0)%Q /\ ~ (saturation pc == 0)%Q /\ ~ (contrast pc == 0)%Q.
Proof.
  intros Hp Hpc. unfold getPagesConfig in Hp.
  apply pagesFrom_lookup in Hp. destruct Hp as (_ & _ & url & _ & ->).
  unfold toPageConfig in Hpc.
  cbn [pageOf raw_outputPath raw_renderingDelay raw_height raw_width raw_grayscaleDepth
       raw_rotation raw_scaling raw_saturation raw_contrast] in Hpc.
  repeat match type of Hpc with
         | match ?x with _ => _ end = Some _ =>
             let E := fresh "E" in destruct x eqn:E; [|discriminate Hpc]
         end.
  injection Hpc as <-. cbn [width height renderingScreenSize grayscaleDepth scaling
                            saturation contrast].
  assert (Hq : forall x d v, ~ (d == 0)%Q -> numberQ (orNumber x d) = Some v -> ~ (v == 0)%Q).
  { intros x0 d0 v0 Hd H. exact (orNumber_value x0 d0 v0 Hd H). }
  repeat split;
    first [ eapply numberZ_nonzero; [|eassumption]; discriminate
          | eapply Hq; [|eassumption]; discriminate ].
Qed.

Lemma configured_numbers_are_not_zero_witness :
  exists p pc,
    getPagesConfig decimalNumber sampleEnv !! 0%nat = Some p /\
    toPageConfig p = Some pc /\
    sampleEnv !! "CONTRAST" = Some "0" /\ contrast pc = 1%Q /\
    ~ (contrast pc == 0)%Q.
Proof.
  pose (p := pageOf decimalNumber sampleEnv "/lovelace/a" EmptyString).
  pose (pc := samplePage "/lovelace/a" "jpeg" "/data/cover" 0 8 "0%" "100%" 1).
  assert (H : getPagesConfig decimalNumber sampleEnv !! 0%nat = Some p)
    by (vm_compute; reflexivity).
  assert (Hpc : toPageConfig p = Some pc) by (vm_compute; reflexivity).
  exists p, pc. split; [exact H|]. split; [exact Hpc|].
  split; [reflexivity|]. split; [reflexivity|].
  exact (proj2 (proj2 (proj2 (proj2 (proj2
           (configured_numbers_are_not_zero decimalNumber sampleEnv 0 p pc H Hpc)))))).
Defined.

(** *** Logging in *)

Ltac login_run :=
  cbv [Login.launchBrowserAndLogin Login.storeTokens Login.perform Login.say
       Login.settle Login.swallow mbind Login.L_bind mret Login.L_ret
       mthrow Login.L_throw Nat.ltb Nat.leb].

Ltac login_cases faults :=
  repeat match goal with
         | |- context [match faults ?step with _ => _ end] =>
             let E := fresh "E" in destruct (faults step) eqn:E
         end.

(** X15: when the login succeeds.  [launchBrowserAndLogin] returns a browser
    exactly when the launch, the new page, the visit of the base URL and the
    closing of the page do not throw and one of at most three attempts to
    store the tokens does not throw.  Failures of the waits between the
    attempts play no part.  When all three attempts throw, the exception of
    the third is the one thrown. *)
Theorem login_outcome (config : Config) (faults : Login.Faults) :
  let result := (Login.launchBrowserAndLogin config faults Login.start).2 in
  (result = inr tt <->
   faults (Login.Launch (language config) (negb (debug config))) = None /\
   faults Login.NewPage = None /\
   faults (Login.Goto (baseUrl config)) = None /\
   is_Some (Login.firstGoodAttempt faults) /\
   faults Login.ClosePage = None) /\
  (faults (Login.Launch (language config) (negb (debug config))) = None ->
   faults Login.NewPage = None ->
   faults (Login.Goto (baseUrl config)) = None ->
   Login.firstGoodAttempt faults = None ->
   forall e, faults (Login.Evaluate 3) = Some e -> result = inl e).
Proof.
  cbv zeta. unfold Login.firstGoodAttempt. login_run.
  split.
  - login_cases faults; cbn [snd]; split;
      try (intros H; discriminate H);
      try (intros (H1 & H2 & H3 & H4 & H5);
           first [discriminate H1 | discriminate H2 | discriminate H3
                 | discriminate H5 | destruct H4 as [? H4]; discriminate H4]);
      try reflexivity;
      intros _; repeat split; eauto.
  - intros H1 H2 H3 H4 e He. rewrite H1, H2, H3, He in *.
    login_cases faults; try discriminate H4; reflexivity.
Qed.



Example login_retry_sample :
  Login.launchBrowserAndLogin oneTarget (Login.redirecting 2) Login.start =
    ({| Login.steps := [ Login.Launch "en" true; Login.NewPage;
                         Login.Goto "http://ha:8123";
                         Login.Settle 3000; Login.Settle 3000;
                         Login.Evaluate 3; Login.ClosePage ];
        Login.output := [ Login.StartingBrowser; Login.Visiting "http://ha:8123";
                          Login.AddingAuthentication;
                          Login.Interrupted 1; Login.Interrupted 2 ] |},
     inr tt) /\
  (Login.launchBrowserAndLogin oneTarget (Login.redirecting 3) Login.start).2 =
    inl Login.contextDestroyed.
Proof. split; reflexivity. Qed.

(** *** The page of a capture *)

Lemma closesNoPage_refl (st : State) : closesNoPage st st.
Proof. exists []. split; [symmetry; apply app_nil_r | apply not_elem_of_nil]. Qed.

Lemma closesNoPage_trans (a b c : State) :
  closesNoPage a b -> closesNoPage b c -> closesNoPage a c.
Proof.
  intros (x & Hx & Nx) (y & Hy & Ny). exists (x ++ y). split.
  - rewrite Hy, Hx. symmetry. apply app_assoc.
  - rewrite not_elem_of_app. split; assumption.
Qed.

Ltac closes_no_page :=
  intros; unfold closesNoPage;
  first [ exists []; split; [symmetry; apply app_nil_r | apply not_elem_of_nil]
        | eexists [_]; split;
          [reflexivity | apply not_elem_of_cons; split; [discriminate | apply not_elem_of_nil]] ].

Ltac keeps_no_close :=
  repeat first
    [ keeps_step closesNoPage_refl closesNoPage_trans
    | apply keeps_log; closes_no_page
    | apply keeps_call; closes_no_page
    | apply keeps_modify; closes_no_page ].

(** X17: the page opened for a capture.  Outside debug mode, once [newPage] has
    returned the page is closed whatever happens during the capture: closing
    it is the last call made, or, when closing throws, the failure is logged
    and the function returns all the same.  In debug mode the page is never
    closed, and when [newPage] throws no call is made at all. *)
Theorem capture_page_lifecycle (config : Config) (w : World) (i : nat)
    (pc : PageConfig) (url path : string) (st : State) :
  let st' := (renderUrlToImageAsync config w i pc url path st).1 in
  (debug config = false -> callFault w i NewPage = None ->
   match callFault w i ClosePage with
   | None => last (calls st') = Some ClosePage
   | Some e => last (console st') = Some (LogCouldNotClosePage url (message e))
   end) /\
  (debug config = true -> closesNoPage st st') /\
  (forall e, callFault w i NewPage = Some e -> calls st' = calls st).
Proof.
  cbv zeta. split; [|split].
  - intros Hdebug Hnew.
    assert (H : exists st2,
      renderUrlToImageAsync config w i pc url path st =
      tryCatch (call w i ClosePage)
        (fun closeErr => log (LogCouldNotClosePage url (message closeErr))) st2).
    { unfold renderUrlToImageAsync.
      assert (Hcall : call w i NewPage st = (addCall NewPage st, inr tt))
        by (unfold call; rewrite Hnew; reflexivity).
      rewrite Hcall, Hdebug. unfold mbind, M_bind. unfold tryCatch at 1.
      destruct (captureSequence config w i pc url path (addCall NewPage st))
        as [st2 [e|[]]]; eexists; reflexivity. }
    destruct H as [st2 ->]. unfold tryCatch, call.
    destruct (callFault w i ClosePage) as [e'|];
      cbn [fst log modify addLog addCall calls console]; apply last_snoc.
  - intros Hdebug.
    unfold renderUrlToImageAsync.
    pose proof (keeps_call closesNoPage closesNoPage_refl w i NewPage
                  ltac:(closes_no_page) st) as H0.
    destruct (call w i NewPage st) as [st1 [e|[]]]; simpl in H0.
    + eapply closesNoPage_trans; [exact H0|]. apply keeps_log; closes_no_page.
    + eapply closesNoPage_trans; [exact H0|]. clear H0. revert st1.
      change (keeps closesNoPage
        (tryCatch (captureSequence config w i pc url path)
                  (fun e => log (LogFailedToRender url (message e)));;
         (if debug config then mret tt
          else tryCatch (call w i ClosePage)
                 (fun closeErr => log (LogCouldNotClosePage url (message closeErr)))))).
      rewrite Hdebug. unfold captureSequence, screenshot. rewrite Hdebug. keeps_no_close.
  - intros e Hnew. unfold renderUrlToImageAsync. unfold call at 1. rewrite Hnew.
    reflexivity.
Qed.

(** *** Content types *)

Lemma lowerChar_slash (c : ascii) :
  Ascii.eqb (JS.lowerChar c) "/" = Ascii.eqb c "/".
Proof. destruct c as [[] [] [] [] [] [] [] []]; reflexivity. Qed.

Lemma lowerChar_dot (c : ascii) :
  Ascii.eqb (JS.lowerChar c) "." = Ascii.eqb c ".".
Proof. destruct c as [[] [] [] [] [] [] [] []]; reflexivity. Qed.

Lemma segments_toLowerCase (s : string) :
  Path.segments (JS.toLowerCase s) = map JS.toLowerCase (Path.segments s).
Proof.
  induction s as [|c s IH]; [reflexivity|].
  cbn [JS.toLowerCase Path.segments]. rewrite IH, lowerChar_slash.
  destruct (Ascii.eqb c "/"); [reflexivity|].
  destruct (Path.segments s); reflexivity.
Qed.

Lemma last_toLowerCase (l : list string) :
  List.last (map JS.toLowerCase l) EmptyString = JS.toLowerCase (List.last l EmptyString).
Proof.
  induction l as [|a l IH]; [reflexivity|].
  destruct l as [|b l]; [reflexivity|]. exact IH.
Qed.

Lemma fromLastDot_toLowerCase (s : string) :
  Path.fromLastDot (JS.toLowerCase s) = option_map JS.toLowerCase (Path.fromLastDot s).
Proof.
  induction s as [|c s IH]; [reflexivity|].
  cbn [JS.toLowerCase Path.fromLastDot]. rewrite IH, lowerChar_dot.
  destruct (Path.fromLastDot s); [reflexivity|].
  destruct (Ascii.eqb c "."); reflexivity.
Qed.

Lemma dots_toLowerCase (b : string) :
  String.eqb (JS.toLowerCase b) ".." = String.eqb b "..".
Proof.
  destruct b as [|c1 [|c2 [|c3 r]]]; cbn [JS.toLowerCase String.eqb];
    rewrite ?lowerChar_dot; reflexivity.
Qed.

Lemma extname_toLowerCase (p : string) :
  Path.extname (JS.toLowerCase p) = JS.toLowerCase (Path.extname p).
Proof.
  unfold Path.extname, Path.basename.
  rewrite segments_toLowerCase, last_toLowerCase, dots_toLowerCase.
  set (b := List.last (Path.segments p) EmptyString).
  destruct (String.eqb b ".."); [reflexivity|].
  assert (Hopt : forall s,
    default EmptyString (Path.fromLastDot (JS.toLowerCase s)) =
    JS.toLowerCase (default EmptyString (Path.fromLastDot s))).
  { intros s. rewrite fromLastDot_toLowerCase.
    destruct (Path.fromLastDot s); reflexivity. }
  destruct b as [|c r]; [reflexivity|].
  destruct (Ascii.eqb_spec c ".") as [->|Hc].
  - cbn [JS.toLowerCase]. apply Hopt.
  - transitivity (default EmptyString (Path.fromLastDot (JS.toLowerCase (String c r)))).
    + cbn [JS.toLowerCase].
      destruct c as [[] [] [] [] [] [] [] []]; try reflexivity; congruence.
    + rewrite Hopt. f_equal.
      destruct c as [[] [] [] [] [] [] [] []]; try reflexivity; congruence.
Qed.

(** X18: the content type of a configuration file does not depend on the
    letter case of its path: two paths that differ only in case get the
    same type, so [README.TXT] is served as [readme.txt] is. *)
Theorem content_type_ignores_case (p q : string) :
  JS.toLowerCase p = JS.toLowerCase q ->
  getContentType (JS.toLowerCase (Path.extname p)) =
  getContentType (JS.toLowerCase (Path.extname q)).
Proof.
  intros H. rewrite <- !extname_toLowerCase, H. reflexivity.
Qed.

Lemma content_type_ignores_case_witness :
  getContentType (JS.toLowerCase (Path.extname "/app/kindle-config/README.TXT")) =
  "text/plain".
Proof.
  rewrite (content_type_ignores_case "/app/kindle-config/README.TXT"
             "/app/kindle-config/readme.txt" eq_refl).
  reflexivity.
Defined.

(** *** The default output paths *)

Lemma append_assoc_string (a b c : string) : (a +:+ b) +:+ c = a +:+ (b +:+ c).
Proof.
  induction a as [|x a IH]; [reflexivity|].
  rewrite !append_cons. f_equal. exact IH.
Qed.

Lemma append_length (a b : string) :
  String.length (a +:+ b) = (String.length a + String.length b)%nat.
Proof.
  induction a as [|x a IH]; [reflexivity|].
  rewrite append_cons. cbn [String.length]. rewrite IH. reflexivity.
Qed.

Lemma dotFree_pretty_go (x : N) :
  forall s, dotFree s = true -> dotFree (pretty_N_go x s) = true.
Proof.
  induction (N.lt_wf_0 x) as [x _ IH]; intros s Hs.
  destruct (decide (0 < x)%N) as [Hpos|Hzero].
  - rewrite pretty_N_go_step by exact Hpos. apply IH.
    + apply N.div_lt; [exact Hpos|reflexivity].
    + cbn [dotFree]. rewrite Hs, andb_true_r.
      unfold pretty_N_char. repeat case_match; reflexivity.
  - replace x with 0%N by lia. rewrite pretty_N_go_0. exact Hs.
Qed.

Lemma dotFree_pageSuffix (i : nat) : dotFree (pageSuffix i) = true.
Proof.
  unfold pageSuffix. destruct (i =? 1)%nat; [reflexivity|].
  rewrite append_cons. cbn [dotFree Ascii.eqb Bool.eqb negb andb String.append].
  unfold pretty, pretty_nat, pretty, pretty_N.
  destruct (decide (N.of_nat i = 0%N)); [reflexivity|].
  apply dotFree_pretty_go. reflexivity.
Qed.

(** Two strings that agree up to their first dot. *)
Lemma first_dot_split (a b x y : string) :
  dotFree a = true -> dotFree b = true ->
  a +:+ String "." x = b +:+ String "." y -> a = b /\ x = y.
Proof.
  revert b. induction a as [|c a IH]; intros [|d b] Ha Hb H.
  - injection H as <-. split; reflexivity.
  - rewrite append_cons in H. cbn [String.append] in H. injection H as <- _.
    cbn in Hb. discriminate Hb.
  - rewrite append_cons in H. cbn [String.append] in H. injection H as -> _.
    cbn in Ha. discriminate Ha.
  - rewrite !append_cons in H. injection H as <- H.
    cbn [dotFree] in Ha, Hb. apply andb_true_iff in Ha as [_ Ha].
    apply andb_true_iff in Hb as [_ Hb].
    destruct (IH b Ha Hb H) as [-> ->]. split; reflexivity.
Qed.

Lemma default_paths_split (i j : nat) (f g : string) :
  ("output/cover" +:+ pageSuffix (S i)) +:+ "." +:+ f =
  ("output/cover" +:+ pageSuffix (S j)) +:+ "." +:+ g ->
  i = j /\ f = g.
Proof.
  intros H. rewrite !append_assoc_string in H.
  apply (inj (String.app "output/cover")) in H.
  apply first_dot_split in H; try apply dotFree_pageSuffix.
  destruct H as [Hs ->]. split; [apply pageSuffix_inj, Hs | reflexivity].
Qed.

Lemma separate_paths (ps : list PageConfig) :
  (forall k pc, ps !! k = Some pc ->
                outputPath pc = "output/cover" +:+ pageSuffix (S k)) ->
  NoDup (touchedPaths ps).
Proof.
  intros Hpath. unfold touchedPaths.
  assert (Hout : forall k x, map outputPathOf ps !! k = Some x ->
            exists pc, ps !! k = Some pc /\
              x = ("output/cover" +:+ pageSuffix (S k)) +:+ "." +:+ imageFormat pc).
  { intros k x Hx. change (map outputPathOf ps) with (outputPathOf <$> ps) in Hx.
    rewrite list_lookup_fmap in Hx.
    destruct (ps !! k) as [pc|] eqn:Hk; [|discriminate Hx].
    injection Hx as <-. exists pc. split; [reflexivity|].
    unfold outputPathOf. rewrite (Hpath k pc Hk). reflexivity. }
  assert (Htemp : forall k x, map tempPathOf ps !! k = Some x ->
            exists pc, ps !! k = Some pc /\
              x = ("output/cover" +:+ pageSuffix (S k)) +:+ "." +:+
                  (imageFormat pc +:+ ".temp")).
  { intros k x Hx. change (map tempPathOf ps) with (tempPathOf <$> ps) in Hx.
    rewrite list_lookup_fmap in Hx.
    destruct (ps !! k) as [pc|] eqn:Hk; [|discriminate Hx].
    injection Hx as <-. exists pc. split; [reflexivity|].
    unfold tempPathOf, outputPathOf. rewrite (Hpath k pc Hk).
    rewrite !append_assoc_string. reflexivity. }
  apply NoDup_app. split; [|split].
  - apply NoDup_alt. intros a b x Ha Hb.
    destruct (Hout a x Ha) as (pa & _ & ->).
    destruct (Hout b _ Hb) as (pb & _ & H).
    apply default_paths_split in H. destruct H as [-> _]. reflexivity.
  - intros x Hx Hx'.
    apply list_elem_of_lookup in Hx as [a Ha]. apply list_elem_of_lookup in Hx' as [b Hb].
    destruct (Hout a x Ha) as (pa & Hpa & ->).
    destruct (Htemp b _ Hb) as (pb & Hpb & H).
    apply default_paths_split in H. destruct H as [-> H].
    rewrite Hpa in Hpb. injection Hpb as <-.
    apply (f_equal String.length) in H. rewrite append_length in H. cbn in H. lia.
  - apply NoDup_alt. intros a b x Ha Hb.
    destruct (Htemp a x Ha) as (pa & _ & ->).
    destruct (Htemp b _ Hb) as (pb & _ & H).
    apply default_paths_split in H. destruct H as [-> _]. reflexivity.
Qed.

(** X19: with the default output paths the targets never share a file: when no
    [OUTPUT_PATH] variable is set, the artifacts and the temporary files of
    the configured targets are pairwise different, whatever their formats;
    this is what a render cycle needs to keep the targets apart. *)
Theorem default_paths_are_separate (Number : option string -> Num)
    (env : gmap string string) (targets : list PageConfig) :
  (forall i, env !! ("OUTPUT_PATH" +:+ pageSuffix i) = None) ->
  configuredPages Number env = Some targets ->
  NoDup (touchedPaths targets).
Proof.
  intros Hunset Hpages. apply separate_paths. intros k pc Hk.
  unfold configuredPages in Hpages. apply mapM_Some_1 in Hpages.
  destruct (Forall2_lookup_r _ _ _ _ _ Hpages Hk) as (p & Hp & Hpc).
  unfold getPagesConfig in Hp. apply pagesFrom_lookup in Hp.
  destruct Hp as (_ & _ & url & _ & ->).
  unfold toPageConfig in Hpc.
  cbn [pageOf raw_outputPath Nat.add] in Hpc.
  rewrite getEnvironmentVariable_fallback in Hpc by discriminate.
  rewrite Hunset in Hpc. cbn [default] in Hpc.
  repeat match type of Hpc with
         | match ?x with _ => _ end = Some _ =>
             let E := fresh "E" in destruct x eqn:E; [|discriminate Hpc]
         end.
  injection Hpc as <-. reflexivity.
Qed.

Lemma default_paths_are_separate_witness :
  NoDup (touchedPaths
           [ samplePage "/lovelace/a" "png" "output/cover" 0 8 "0%" "100%" 1;
             samplePage "/lovelace/b" "png" "output/cover_2" 90 8 "0%" "100%" 1 ]).
Proof.
  apply (default_paths_are_separate decimalNumber
           (delete "IMAGE_FORMAT" (delete "OUTPUT_PATH" sampleEnv))).
  - intros i. unfold pageSuffix. destruct (i =? 1)%nat.
    + vm_compute. reflexivity.
    + apply lookup_delete_None. right. apply lookup_delete_None. right.
      apply not_elem_of_dom. intros Hin.
      assert (Hdom : dom sampleEnv =
                ({[ "HA_SCREENSHOT_URL"; "HA_SCREENSHOT_URL_2"; "HA_SCREENSHOT_URL_4";
                    "OUTPUT_PATH"; "IMAGE_FORMAT"; "CONTRAST"; "ROTATION_2" ]}
                 : gset string)) by (vm_compute; reflexivity).
      rewrite Hdom in Hin.
      repeat (apply elem_of_union in Hin as [Hin|Hin]);
        apply elem_of_singleton in Hin;
        discriminate Hin.
  - vm_compute. reflexivity.
Defined.

(** *** The last good image *)

(** X20: a device keeps getting the last good image while rendering fails.
    When the targets have separate paths, the cycle is not interrupted and
    no temporary file was left behind, a target whose capture or conversion
    fails in this cycle is still served, to the next request for its page
    number, the artifact that was there before the cycle, with that file's
    modification time. *)
Theorem last_good_artifact_stays_served (config : Config) (w : World) (existing : bool)
    (st : State) (n : Z) (pc : PageConfig) (data : bytes) (t : Z) (request : Request) :
  let j := Z.to_nat (n - 1) in
  NoDup (touchedPaths (pages config)) ->
  ensureDirSucceeds w ->
  cycleStarts config w existing ->
  pageNumberOf request = Some n ->
  validPageNumber config n = true ->
  pages config !! j = Some pc ->
  fs st !! outputPathOf pc = Some (File data t) ->
  fs st !! tempPathOf pc = None ->
  captureThrows config w j pc = true \/ (exists e, converted w j pc = inl e) ->
  exists st',
    handleImageRequest config request (renderAndConvertAsync config w existing st).1 =
      (st', inr {| status := 200;
                   headers := [ ("Content-Type", HText ("image/" +:+ imageFormat pc));
                                ("Content-Length", HNumber (Z.of_nat (length data)));
                                ("Last-Modified", HDate t) ];
                   body := Data data |}).
Proof.
  intros j Hnodup Hdir Hstart Hn Hvalid Hpc Hold Hclean Hfail.
  destruct (renderAndConvertAsync_run config w existing st Hdir Hstart)
    as (st1 & E1 & B1 & C1 & F1).
  rewrite E1. cbn [fst].
  destruct (renderPagesFs_at config w (clock st) (pages config) j pc Hpc Hnodup
              0%nat (fs st)) as (before & Hbo & Hbt & Hout & _).
  assert (Hcase :
    (captureThrows config w (0 + j) pc = true /\ before !! tempPathOf pc = None) \/
    (captureThrows config w (0 + j) pc = false /\ exists e, converted w (0 + j) pc = inl e)).
  { cbn [Nat.add]. destruct (captureThrows config w j pc) eqn:Hcap.
    - left. split; [reflexivity|]. rewrite Hbt. exact Hclean.
    - right. split; [reflexivity|]. destruct Hfail as [H|H]; [discriminate H|exact H]. }
  destruct (renderPageFs_failure config w (0 + j) pc (clock st) before Hcase) as [_ Hkept].
  assert (Hfs : fs st1 !! outputPathOf pc = Some (File data t)).
  { rewrite F1, Hout, Hkept, Hbo. exact Hold. }
  eexists.
  rewrite (handleImageRequest_served config request st1 n pc data t Hn Hvalid Hpc Hfs).
  reflexivity.
Qed.

Lemma last_good_artifact_stays_served_witness :
  exists st',
    handleImageRequest threeTargets
      {| pathname := "/2"; queryBatteryLevel := None; queryIsCharging := None |}
      (renderAndConvertAsync threeTargets (flakyWorld 1) false
         (initialState earlierDisk 1700000100)).1 =
      (st', inr {| status := 200;
                   headers := [ ("Content-Type", HText "image/png");
                                ("Content-Length", HNumber 5);
                                ("Last-Modified", HDate 1700000000) ];
                   body := Data (String.list_byte_of_string "old-b") |}).
Proof.
  apply (last_good_artifact_stays_served threeTargets (flakyWorld 1) false
           (initialState earlierDisk 1700000100) 2
           (defaultPage "/lovelace/b" "output/b")
           (String.list_byte_of_string "old-b") 1700000000).
  - vm_compute. repeat constructor;
      intros Hin; repeat (apply elem_of_cons in Hin as [Hin|Hin]; [discriminate Hin|]);
      apply elem_of_nil in Hin; exact Hin.
  - intros i dir. reflexivity.
  - right. reflexivity.
  - reflexivity.
  - reflexivity.
  - reflexivity.
  - reflexivity.
  - reflexivity.
  - left. reflexivity.
Defined.
